(** * TuCanChat: the WhatsApp translator bot's dispatcher, wizard and pipeline

    A shallow embedding of [server.js] in three of the variants the
    repository keeps: [src/unnamed/part_000], the re-ordered handler of
    [src/unnamed/part_001] (its first file) and the handler of
    [src/unnamed/part_003] (its first file), which asks for the target
    language first and translates PDFs; and the properties the
    specification states about them.

    Conventions.
    - A JavaScript string is a Rocq [string]: the bytes of its UTF-8
      encoding.  Every comparison the handler makes is against ASCII text,
      apart from the German pattern of the gender step, whose one non-ASCII
      letter is folded explicitly (see [fold_case]).
    - The persistence store, the file system, the outbound message queue and
      the process-wide voice cache are fields of one [world] record that the
      handler threads through a small state-and-exception monad.
    - The vendor services (speech-to-text, language detection, translation,
      synthesis, object storage, payments) are oracles collected in [Env];
      an oracle answering [None] stands for a rejected promise.
    - The calls to the persistence store and to the messaging provider's
      send API are taken to succeed.  A send the provider rejects would end
      the handler at that line, with the rows written before it in place;
      such a run is outside the model, and no statement below is about one.
    - A message, or a billing event, is handled from its first line to its
      last before the next one is looked at: two handlers interleaving at
      their [await]s are outside the model. *)

From Stdlib Require Import String Ascii List Bool Arith Lia.
From stdpp Require Import base option list strings gmap.

Import ListNotations.
Local Open Scope string_scope.
Local Open Scope list_scope.
Local Open Scope nat_scope.

(** ** JavaScript string primitives *)

Module Js.

(** [c] as a number, for range tests. *)
Definition code (c : ascii) : nat := nat_of_ascii c.

Definition is_upper (c : ascii) : bool :=
  (65 <=? code c) && (code c <=? 90).

(** [/\d/] *)
Definition is_digit (c : ascii) : bool :=
  (48 <=? code c) && (code c <=? 57).

(** The white space [String.prototype.trim] strips, as far as it is ASCII:
    TAB, LF, VT, FF, CR and SPACE. *)
Definition is_space (c : ascii) : bool :=
  ((9 <=? code c) && (code c <=? 13)) || (code c =? 32).

Definition lower_char (c : ascii) : ascii :=
  if is_upper c then ascii_of_nat (code c + 32) else c.

(** [s.toLowerCase()] on the ASCII letters.  No character outside ASCII
    lower-cases to a letter of the menu's names or codes, so the
    comparisons of [pickLang] are not affected by the restriction. *)
Fixpoint toLowerCase (s : string) : string :=
  match s with
  | EmptyString => EmptyString
  | String c r => String (lower_char c) (toLowerCase r)
  end.

(** Case folding of a [/.../i] test: ASCII letters, and the two UTF-8
    bytes of U+00C4 (0xC3 0x84) are folded to U+00E4 (0xC3 0xA4). *)
Fixpoint fold_case (s : string) : string :=
  match s with
  | EmptyString => EmptyString
  | String c r =>
      match r with
      | String d r' =>
          if (code c =? 195) && (code d =? 132)
          then String c (String (ascii_of_nat 164) (fold_case r'))
          else String (lower_char c) (fold_case r)
      | EmptyString => String (lower_char c) EmptyString
      end
  end.

Fixpoint trimStart (s : string) : string :=
  match s with
  | String c r => if is_space c then trimStart r else s
  | EmptyString => EmptyString
  end.

Fixpoint rev_string (s acc : string) : string :=
  match s with
  | EmptyString => acc
  | String c r => rev_string r (String c acc)
  end.

Definition trimEnd (s : string) : string :=
  rev_string (trimStart (rev_string s "")) "".

Definition trim (s : string) : string := trimEnd (trimStart s).

(** [s.startsWith(p)] *)
Fixpoint startsWith (p s : string) : bool :=
  match p, s with
  | EmptyString, _ => true
  | String a p', String b s' => if Ascii.eqb a b then startsWith p' s' else false
  | String _ _, EmptyString => false
  end.

(** [s.includes(p)] *)
Fixpoint includes (p s : string) : bool :=
  startsWith p s ||
  match s with
  | EmptyString => false
  | String _ s' => includes p s'
  end.

(** [s.slice(0,n)] *)
Fixpoint slice0 (n : nat) (s : string) : string :=
  match n, s with
  | S n', String c r => String c (slice0 n' r)
  | _, _ => EmptyString
  end.

(** [s.split(sep)] for a one-character separator. *)
Fixpoint split (sep : ascii) (s : string) : list string :=
  match s with
  | EmptyString => [EmptyString]
  | String c r =>
      if Ascii.eqb c sep then EmptyString :: split sep r
      else match split sep r with
           | w :: ws => String c w :: ws
           | [] => [String c EmptyString]
           end
  end.

(** [parts.join(sep)] *)
Fixpoint join (sep : string) (parts : list string) : string :=
  match parts with
  | [] => EmptyString
  | [w] => w
  | w :: ws => w +:+ sep +:+ join sep ws
  end.

Fixpoint drop (n : nat) (s : string) : string :=
  match n, s with
  | S n', String _ r => drop n' r
  | _, _ => s
  end.

(** [s.replace(pat, rep)] for a string pattern: the first occurrence only. *)
Fixpoint replace (pat rep s : string) : string :=
  if startsWith pat s then rep +:+ drop (String.length pat) s
  else match s with
       | EmptyString => EmptyString
       | String c r => String c (replace pat rep r)
       end.

(** JavaScript truthiness of a nullable string column. *)
Definition truthy (o : option string) : bool :=
  match o with
  | Some s => negb (String.eqb s "")
  | None => false
  end.

(** [a === b] where [a] is a string and [b] a nullable string. *)
Definition seq (a : string) (b : option string) : bool :=
  match b with
  | Some s => String.eqb a s
  | None => false
  end.

End Js.

(** ** The language menu *)

Record menu_entry := MenuEntry { name : string; code : string }.

Definition MENU : list (string * menu_entry) :=
  [ ("1", MenuEntry "English" "en");
    ("2", MenuEntry "Spanish" "es");
    ("3", MenuEntry "French" "fr");
    ("4", MenuEntry "Portuguese" "pt");
    ("5", MenuEntry "German" "de") ].

(** [Object.keys(MENU)] *)
Definition DIGITS : list string := map fst MENU.

(** [MENU[k]] *)
Fixpoint menu_get (m : list (string * menu_entry)) (k : string) : option menu_entry :=
  match m with
  | [] => None
  | (d, e) :: r => if String.eqb d k then Some e else menu_get r k
  end.

(** [txt.trim().match(/^\d/)]: the leading digit, as a one-character string. *)
Definition match_leading_digit (txt : string) : option string :=
  match Js.trim txt with
  | String c _ => if Js.is_digit c then Some (String c EmptyString) else None
  | EmptyString => None
  end.

(** [pickLang]: a leading menu digit wins; otherwise the whole text must be a
    code, or a name up to case. *)
Definition pickLang (txt : string) : option menu_entry :=
  match
    match match_leading_digit txt with
    | Some d => menu_get MENU d
    | None => None
    end
  with
  | Some e => Some e
  | None =>
      let lc := Js.toLowerCase txt in
      List.find (fun o => String.eqb (code o) lc || String.eqb (Js.toLowerCase (name o)) lc)
                (map snd MENU)
  end.

(** ** The regular expressions of the handler *)

(** [/^[1-3]$/.test(text)] *)
Definition is_tier_digit (text : string) : bool :=
  String.eqb text "1" || String.eqb text "2" || String.eqb text "3".

(** [/^(reset|change language)$/i.test(text)] *)
Definition is_reset (text : string) : bool :=
  let t := Js.fold_case text in
  String.eqb t "reset" || String.eqb t "change language".

(** ** Data model *)

(** One row of the [users] table. *)
Record user := User {
  user_id : nat;
  phone_number : string;
  language_step : string;
  ui_lang : option string;
  source_lang : option string;
  target_lang : option string;
  voice_gender : option string;
  plan : option string;
  free_used : nat;
  stripe_cust_id : option string;
  stripe_sub_id : option string
}.

(** Column setters, one per column an [update({...})] of the source names. *)
Definition set_language_step (v : string) (u : user) : user :=
  User (user_id u) (phone_number u) v (ui_lang u) (source_lang u) (target_lang u)
       (voice_gender u) (plan u) (free_used u) (stripe_cust_id u) (stripe_sub_id u).
Definition set_ui_lang (v : option string) (u : user) : user :=
  User (user_id u) (phone_number u) (language_step u) v (source_lang u) (target_lang u)
       (voice_gender u) (plan u) (free_used u) (stripe_cust_id u) (stripe_sub_id u).
Definition set_source_lang (v : option string) (u : user) : user :=
  User (user_id u) (phone_number u) (language_step u) (ui_lang u) v (target_lang u)
       (voice_gender u) (plan u) (free_used u) (stripe_cust_id u) (stripe_sub_id u).
Definition set_target_lang (v : option string) (u : user) : user :=
  User (user_id u) (phone_number u) (language_step u) (ui_lang u) (source_lang u) v
       (voice_gender u) (plan u) (free_used u) (stripe_cust_id u) (stripe_sub_id u).
Definition set_voice_gender (v : option string) (u : user) : user :=
  User (user_id u) (phone_number u) (language_step u) (ui_lang u) (source_lang u)
       (target_lang u) v (plan u) (free_used u) (stripe_cust_id u) (stripe_sub_id u).
Definition set_plan (v : option string) (u : user) : user :=
  User (user_id u) (phone_number u) (language_step u) (ui_lang u) (source_lang u)
       (target_lang u) (voice_gender u) v (free_used u) (stripe_cust_id u) (stripe_sub_id u).
Definition set_free_used (v : nat) (u : user) : user :=
  User (user_id u) (phone_number u) (language_step u) (ui_lang u) (source_lang u)
       (target_lang u) (voice_gender u) (plan u) v (stripe_cust_id u) (stripe_sub_id u).
Definition set_stripe_cust_id (v : option string) (u : user) : user :=
  User (user_id u) (phone_number u) (language_step u) (ui_lang u) (source_lang u)
       (target_lang u) (voice_gender u) (plan u) (free_used u) v (stripe_sub_id u).
Definition set_stripe_sub_id (v : option string) (u : user) : user :=
  User (user_id u) (phone_number u) (language_step u) (ui_lang u) (source_lang u)
       (target_lang u) (voice_gender u) (plan u) (free_used u) (stripe_cust_id u) v.

(** One row of the append-only [translations] table. *)
Record translation := Translation {
  log_id : string;
  log_phone_number : string;
  original_text : string;
  translated_text : string;
  language_from : string;
  language_to : option string;
  credits_used : option nat;
  file_type : option string
}.

(** One entry of the synthesis provider's voice catalogue. *)
Record voice := Voice {
  voice_name : string;
  languageCodes : list string;
  ssmlGender : string
}.

(** Message texts.  The localisation table [I18N] is kept symbolic: [Tr l k]
    stands for the string [I18N[l][k]]; everything else is the string the
    source builds. *)
Inductive body :=
| Lit (s : string)
| Tr (lang key : string)
| Cat (a b : body).

(** What one [twilioClient.messages.create] call carries: a text body or a
    single media URL, never both. *)
Inductive payload :=
| Body (b : body)
| MediaUrl (url : string).

Record outmsg := OutMsg { msg_to : string; msg_payload : payload }.

(** Everything the process can change. *)
Record world := World {
  users : list user;
  translations : list translation;
  files : gset string;
  voiceCache : option (gmap string (list voice));
  outbox : list outmsg;
  uuids : nat
}.

Definition with_users (f : list user -> list user) (w : world) : world :=
  World (f (users w)) (translations w) (files w) (voiceCache w) (outbox w) (uuids w).
Definition with_translations (f : list translation -> list translation) (w : world) : world :=
  World (users w) (f (translations w)) (files w) (voiceCache w) (outbox w) (uuids w).
Definition with_files (f : gset string -> gset string) (w : world) : world :=
  World (users w) (translations w) (f (files w)) (voiceCache w) (outbox w) (uuids w).
Definition with_voiceCache (c : option (gmap string (list voice))) (w : world) : world :=
  World (users w) (translations w) (files w) c (outbox w) (uuids w).
Definition with_outbox (f : list outmsg -> list outmsg) (w : world) : world :=
  World (users w) (translations w) (files w) (voiceCache w) (f (outbox w)) (uuids w).
Definition with_uuids (n : nat) (w : world) : world :=
  World (users w) (translations w) (files w) (voiceCache w) (outbox w) n.

(** ** The handler monad: state plus exceptions *)

(** A thrown value; only its message is ever inspected. *)
Inductive exn := Error (message : string).

Inductive result (A : Type) :=
| Ok (a : A)
| Throw (e : exn).
Arguments Ok {A} a.
Arguments Throw {A} e.

Definition M (A : Type) : Type := world -> result A * world.

Definition ret {A} (a : A) : M A := fun w => (Ok a, w).
Definition throw {A} (e : exn) : M A := fun w => (Throw e, w).
Definition bind {A B} (m : M A) (k : A -> M B) : M B :=
  fun w => match m w with
           | (Ok a, w') => k a w'
           | (Throw e, w') => (Throw e, w')
           end.

Declare Scope js_scope.
Delimit Scope js_scope with js.
Notation "x <- m ;; k" := (bind m (fun x => k))
  (at level 100, m at next level, right associativity) : js_scope.
Notation "m ;;; k" := (bind m (fun _ => k))
  (at level 100, right associativity) : js_scope.
Local Open Scope js_scope.

(** [try { m } catch (e) { h e }] *)
Definition try_catch {A} (m : M A) (h : exn -> M A) : M A :=
  fun w => match m w with
           | (Ok a, w') => (Ok a, w')
           | (Throw e, w') => h e w'
           end.

(** [try { m } finally { f }]: [f] always runs; an exception of [f] replaces
    the outcome of [m]. *)
Definition try_finally {A} (m : M A) (f : M unit) : M A :=
  fun w => match m w with
           | (r, w') =>
               match f w' with
               | (Ok _, w'') => (r, w'')
               | (Throw e, w'') => (Throw e, w'')
               end
           end.

Definition get_world : M world := fun w => (Ok w, w).
Definition modify (f : world -> world) : M unit := fun w => (Ok tt, f w).

(** An awaited vendor call: [None] is a rejected promise. *)
Definition await {A} (what : string) (o : option A) : M A :=
  match o with
  | Some a => ret a
  | None => throw (Error what)
  end.

(** ** The persistence store *)

(** [.update(patch).eq(column, value)]: every matching row is patched. *)
Definition update_where (p : user -> bool) (patch : user -> user) (db : list user) : list user :=
  map (fun u => if p u then patch u else u) db.

(** [.select("*").eq(column, value).single()]: the row when exactly one
    matches, [null] otherwise. *)
Definition select_single (p : user -> bool) (db : list user) : option user :=
  match List.filter p db with
  | [u] => Some u
  | _ => None
  end.

Definition by_phone (from : string) (u : user) : bool := String.eqb (phone_number u) from.
Definition by_id (i : nat) (u : user) : bool := Nat.eqb (user_id u) i.
Definition by_cust (c : string) (u : user) : bool := Js.seq c (stripe_cust_id u).
Definition by_sub (s : string) (u : user) : bool := Js.seq s (stripe_sub_id u).

(** Modelled from the spec: the schema of the [users] table is not part of
    the repository.  The phone number is the unique key and the id is
    internal; a fresh row gets the next serial id and NULL in every column
    the inserting call does not name. *)
Definition next_id (db : list user) : nat :=
  S (foldr Nat.max 0 (map user_id db)).

Definition blank_row (db : list user) (from : string) : user :=
  User (next_id db) from "" None None None None None 0 None None.

(** [.upsert(values, {onConflict:["phone_number"]})]: patch the row holding
    the phone number, or insert a fresh one. *)
Definition upsert_by_phone (from : string) (patch : user -> user) (db : list user) : list user :=
  if existsb (by_phone from) db
  then update_where (by_phone from) patch db
  else db ++ [patch (blank_row db from)].

Definition db_update (p : user -> bool) (patch : user -> user) : M unit :=
  modify (with_users (update_where p patch)).

(** A verified payment-provider event: its [type] and the fields of
    [data.object] the webhook reads. *)
Inductive stripe_event :=
| checkout_session_completed
    (metadata_tier : option string) (metadata_uid : option nat)
    (customer : string) (subscription : option string)
| customer_subscription_deleted (sub_id : string)
| other_event (type : string).

(** What the billing webhook answers. *)
Inductive response :=
| sendStatus (status : nat)
| json_received.

(** ** The vendor services *)

Record Env := {
  STRIPE_WEBHOOK_SECRET : string;
  (** [stripe.webhooks.constructEvent(body, signature, secret)]: the event,
      or nothing when the signature does not verify *)
  constructEvent : string -> option string -> string -> option stripe_event;
  (** whether [.update()] answers with the patched rows (as the first major
      version of the client library does) or with [null] *)
  update_returns_rows : bool;
  (** [crypto.randomUUID()], by the number of identifiers drawn so far *)
  randomUUID : nat -> string;
  SUPABASE_URL : string;
  PRICE_MONTHLY : string;
  PRICE_ANNUAL : string;
  PRICE_LIFE : string;
  (** [stripe.customers.create({description})]: the new customer's id *)
  customers_create : string -> option string;
  (** [stripe.checkout.sessions.create({mode, customer, line_items:[{price}],
      metadata:{tier}})]: the hosted page's URL *)
  sessions_create : string -> string -> string -> string -> option string;
  (** [fetch(mediaUrl)]: the response's content type and bytes *)
  fetch_media : string -> option (string * string);
  (** whether ffmpeg transcodes the file at this path *)
  ffmpeg_ok : string -> bool;
  (** [openai.audio.transcriptions.create({model, file})]: text and language *)
  transcriptions_create : string -> string -> option (string * option string);
  (** the language-identification endpoint *)
  detect : string -> option string;
  (** [openai.chat.completions.create]: system prompt's target, user text *)
  completions_create : string -> string -> option string;
  (** the voice catalogue endpoint *)
  list_voices : option (list voice);
  (** the synthesis endpoint: text, languageCode, voice name; the answer's
      [audioContent], if any *)
  synthesize : string -> string -> string -> option (option string);
  (** [storage.from(bucket).upload(fn, ...)]: the error message, if any, of
      the n-th upload of a run *)
  storage_upload : string -> nat -> string -> option string;
  (** [storage.createBucket(bucket)]: the error code, if any *)
  createBucket : string -> option string;
  (** [pdfParse(buffer)]: the text layer of a PDF *)
  pdfParse : string -> option string;
  (** the page-by-page OCR of a PDF, joined as [extractPdfText] joins it *)
  pdfOcr : string -> option string;
  (** [buildPdf(text)]: the bytes of the new PDF *)
  pdfBuild : string -> option string
}.

Section Helpers.

Variable E : Env.

(** [uuid()] *)
Definition uuid : M string :=
  fun w => (Ok (randomUUID E (uuids w)), with_uuids (S (uuids w)) w).

(** [toWav(i,o)] *)
Definition toWav (i o : string) : M string :=
  if ffmpeg_ok E i
  then (modify (with_files (fun fs => fs ∪ {[ o ]})) ;;; ret o)
  else throw (Error "ffmpeg").

(** [fs.writeFileSync(path, buf)] *)
Definition writeFileSync (path : string) : M unit :=
  modify (with_files (fun fs => fs ∪ {[ path ]})).

(** [fs.unlinkSync(path)]: throws when there is no such file. *)
Definition unlinkSync (path : string) : M unit :=
  fun w => if decide (path ∈ files w)
           then (Ok tt, with_files (fun fs => fs ∖ {[ path ]}) w)
           else (Throw (Error "ENOENT"), w).

(** [whisper(wav)]: the large model, and the older one when it fails. *)
Definition whisper (wav : string) : M (string * string) :=
  try_catch
    (r <- await "whisper-large-v3" (transcriptions_create E "whisper-large-v3" wav) ;;
     ret (fst r, Js.slice0 2 (default "" (snd r))))
    (fun _ =>
     r <- await "whisper-1" (transcriptions_create E "whisper-1" wav) ;;
     ret (fst r, Js.slice0 2 (default "" (snd r)))).

(** [detectLang(q)] *)
Definition detectLang (q : string) : M string := await "detect" (detect E q).

(** [`${v}`] of a nullable string *)
Definition interpolate (v : option string) : string := default "null" v.

(** [translate(text,target)] *)
Definition translate (text : string) (target : option string) : M string :=
  r <- await "chat" (completions_create E (interpolate target) text) ;;
  ret (Js.trim r).

(** The [reduce] of [loadVoices]: every voice is filed under the prefix of
    each of its language codes, in catalogue order. *)
Definition file_voice (m : gmap string (list voice)) (v : voice) : gmap string (list voice) :=
  fold_left
    (fun m full =>
       let code := hd "" (firstn 1 (Js.split "-" full)) in
       <[ code := default [] (m !! code) ++ [v] ]> m)
    (languageCodes v) m.

Definition loadVoices : M unit :=
  w <- get_world ;;
  match voiceCache w with
  | Some _ => ret tt
  | None =>
      voices <- await "voices" (list_voices E) ;;
      modify (with_voiceCache (Some (fold_left file_voice voices ∅)))
  end.

(** The selection of [pickVoice], on a loaded cache: the gender's voices if
    there are any, the en-US ones among them for English if there are any,
    and of those the first Neural2, else WaveNet, else Standard voice, else
    the default voice. *)
Definition choose_voice (cache : gmap string (list voice))
    (lang : option string) (gender : option string) : string :=
  let all := default [] (cache !! interpolate lang) in
  let list := List.filter (fun v => Js.seq (ssmlGender v) gender) all in
  let list := if Nat.eqb (length list) 0 then all else list in
  let list :=
    if Js.seq "en" lang
    then let us := List.filter (fun v => Js.startsWith "en-US" (voice_name v)) list in
         if Nat.eqb (length us) 0 then list else us
    else list in
  match List.find (fun v => Js.includes "Neural2" (voice_name v)) list with
  | Some v => voice_name v
  | None =>
  match List.find (fun v => Js.includes "WaveNet" (voice_name v)) list with
  | Some v => voice_name v
  | None =>
  match List.find (fun v => Js.includes "Standard" (voice_name v)) list with
  | Some v => voice_name v
  | None => "en-US-Standard-A"
  end end end.

(** [pickVoice(lang,gender)] *)
Definition pickVoice (lang : option string) (gender : option string) : M string :=
  loadVoices ;;;
  w <- get_world ;;
  ret (choose_voice (default ∅ (voiceCache w)) lang gender).

(** The [synth] closure of [tts]: the audio, or [null] when the answer
    carries none. *)
Definition synth (text name : string) : M (option string) :=
  let lc := Js.join "-" (firstn 2 (Js.split "-" name)) in
  r <- await "synthesize" (synthesize E text lc name) ;;
  ret (if Js.truthy r then r else None).

(** [tts(text,lang,gender)]: the picked voice, then the bare language code,
    then the default voice. *)
Definition tts (text : string) (lang gender : option string) : M string :=
  name <- pickVoice lang gender ;;
  buf <- synth text name ;;
  match buf with
  | Some b => ret b
  | None =>
      buf <- synth text (interpolate lang) ;;
      match buf with
      | Some b => ret b
      | None =>
          buf <- synth text "en-US-Standard-A" ;;
          match buf with
          | Some b => ret b
          | None => throw (Error "TTS failed")
          end
      end
  end.

(** [ensureBucket()] *)
Definition ensureBucket : M unit :=
  match createBucket E "tts-voices" with
  | Some c => if String.eqb c "PGRST116" then ret tt else throw (Error c)
  | None => ret tt
  end.

(** [uploadAudio(buffer)]: one retry after creating a missing bucket. *)
Definition uploadAudio (buffer : string) : M string :=
  u <- uuid ;;
  let fn := "tts_" +:+ u +:+ ".mp3" in
  let up := storage_upload E "tts-voices" 0 fn in
  up <- match up with
        | Some m =>
            if Js.includes "bucket not found" (Js.fold_case m)
            then (ensureBucket ;;; ret (storage_upload E "tts-voices" 1 fn))
            else ret up
        | None => ret up
        end ;;
  match up with
  | Some m => throw (Error m)
  | None => ret (SUPABASE_URL E +:+ "/storage/v1/object/public/tts-voices/" +:+ fn)
  end.

(** [ensureCustomer(u)] *)
Definition ensureCustomer (u : user) : M string :=
  if Js.truthy (stripe_cust_id u) then ret (default "" (stripe_cust_id u))
  else
    c <- await "customers" (customers_create E ("TuCan " +:+ phone_number u)) ;;
    db_update (by_id (user_id u)) (set_stripe_cust_id (Some c)) ;;;
    ret c.

(** [checkoutUrl(u,tier)] *)
Definition checkoutUrl (u : user) (tier : string) : M string :=
  let price := if String.eqb tier "monthly" then PRICE_MONTHLY E
               else if String.eqb tier "annual" then PRICE_ANNUAL E
               else PRICE_LIFE E in
  let mode := if String.eqb tier "life" then "payment" else "subscription" in
  customer <- ensureCustomer u ;;
  await "sessions" (sessions_create E mode customer price tier).

(** [sendMessage(to,body,mediaUrl)].  The awaited [messages.create] is
    taken to accept the message (see the conventions); the message joins the
    outbound queue. *)
Definition sendMessage (to : string) (b : body) (mediaUrl : option string) : M unit :=
  let p := if Js.truthy mediaUrl then MediaUrl (default "" mediaUrl) else Body b in
  modify (with_outbox (fun q => q ++ [OutMsg to p])).

(** [logRow(d)]: the row [d] with a fresh id. *)
Definition logRow (d : string -> translation) : M unit :=
  i <- uuid ;;
  modify (with_translations (fun t => t ++ [d i])).

End Helpers.

(** ** The line feed and the menu lines *)

Definition LF : string := String (ascii_of_nat 10) EmptyString.

(** The keycap suffix the menus put after a digit (U+FE0F U+20E3). *)
Definition KEYCAP : string := "️⃣".

(** [`${d}<keycap> ${MENU[d].name} (${MENU[d].code})`] *)
Definition menu_line (d : string) : string :=
  match menu_get MENU d with
  | Some e => d +:+ KEYCAP +:+ " " +:+ name e +:+ " (" +:+ code e +:+ ")"
  | None => ""
  end.

(** [DIGITS.map(d => ...).join("\n")] *)
Definition menu_lines : string := Js.join LF (map menu_line DIGITS).

(** ** The translation phase

    The tail of [handleIncoming], from the comment "Translation phase" on.
    [part_000] and [part_001] carry the same text; [part_003] adds two
    columns to the log row, which [translation_phase_with] takes as an
    argument. *)

Section Pipeline.

Variable E : Env.

(** The container extension sniffed from the content type. *)
Definition ext_of (ctype : string) : string :=
  if Js.includes "ogg" ctype then ".ogg"
  else if Js.includes "mpeg" ctype then ".mp3"
  else if Js.includes "mp4" ctype || Js.includes "m4a" ctype then ".m4a"
  else ".dat".

(** The media branch: download, transcode, transcribe; the transcript and
    its language. *)
Definition transcribe_media (mediaUrl : string) : M (string * string) :=
  resp <- await "fetch" (fetch_media E mediaUrl) ;;
  let ctype := fst resp in
  let ext := ext_of ctype in
  u <- uuid E ;;
  let raw := "/tmp/" +:+ u +:+ ext in
  let wav := Js.replace ext ".wav" raw in
  writeFileSync raw ;;;
  toWav E raw wav ;;;
  try_finally
    (r <- whisper E wav ;;
     if negb (String.eqb (snd r) "") then ret (fst r, snd r)
     else (d <- detectLang E (fst r) ;; ret (fst r, Js.slice0 2 d)))
    (unlinkSync raw ;;; unlinkSync wav).

(** [detected===user.target_lang ? user.source_lang : user.target_lang] *)
Definition dest_of (detected : string) (user : user) : option string :=
  if Js.seq detected (target_lang user) then source_lang user else target_lang user.

Definition HEARD : string := "🗣 ".

(** The "reply" block: the translation alone for a message without media,
    else the transcript, the translation and, when it can be made, the
    audio. *)
Definition reply (from original translated : string) (num : nat)
    (dest gender : option string) : M unit :=
  if Nat.eqb num 0
  then sendMessage from (Lit translated) None
  else
    sendMessage from (Lit (HEARD +:+ original)) None ;;;
    sendMessage from (Lit translated) None ;;;
    try_catch
      (mp3 <- tts E translated dest gender ;;
       pub <- uploadAudio E mp3 ;;
       sendMessage from (Lit "") (Some pub))
      (fun _ => ret tt).

(** The original message and its detected language: the transcript of the
    media when there is one, else the text as it came, else nothing. *)
Definition acquire (text : string) (num : nat) (mediaUrl : option string)
  : M (string * string) :=
  if (0 <? num) && Js.truthy mediaUrl
  then transcribe_media (default "" mediaUrl)
  else if negb (String.eqb text "")
  then (d <- detectLang E text ;; ret (text, Js.slice0 2 d))
  else ret ("", "").

Definition translation_phase_with (cols : nat -> option nat * option string)
    (from text : string) (num : nat) (mediaUrl : option string)
    (user : user) (isFree : bool) : M unit :=
  od <- acquire text num mediaUrl ;;
  let original := fst od in
  let detected := snd od in
  if String.eqb original ""
  then sendMessage from (Lit "⚠️ Send text or a voice note.") None
  else
    let dest := dest_of detected user in
    translated <- translate E original dest ;;
    (if isFree
     then db_update (by_phone from) (set_free_used (free_used user + 1))
     else ret tt) ;;;
    logRow E (fun i => Translation i from original translated detected dest
                         (fst (cols num)) (snd (cols num))) ;;;
    reply from original translated num dest (voice_gender user).

(** The translation phase of [part_000] and [part_001]: the log row has
    no further column. *)
Definition translation_phase :=
  translation_phase_with (fun _ => (None, None)).

End Pipeline.

(** ** [part_000]: billing webhook and message handler *)

Module Part000.

(** The languages [I18N] has a table for; each table defines every key. *)
Definition I18N_langs : list string := ["en"; "es"; "fr"; "pt"; "de"].

(** [tr(lang,key)]: the language's string, the English one otherwise. *)
Definition tr (lang key : string) : body :=
  if existsb (String.eqb lang) I18N_langs then Tr lang key else Tr "en" key.

(** [menuMsg(txt)] *)
Definition menuMsg (txt : body) : body :=
  Cat txt (Lit (LF +:+ LF +:+ menu_lines)).

(** The welcome menu of the reset branch. *)
Definition WELCOME : body :=
  Lit ("👋 Welcome to TuCanChat!  Please choose your language:" +:+ LF +:+ LF +:+ menu_lines).

Section WithEnv.

Variable E : Env.

(** The plan a completed checkout buys. *)
Definition plan_of_tier (tier : option string) : string :=
  if Js.seq "monthly" tier then "MONTHLY"
  else if Js.seq "annual" tier then "ANNUAL"
  else "LIFETIME".

(** [app.post("/stripe-webhook", ...)] *)
Definition stripe_webhook (req_body : string) (signature : option string) : M response :=
  match constructEvent E req_body signature (STRIPE_WEBHOOK_SECRET E) with
  | None => ret (sendStatus 400)
  | Some event =>
      match event with
      | checkout_session_completed tier uid customer subscription =>
          let plan := plan_of_tier tier in
          w <- get_world ;;
          let matched := List.filter (by_cust customer) (users w) in
          db_update (by_cust customer)
            (fun u => set_stripe_sub_id subscription
                        (set_free_used 0 (set_plan (Some plan) u))) ;;;
          if update_returns_rows E && Nat.eqb (length matched) 0
          then db_update
                 (fun u => match uid with Some i => by_id i u | None => false end)
                 (fun u => set_stripe_sub_id subscription
                             (set_stripe_cust_id (Some customer)
                                (set_free_used 0 (set_plan (Some plan) u))))
          else ret tt
      | customer_subscription_deleted sub_id =>
          db_update (by_sub sub_id) (set_plan (Some "FREE"))
      | other_event _ => ret tt
      end ;;;
      ret json_received
  end.

(** The gender patterns: [/^1$/] or [/male|masculina|männlich/i], and
    [/^2$/] or [/female|femenina|weiblich/i]. *)
Definition male_re (text : string) : bool :=
  String.eqb text "1" ||
  (let t := Js.fold_case text in
   Js.includes "male" t || Js.includes "masculina" t || Js.includes "männlich" t).

Definition female_re (text : string) : bool :=
  String.eqb text "2" ||
  (let t := Js.fold_case text in
   Js.includes "female" t || Js.includes "femenina" t || Js.includes "weiblich" t).

(** The two assignments of the gender step, in source order. *)
Definition pick_gender (text : string) : option string :=
  let g := None in
  let g := if male_re text then Some "MALE" else g in
  let g := if female_re text then Some "FEMALE" else g in
  g.

(** [!user.plan||user.plan==="FREE"] *)
Definition is_free (user : user) : bool :=
  negb (Js.truthy (plan user)) || Js.seq "FREE" (plan user).

(** [user.ui_lang||"en"] *)
Definition ui_of (user : user) : string :=
  if Js.truthy (ui_lang user) then default "" (ui_lang user) else "en".

(** The row patch of the reset branch. *)
Definition reset_patch (u : user) : user :=
  set_ui_lang None (set_voice_gender None (set_target_lang None
    (set_source_lang None (set_language_step "ui" u)))).

(** "fetch / create user" *)
Definition fetch_or_create (from : string) : M user :=
  w <- get_world ;;
  match select_single (by_phone from) (users w) with
  | Some u => ret u
  | None =>
      modify (with_users (upsert_by_phone from
        (fun u => set_free_used 0 (set_plan (Some "FREE") (set_language_step "ui" u))))) ;;;
      w <- get_world ;;
      await "user" (select_single (by_phone from) (users w))
  end.

(** The body of the "pay-wall quick replies" block: a checkout link for
    the tier the digit names, or an apology when the link cannot be made. *)
Definition quick_reply (from text : string) (user : user) : M unit :=
  let tier := if String.eqb text "1" then "monthly"
              else if String.eqb text "2" then "annual" else "life" in
  try_catch
    (link <- checkoutUrl E user tier ;;
     sendMessage from (Lit ("Tap to pay → " +:+ link)) None)
    (fun _ => sendMessage from (Lit "⚠️ Payment link error. Try again later.") None).

(** The body of the "reset" block. *)
Definition reset (from : string) : M unit :=
  db_update (by_phone from) reset_patch ;;;
  sendMessage from WELCOME None.

(** The "Wizard flow": the three setup steps; [rest] is what follows when
    the user's step is none of them. *)
Definition wizard (from text : string) (user : user) (rest : M unit) : M unit :=
  (* STEP 0: choose UI / own language *)
  if String.eqb (language_step user) "ui" then
    match pickLang text with
    | None =>
        sendMessage from
          (Cat (Cat (tr "en" "reply1to5") (Lit LF))
               (menuMsg (Lit "Please choose your language:"))) None
    | Some c =>
        db_update (by_phone from)
          (fun u => set_language_step "target"
                      (set_source_lang (Some (code c)) (set_ui_lang (Some (code c)) u))) ;;;
        sendMessage from (tr (code c) "how") None ;;;
        sendMessage from (menuMsg (tr (code c) "receive")) None
    end
  else
  let ui := ui_of user in
  (* STEP 1: target / receive language *)
  if String.eqb (language_step user) "target" then
    match pickLang text with
    | None =>
        sendMessage from
          (Cat (Cat (tr ui "reply1to5") (Lit LF)) (menuMsg (tr ui "receive"))) None
    | Some c =>
        if Js.seq (code c) (source_lang user) then
          sendMessage from
            (Cat (Cat (tr ui "targetDiff") (Lit LF)) (menuMsg (tr ui "receive"))) None
        else
          db_update (by_phone from)
            (fun u => set_language_step "gender" (set_target_lang (Some (code c)) u)) ;;;
          sendMessage from (tr ui "voice") None
    end
  (* STEP 2: voice gender *)
  else if String.eqb (language_step user) "gender" then
    match pick_gender text with
    | None => sendMessage from (tr ui "genderErr") None
    | Some g =>
        db_update (by_phone from)
          (fun u => set_language_step "ready" (set_voice_gender (Some g) u)) ;;;
        sendMessage from (tr ui "setupDone") None
    end
  else rest.

(** [!user.source_lang||!user.target_lang||!user.voice_gender] *)
Definition incomplete (user : user) : bool :=
  negb (Js.truthy (source_lang user)) || negb (Js.truthy (target_lang user))
  || negb (Js.truthy (voice_gender user)).

(** The routing of [handleIncoming] once the sender's row is at hand: the
    tests in source order, the first that holds decides. *)
Definition dispatch
    (from text : string) (num : nat) (mediaUrl : option string) (user : user) : M unit :=
  let isFree := is_free user in
  (* pay-wall quick replies *)
  if is_tier_digit text && isFree && (5 <=? free_used user) then
    quick_reply from text user
  (* reset *)
  else if is_reset text then
    reset from
  (* PAYWALL gate *)
  else if isFree && (5 <=? free_used user) then
    sendMessage from (tr (ui_of user) "paywall") None
  (* Wizard flow *)
  else
    wizard from text user
      ((* Abort if setup incomplete *)
       if incomplete user then
         sendMessage from (Lit "⚠️ Setup incomplete. Text *reset* to start over.") None
       (* Translation phase *)
       else translation_phase E from text num mediaUrl user isFree).

(** [handleIncoming(from,text,num,mediaUrl)] *)
Definition handleIncoming
    (from text : string) (num : nat) (mediaUrl : option string) : M unit :=
  if String.eqb from "" then ret tt else
  user <- fetch_or_create from ;;
  dispatch from text num mediaUrl user.

End WithEnv.

End Part000.

(** ** [part_001]: the handler with the wizard steps tested first

    The helpers are those of [part_000].  The file declares [MENU], [DIGITS]
    and [PAYWALL] twice; the handler is modelled with the first
    declarations. *)

Module Part001.

(** [pickLang] of this variant: trimmed before either test. *)
Definition pickLang (txt : string) : option menu_entry :=
  let m := Js.trim txt in
  match
    match m with
    | String c _ => if Js.is_digit c then menu_get MENU (String c EmptyString) else None
    | EmptyString => None
    end
  with
  | Some e => Some e
  | None =>
      let lc := Js.toLowerCase m in
      List.find (fun o => String.eqb (code o) lc || String.eqb (Js.toLowerCase (name o)) lc)
                (map snd MENU)
  end.

Definition L_langs : list string := ["en"; "es"; "fr"; "pt"; "de"].

(** [t(key,lang)]: [(L[lang] ?? L.en)[key]] *)
Definition t (key : string) (lang : option string) : body :=
  match lang with
  | Some l => if existsb (String.eqb l) L_langs then Tr l key else Tr "en" key
  | None => Tr "en" key
  end.

(** [buildMenu(lang)]: the argument is not used. *)
Definition buildMenu (lang : option string) : string := menu_lines.

Definition WELCOME : body :=
  Lit ("👋 Welcome to TuCanChat!  Please choose your language:" +:+ LF +:+ LF
       +:+ buildMenu (Some "en")).

Definition PAYWALL : body :=
  Lit ("⚠️ You’ve used your 5 free translations." +:+ LF +:+ LF
       +:+ "1" +:+ KEYCAP +:+ " Monthly  $4.99" +:+ LF
       +:+ "2" +:+ KEYCAP +:+ " Annual   $49.99" +:+ LF
       +:+ "3" +:+ KEYCAP +:+ " Lifetime $199").

(** [`${t("askReceive",lang)}\n\n${buildMenu(lang)}`] *)
Definition ask_receive (lang : option string) : body :=
  Cat (t "askReceive" lang) (Lit (LF +:+ LF +:+ buildMenu lang)).

Section WithEnv.

Variable E : Env.

(** [/^1$/] or [/male/i], and [/^2$/] or [/female/i]. *)
Definition male_re (text : string) : bool :=
  String.eqb text "1" || Js.includes "male" (Js.fold_case text).

Definition female_re (text : string) : bool :=
  String.eqb text "2" || Js.includes "female" (Js.fold_case text).

Definition pick_gender (text : string) : option string :=
  let g := None in
  let g := if male_re text then Some "MALE" else g in
  let g := if female_re text then Some "FEMALE" else g in
  g.

Definition is_free (user : user) : bool :=
  negb (Js.truthy (plan user)) || Js.seq "FREE" (plan user).

(** The row patch of the reset branch. *)
Definition reset_patch (u : user) : user :=
  set_voice_gender None (set_target_lang None (set_source_lang None
    (set_ui_lang None (set_language_step "choose_ui" u)))).

(** "fetch / create user row" *)
Definition fetch_or_create (from : string) : M user :=
  w <- get_world ;;
  match select_single (by_phone from) (users w) with
  | Some u => ret u
  | None =>
      modify (with_users (upsert_by_phone from
        (fun u => set_free_used 0 (set_plan (Some "FREE")
                    (set_language_step "choose_ui" u))))) ;;;
      w <- get_world ;;
      await "user" (select_single (by_phone from) (users w))
  end.

(** Steps 0 to 2 of the handler: the three setup steps; [rest] is what
    follows when the user's step is none of them. *)
Definition wizard (from text : string) (user : user) (rest : M unit) : M unit :=
  (* 0. first run - choose UI language *)
  if String.eqb (language_step user) "choose_ui" then
    match pickLang text with
    | None => sendMessage from WELCOME None
    | Some lang =>
        db_update (by_id (user_id user))
          (fun u => set_language_step "receive"
                      (set_source_lang (Some (code lang)) (set_ui_lang (Some (code lang)) u))) ;;;
        sendMessage from (t "how" (Some (code lang))) None ;;;
        sendMessage from (ask_receive (Some (code lang))) None
    end
  (* 1. choose language you receive *)
  else if String.eqb (language_step user) "receive" then
    match pickLang text with
    | None => sendMessage from (ask_receive (ui_lang user)) None
    | Some lang =>
        if Js.seq (code lang) (source_lang user) then
          sendMessage from (ask_receive (ui_lang user)) None
        else
          db_update (by_id (user_id user))
            (fun u => set_language_step "gender" (set_target_lang (Some (code lang)) u)) ;;;
          sendMessage from (t "askGender" (ui_lang user)) None
    end
  (* 2. choose voice gender *)
  else if String.eqb (language_step user) "gender" then
    match pick_gender text with
    | None => sendMessage from (t "askGender" (ui_lang user)) None
    | Some g =>
        db_update (by_id (user_id user))
          (fun u => set_language_step "ready" (set_voice_gender (Some g) u)) ;;;
        sendMessage from (t "setupDone" (ui_lang user)) None
    end
  else rest.

(** Step 3, "PAY-WALL quick replies". *)
Definition quick_reply (from text : string) (user : user) : M unit :=
  let tier := if String.eqb text "1" then "monthly"
              else if String.eqb text "2" then "annual" else "life" in
  try_catch
    (link <- checkoutUrl E user tier ;;
     sendMessage from (Lit ("Tap to pay → " +:+ link)) None)
    (fun _ => sendMessage from (Lit "⚠️ Payment link error. Try again later.") None).

(** Step 4, "reset cmd". *)
Definition reset (from : string) (user : user) : M unit :=
  db_update (by_id (user_id user)) reset_patch ;;;
  sendMessage from WELCOME None.

Definition incomplete (user : user) : bool :=
  negb (Js.truthy (source_lang user)) || negb (Js.truthy (target_lang user))
  || negb (Js.truthy (voice_gender user)).

(** The routing of [handleIncoming] once the sender's row is at hand. *)
Definition dispatch
    (from text : string) (num : nat) (mediaUrl : option string) (user : user) : M unit :=
  let isFree := is_free user in
  (* 0-2. the wizard steps *)
  wizard from text user
    ((* 3. PAY-WALL quick replies *)
     if is_tier_digit text && isFree && (5 <=? free_used user) then
       quick_reply from text user
     (* 4. reset cmd *)
     else if is_reset text then
       reset from user
     (* 5. pay-wall gate *)
     else if isFree && (5 <=? free_used user) then
       sendMessage from PAYWALL None
     (* 6. guard *)
     else if incomplete user then
       sendMessage from (Lit "⚠️ Setup incomplete. Type “reset” to start over.") None
     else translation_phase E from text num mediaUrl user isFree).

(** [handleIncoming(from,text,num,mediaUrl)] *)
Definition handleIncoming
    (from text : string) (num : nat) (mediaUrl : option string) : M unit :=
  if String.eqb from "" then ret tt else
  user <- fetch_or_create from ;;
  dispatch from text num mediaUrl user.

End WithEnv.

End Part001.

(** ** [part_003]: the target language is asked first, and PDFs are translated

    The handler of [part_003] (its first file).  The free quota is ten, the
    wizard asks for the language of the replies before the sender's own,
    and its prompts are run through the translation model.  The helpers for
    audio, synthesis and upload are those of [part_000]. *)

Module Part003.

(** [pickLang]: the text of this variant is that of [part_001]. *)
Definition pickLang : string -> option menu_entry := Part001.pickLang.

(** [menuMsg(t)] *)
Definition menuMsg (t : string) : string := t +:+ LF +:+ LF +:+ menu_lines.

Definition paywall_langs : list string := ["en"; "es"; "fr"; "pt"; "de"].

(** [paywallMsg[(user.target_lang || "en").toLowerCase()] || paywallMsg.en];
    the table's texts are kept symbolic. *)
Definition paywall_of (target : option string) : body :=
  let l := Js.toLowerCase (if Js.truthy target then default "" target else "en") in
  if existsb (String.eqb l) paywall_langs then Tr l "paywall" else Tr "en" "paywall".

Definition WELCOME_MSG : string :=
  "Welcome to TuCanChat🦜" +:+ LF +:+
  "1) I speak English – type 1" +:+ LF +:+
  "2) Hablo Español – escribe 2" +:+ LF +:+
  "3) Je parle français – tapez 3" +:+ LF +:+
  "4) Eu falo português – digite 4" +:+ LF +:+
  "5) Ich spreche Deutsch – tippe 5".

Definition HOW_TEXT : string :=
  "📌 How TuCanChat works🦜" +:+ LF +:+
  "Recieve a voice note or text you dont 100% understand?" +:+ LF +:+
  "• Send it to me" +:+ LF +:+
  "• I instantly:" +:+ LF +:+
  "  1. Transcribe the message" +:+ LF +:+
  "  2. Translate" +:+ LF +:+
  "  3. Provide an audio reply in your language" +:+ LF +:+
  "  4. Speak the reply in your own language; I’ll translate and creat a text and voice message you can forward to them" +:+ LF +:+
  "• Type “reset” anytime to switch languages." +:+ LF +:+
  "" +:+ LF +:+
  "All without leaving WhatsApp.".

(** The menu the target step has translated. *)
Definition menuRaw : string :=
  "1) English (en)" +:+ LF +:+
  "2) Spanish (es)" +:+ LF +:+
  "3) French (fr)" +:+ LF +:+
  "4) Portuguese (pt)" +:+ LF +:+
  "5) German (de)".

(** [chunkText(s, size)]: consecutive pieces of [size] characters. *)
Fixpoint chunks (fuel size : nat) (s : string) : list string :=
  match fuel with
  | 0 => []
  | S fuel' =>
      if String.eqb s "" then []
      else Js.slice0 size s :: chunks fuel' size (Js.drop size s)
  end.

Definition chunkText (s : string) : list string := chunks (String.length s) 3000 s.

Section WithEnv.

Variable E : Env.

(** [translate(text,target)]: the prompt of this variant differs, the call
    is the same. *)
Definition translate (text : string) (target : option string) : M string :=
  translate E text target.

(** [extractPdfText(buffer)]: the text layer when it is long enough, else
    the OCR of the pages. *)
Definition extractPdfText (buffer : string) : M string :=
  text <- await "pdf-parse" (pdfParse E buffer) ;;
  if 200 <=? String.length (Js.trim text) then ret text
  else (ocr <- await "ocr" (pdfOcr E buffer) ;; ret (Js.trim ocr)).

(** [buildPdf(text)] *)
Definition buildPdf (text : string) : M string := await "pdf-lib" (pdfBuild E text).

(** [ensurePdfBucket()] *)
Definition ensurePdfBucket : M unit :=
  match createBucket E "pdf-translations" with
  | Some c => if String.eqb c "PGRST116" then ret tt else throw (Error c)
  | None => ret tt
  end.

(** [uploadPdf(buffer)] *)
Definition uploadPdf (buffer : string) : M string :=
  u <- uuid E ;;
  let fn := "pdf_" +:+ u +:+ ".pdf" in
  let up := storage_upload E "pdf-translations" 0 fn in
  up <- match up with
        | Some m =>
            if Js.includes "bucket not found" (Js.fold_case m)
            then (ensurePdfBucket ;;; ret (storage_upload E "pdf-translations" 1 fn))
            else ret up
        | None => ret up
        end ;;
  match up with
  | Some m => throw (Error m)
  | None => ret (SUPABASE_URL E +:+ "/storage/v1/object/public/pdf-translations/" +:+ fn)
  end.

(** [ensureCustomer(user)]: the customer id is written with an upsert on
    the row's id; the row was read in the same run, so it is a patch.  The
    [email] and [full_name] columns only feed the provider call and are
    left out of the model. *)
Definition ensureCustomer (u : user) : M string :=
  if Js.truthy (stripe_cust_id u) then ret (default "" (stripe_cust_id u))
  else
    c <- await "customers" (customers_create E ("TuCanChat — " +:+ phone_number u)) ;;
    db_update (by_id (user_id u)) (set_stripe_cust_id (Some c)) ;;;
    ret c.

(** [checkoutUrl(user,tier)] *)
Definition checkoutUrl (u : user) (tier : string) : M string :=
  let price := if String.eqb tier "monthly" then PRICE_MONTHLY E
               else if String.eqb tier "annual" then PRICE_ANNUAL E
               else PRICE_LIFE E in
  custId <- ensureCustomer u ;;
  await "sessions"
    (sessions_create E (if String.eqb tier "life" then "payment" else "subscription")
       custId price tier).

(** [app.post("/stripe-webhook", ...)]: no fallback by id in this variant. *)
Definition stripe_webhook (req_body : string) (signature : option string) : M response :=
  match constructEvent E req_body signature (STRIPE_WEBHOOK_SECRET E) with
  | None => ret (sendStatus 400)
  | Some event =>
      match event with
      | checkout_session_completed tier uid customer subscription =>
          let plan := Part000.plan_of_tier tier in
          db_update (by_cust customer)
            (fun u => set_stripe_sub_id subscription
                        (set_free_used 0 (set_plan (Some plan) u)))
      | customer_subscription_deleted sub_id =>
          db_update (by_sub sub_id) (set_plan (Some "FREE"))
      | other_event _ => ret tt
      end ;;;
      ret json_received
  end.

Definition is_free (user : user) : bool :=
  negb (Js.truthy (plan user)) || Js.seq "FREE" (plan user).

(** The row patch of the reset branch. *)
Definition reset_patch (u : user) : user :=
  set_voice_gender None (set_target_lang None (set_source_lang None
    (set_language_step "target" u))).

(** [/^1$/] or [/male/i], and [/^2$/] or [/female/i], on the lower-cased
    text. *)
Definition pick_gender (lower : string) : option string :=
  let g := None in
  let g := if String.eqb lower "1" || Js.includes "male" (Js.fold_case lower)
           then Some "MALE" else g in
  let g := if String.eqb lower "2" || Js.includes "female" (Js.fold_case lower)
           then Some "FEMALE" else g in
  g.

(** Step 1, "pay-wall button replies". *)
Definition quick_reply (from lower : string) (user : user) : M unit :=
  let tier := if String.eqb lower "1" then "monthly"
              else if String.eqb lower "2" then "annual" else "life" in
  try_catch
    (link <- checkoutUrl user tier ;;
     sendMessage from (Lit ("Tap to pay → " +:+ link)) None)
    (fun _ => sendMessage from (Lit "⚠️ Payment link error. Try again later.") None).

(** Step 2, "reset". *)
Definition reset (from : string) : M unit :=
  db_update (by_phone from) reset_patch ;;;
  sendMessage from (Lit WELCOME_MSG) None.

(** Step 4, "onboarding wizard". *)
Definition wizard (from text lower : string) (user : user) (rest : M unit) : M unit :=
  (* 4a. pick TARGET language *)
  if String.eqb (language_step user) "target" then
    match pickLang text with
    | Some choice =>
        db_update (by_phone from)
          (fun u => set_language_step "source" (set_target_lang (Some (code choice)) u)) ;;;
        how <- translate HOW_TEXT (Some (code choice)) ;;
        sendMessage from (Lit how) None ;;;
        heading <- translate "Choose the language you RECEIVE messages in:"
                     (Some (code choice)) ;;
        menuTranslated <- translate menuRaw (Some (code choice)) ;;
        sendMessage from (Lit (heading +:+ LF +:+ menuTranslated)) None
    | None =>
        sendMessage from (Lit ("❌ Reply 1-5." +:+ LF +:+
              "1) English" +:+ LF +:+
              "2) Spanish" +:+ LF +:+
              "3) French" +:+ LF +:+
              "4) Portuguese" +:+ LF +:+
              "5) German")) None
    end
  (* 4b. pick SOURCE language *)
  else if String.eqb (language_step user) "source" then
    match pickLang text with
    | Some choice =>
        if Js.seq (code choice) (target_lang user) then
          sendMessage from
            (Lit (menuMsg ("⚠️ Source must differ." +:+ LF +:+ "Languages:"))) None
        else
          db_update (by_phone from)
            (fun u => set_language_step "gender" (set_source_lang (Some (code choice)) u)) ;;;
          gPrompt <- translate ("🔊 Choose your voice gender?" +:+ LF +:+
                        "1️⃣ Male" +:+ LF +:+
                        "2️⃣ Female") (target_lang user) ;;
          sendMessage from (Lit gPrompt) None
    | None =>
        sendMessage from (Lit (menuMsg ("❌ Reply 1-5." +:+ LF +:+ "Languages:"))) None
    end
  (* 4c. pick voice gender *)
  else if String.eqb (language_step user) "gender" then
    match pick_gender lower with
    | Some g =>
        db_update (by_phone from)
          (fun u => set_language_step "ready" (set_voice_gender (Some g) u)) ;;;
        done <- translate "✅ Setup complete! Send text or a voice note." (target_lang user) ;;
        sendMessage from (Lit done) None
    | None =>
        retry <- translate ("❌ Reply 1 or 2." +:+ LF +:+
                   "1️⃣ Male" +:+ LF +:+
                   "2️⃣ Female") (target_lang user) ;;
        sendMessage from (Lit retry) None
    end
  else rest.

Definition incomplete (user : user) : bool :=
  negb (Js.truthy (source_lang user)) || negb (Js.truthy (target_lang user))
  || negb (Js.truthy (voice_gender user)).

(** [pieces.push(await translate(c, user.target_lang))] over the chunks. *)
Fixpoint translate_all (cs : list string) (target : option string) : M (list string) :=
  match cs with
  | [] => ret []
  | c :: r =>
      t <- translate c target ;;
      ts <- translate_all r target ;;
      ret (t :: ts)
  end.

(** The "PDF branch": [mediaSize > 16000000]; a missing [mediaUrl] makes
    the download fail; the source language is set, by the guard before the
    branch. *)
Definition pdf_branch (from : string) (mediaUrl : option string) (mediaSize : nat)
    (user : user) (isFree : bool) : M unit :=
  if 16 * (1000 * 1000) <? mediaSize then
    sendMessage from (Lit "🙁 PDF too big for WhatsApp (limit 16 MB).") None
  else
    resp <- await "fetch" (mediaUrl ≫= fetch_media E) ;;
    let pdfBuffer := snd resp in
    got <- try_catch (t <- extractPdfText pdfBuffer ;; ret (Some t))
             (fun _ => sendMessage from (Lit "⚠️ Couldn’t read that PDF.") None ;;;
                       ret None) ;;
    match got with
    | None => ret tt
    | Some pdfText =>
        if String.length pdfText <? 10 then
          sendMessage from (Lit "🤔 No readable text in that PDF.") None
        else
          pieces <- translate_all (chunkText pdfText) (target_lang user) ;;
          let translated := Js.join (LF +:+ LF) pieces in
          built <- try_catch (b <- buildPdf translated ;; ret (Some b))
                     (fun _ => sendMessage from
                                 (Lit "⚠️ Couldn’t build translated PDF.") None ;;;
                               ret None) ;;
          match built with
          | None => ret tt
          | Some newPdf =>
              up <- try_catch (u <- uploadPdf newPdf ;; ret (Some u))
                      (fun _ => sendMessage from
                                  (Lit "⚠️ Couldn’t upload translated PDF.") None ;;;
                                ret None) ;;
              match up with
              | None => ret tt
              | Some url =>
                  sendMessage from
                    (Lit "✅ Translation complete – here’s your file:") None ;;;
                  sendMessage from (Lit "") (Some url) ;;;
                  (if isFree
                   then db_update (by_phone from) (set_free_used (free_used user + 3))
                   else ret tt) ;;;
                  logRow E (fun i => Translation i from "[PDF]" "[PDF]"
                                       (default "" (source_lang user)) (target_lang user)
                                       (Some 3) (Some "PDF"))
              end
          end
    end.

(** The routing of [handleIncoming] once the sender's row is at hand. *)
Definition dispatch (from text : string) (num : nat) (mediaUrl : option string)
    (mediaType : string) (mediaSize : nat) (user : user) : M unit :=
  let lower := Js.toLowerCase (Js.trim text) in
  let isFree := is_free user in
  (* 1. pay-wall button replies *)
  if is_tier_digit lower && isFree && (10 <=? free_used user) then
    quick_reply from lower user
  (* 2. reset *)
  else if is_reset lower then
    reset from
  (* 3. free-tier gate *)
  else if isFree && (10 <=? free_used user) then
    sendMessage from (paywall_of (target_lang user)) None
  (* 4. onboarding wizard *)
  else
    wizard from text lower user
      (if incomplete user then
         sendMessage from (Lit "⚠️ Setup incomplete. Text *reset* to start over.") None
       (* PDF branch *)
       else if (0 <? num) && negb (String.eqb mediaType "") && Js.includes "pdf" mediaType then
         pdf_branch from mediaUrl mediaSize user isFree
       (* transcribe / detect, translate, reply *)
       else
         translation_phase_with E
           (fun n => (Some 1, Some (if 0 <? n then "AUDIO" else "TEXT")))
           from text num mediaUrl user isFree).

(** [handleIncoming(from,text,num,mediaUrl,mediaType,mediaSize)]: a first
    message creates the row, is answered with the welcome text and is not
    routed. *)
Definition handleIncoming (from text : string) (num : nat) (mediaUrl : option string)
    (mediaType : string) (mediaSize : nat) : M unit :=
  if String.eqb from "" then ret tt else
  w <- get_world ;;
  match select_single (by_phone from) (users w) with
  | None =>
      modify (with_users (upsert_by_phone from
        (fun u => set_free_used 0 (set_plan (Some "FREE")
                    (set_language_step "target" u))))) ;;;
      sendMessage from (Lit WELCOME_MSG) None
  | Some user => dispatch from text num mediaUrl mediaType mediaSize user
  end.

End WithEnv.

End Part003.

(** ** Sample environments

    Concrete vendors, used to run the model on concrete messages. *)

Module Sample.

(** Every vendor answers; the payment provider's signature check accepts
    nothing. *)
Definition vendors : Env := {|
  STRIPE_WEBHOOK_SECRET := "whsec";
  constructEvent := fun _ _ _ => None;
  update_returns_rows := false;
  randomUUID := fun n => "id" +:+ String (ascii_of_nat (48 + n)) EmptyString;
  SUPABASE_URL := "https://db.example";
  PRICE_MONTHLY := "price_m";
  PRICE_ANNUAL := "price_a";
  PRICE_LIFE := "price_l";
  customers_create := fun _ => Some "cus_1";
  sessions_create := fun _ _ _ tier => Some ("https://pay.example/" +:+ tier);
  fetch_media := fun _ => Some ("audio/ogg", "bytes");
  ffmpeg_ok := fun _ => true;
  transcriptions_create := fun _ _ => Some ("hola", Some "es");
  detect := fun _ => Some "es";
  completions_create := fun target text => Some ("[" +:+ target +:+ "] " +:+ text);
  list_voices := Some [Voice "es-ES-Standard-A" ["es-ES"] "FEMALE"];
  synthesize := fun _ _ _ => Some (Some "mp3");
  storage_upload := fun _ _ _ => None;
  createBucket := fun _ => None;
  pdfParse := fun _ => Some "";
  pdfOcr := fun _ => Some "Hola, este es el documento.";
  pdfBuild := fun text => Some ("%PDF " +:+ text)
|}.

(** The same vendors with a transcoder that fails. *)
Definition vendors_no_ffmpeg : Env := {|
  STRIPE_WEBHOOK_SECRET := STRIPE_WEBHOOK_SECRET vendors;
  constructEvent := constructEvent vendors;
  update_returns_rows := update_returns_rows vendors;
  randomUUID := randomUUID vendors;
  SUPABASE_URL := SUPABASE_URL vendors;
  PRICE_MONTHLY := PRICE_MONTHLY vendors;
  PRICE_ANNUAL := PRICE_ANNUAL vendors;
  PRICE_LIFE := PRICE_LIFE vendors;
  customers_create := customers_create vendors;
  sessions_create := sessions_create vendors;
  fetch_media := fetch_media vendors;
  ffmpeg_ok := fun _ => false;
  transcriptions_create := transcriptions_create vendors;
  detect := detect vendors;
  completions_create := completions_create vendors;
  list_voices := list_voices vendors;
  synthesize := synthesize vendors;
  storage_upload := storage_upload vendors;
  createBucket := createBucket vendors;
  pdfParse := pdfParse vendors;
  pdfOcr := pdfOcr vendors;
  pdfBuild := pdfBuild vendors
|}.

(** The same vendors with a synthesis service that never returns audio. *)
Definition vendors_no_tts : Env := {|
  STRIPE_WEBHOOK_SECRET := STRIPE_WEBHOOK_SECRET vendors;
  constructEvent := constructEvent vendors;
  update_returns_rows := update_returns_rows vendors;
  randomUUID := randomUUID vendors;
  SUPABASE_URL := SUPABASE_URL vendors;
  PRICE_MONTHLY := PRICE_MONTHLY vendors;
  PRICE_ANNUAL := PRICE_ANNUAL vendors;
  PRICE_LIFE := PRICE_LIFE vendors;
  customers_create := customers_create vendors;
  sessions_create := sessions_create vendors;
  fetch_media := fetch_media vendors;
  ffmpeg_ok := ffmpeg_ok vendors;
  transcriptions_create := transcriptions_create vendors;
  detect := detect vendors;
  completions_create := completions_create vendors;
  list_voices := list_voices vendors;
  synthesize := fun _ _ _ => Some None;
  storage_upload := storage_upload vendors;
  createBucket := createBucket vendors;
  pdfParse := pdfParse vendors;
  pdfOcr := pdfOcr vendors;
  pdfBuild := pdfBuild vendors
|}.

(** The same vendors with a signature check that accepts the signature
    [good] and reads the body as the event [ev]. *)
Definition vendors_signed (good : string) (ev : stripe_event) : Env := {|
  STRIPE_WEBHOOK_SECRET := STRIPE_WEBHOOK_SECRET vendors;
  constructEvent := fun _ sig _ => if Js.seq good sig then Some ev else None;
  update_returns_rows := update_returns_rows vendors;
  randomUUID := randomUUID vendors;
  SUPABASE_URL := SUPABASE_URL vendors;
  PRICE_MONTHLY := PRICE_MONTHLY vendors;
  PRICE_ANNUAL := PRICE_ANNUAL vendors;
  PRICE_LIFE := PRICE_LIFE vendors;
  customers_create := customers_create vendors;
  sessions_create := sessions_create vendors;
  fetch_media := fetch_media vendors;
  ffmpeg_ok := ffmpeg_ok vendors;
  transcriptions_create := transcriptions_create vendors;
  detect := detect vendors;
  completions_create := completions_create vendors;
  list_voices := list_voices vendors;
  synthesize := synthesize vendors;
  storage_upload := storage_upload vendors;
  createBucket := createBucket vendors;
  pdfParse := pdfParse vendors;
  pdfOcr := pdfOcr vendors;
  pdfBuild := pdfBuild vendors
|}.

(** A row with the given step, languages, gender, plan and usage. *)
Definition row (step : string) (ui src tgt gender : option string) (used : nat) : user :=
  User 1 "+1555" step ui src tgt gender (Some "FREE") used None None.

(** A world holding the given rows and nothing else. *)
Definition world_of (rows : list user) : world := World rows [] ∅ None [] 0.

(** A sender who finished setup: English to Spanish, female voice. *)
Definition ready (used : nat) : user :=
  row "ready" (Some "en") (Some "en") (Some "es") (Some "FEMALE") used.

(** The same vendors with a translation model that fails. *)
Definition vendors_no_chat : Env := {|
  STRIPE_WEBHOOK_SECRET := STRIPE_WEBHOOK_SECRET vendors;
  constructEvent := constructEvent vendors;
  update_returns_rows := update_returns_rows vendors;
  randomUUID := randomUUID vendors;
  SUPABASE_URL := SUPABASE_URL vendors;
  PRICE_MONTHLY := PRICE_MONTHLY vendors;
  PRICE_ANNUAL := PRICE_ANNUAL vendors;
  PRICE_LIFE := PRICE_LIFE vendors;
  customers_create := customers_create vendors;
  sessions_create := sessions_create vendors;
  fetch_media := fetch_media vendors;
  ffmpeg_ok := ffmpeg_ok vendors;
  transcriptions_create := transcriptions_create vendors;
  detect := detect vendors;
  completions_create := fun _ _ => None;
  list_voices := list_voices vendors;
  synthesize := synthesize vendors;
  storage_upload := storage_upload vendors;
  createBucket := createBucket vendors;
  pdfParse := pdfParse vendors;
  pdfOcr := pdfOcr vendors;
  pdfBuild := pdfBuild vendors
|}.

(** The same vendors with a storage service whose bucket is missing at the
    first upload and is there at the second. *)
Definition vendors_no_bucket : Env := {|
  STRIPE_WEBHOOK_SECRET := STRIPE_WEBHOOK_SECRET vendors;
  constructEvent := constructEvent vendors;
  update_returns_rows := update_returns_rows vendors;
  randomUUID := randomUUID vendors;
  SUPABASE_URL := SUPABASE_URL vendors;
  PRICE_MONTHLY := PRICE_MONTHLY vendors;
  PRICE_ANNUAL := PRICE_ANNUAL vendors;
  PRICE_LIFE := PRICE_LIFE vendors;
  customers_create := customers_create vendors;
  sessions_create := sessions_create vendors;
  fetch_media := fetch_media vendors;
  ffmpeg_ok := ffmpeg_ok vendors;
  transcriptions_create := transcriptions_create vendors;
  detect := detect vendors;
  completions_create := completions_create vendors;
  list_voices := list_voices vendors;
  synthesize := synthesize vendors;
  storage_upload := fun _ n _ => if Nat.eqb n 0 then Some "Bucket not found" else None;
  createBucket := createBucket vendors;
  pdfParse := pdfParse vendors;
  pdfOcr := pdfOcr vendors;
  pdfBuild := pdfBuild vendors
|}.

(** The same vendors with a storage service that refuses every upload. *)
Definition vendors_no_storage : Env := {|
  STRIPE_WEBHOOK_SECRET := STRIPE_WEBHOOK_SECRET vendors;
  constructEvent := constructEvent vendors;
  update_returns_rows := update_returns_rows vendors;
  randomUUID := randomUUID vendors;
  SUPABASE_URL := SUPABASE_URL vendors;
  PRICE_MONTHLY := PRICE_MONTHLY vendors;
  PRICE_ANNUAL := PRICE_ANNUAL vendors;
  PRICE_LIFE := PRICE_LIFE vendors;
  customers_create := customers_create vendors;
  sessions_create := sessions_create vendors;
  fetch_media := fetch_media vendors;
  ffmpeg_ok := ffmpeg_ok vendors;
  transcriptions_create := transcriptions_create vendors;
  detect := detect vendors;
  completions_create := completions_create vendors;
  list_voices := list_voices vendors;
  synthesize := synthesize vendors;
  storage_upload := fun _ _ _ => Some "quota exceeded";
  createBucket := createBucket vendors;
  pdfParse := pdfParse vendors;
  pdfOcr := pdfOcr vendors;
  pdfBuild := pdfBuild vendors
|}.

(** The same vendors for a message in French: the detection and the
    transcription both report French. *)
Definition vendors_french : Env := {|
  STRIPE_WEBHOOK_SECRET := STRIPE_WEBHOOK_SECRET vendors;
  constructEvent := constructEvent vendors;
  update_returns_rows := update_returns_rows vendors;
  randomUUID := randomUUID vendors;
  SUPABASE_URL := SUPABASE_URL vendors;
  PRICE_MONTHLY := PRICE_MONTHLY vendors;
  PRICE_ANNUAL := PRICE_ANNUAL vendors;
  PRICE_LIFE := PRICE_LIFE vendors;
  customers_create := customers_create vendors;
  sessions_create := sessions_create vendors;
  fetch_media := fetch_media vendors;
  ffmpeg_ok := ffmpeg_ok vendors;
  transcriptions_create := fun _ _ => Some ("bonjour", Some "french");
  detect := fun _ => Some "fr";
  completions_create := completions_create vendors;
  list_voices := list_voices vendors;
  synthesize := synthesize vendors;
  storage_upload := storage_upload vendors;
  createBucket := createBucket vendors;
  pdfParse := pdfParse vendors;
  pdfOcr := pdfOcr vendors;
  pdfBuild := pdfBuild vendors
|}.

End Sample.

(** * The vocabulary of the statements *)

(** ** Running a computation *)

(** How a computation ends from a world, and the world it leaves. *)
Definition outcome {A} (m : M A) (w : world) : result A := fst (m w).
Definition after {A} (m : M A) (w : world) : world := snd (m w).

(** [m] keeps [I]: whatever the outcome, [I] holds afterwards if it held
    before. *)
Definition keeps (I : world -> Prop) {A} (m : M A) : Prop :=
  forall w, I w -> I (after m w).

(** ** Routing *)

(** The free-quota test of the gate and of the quick replies. *)
Definition over_quota (u : user) : bool := Part000.is_free u && (5 <=? free_used u).

(** Whether the row is at one of the three setup steps of [part_000]. *)
Definition in_wizard (u : user) : bool :=
  String.eqb (language_step u) "ui" || String.eqb (language_step u) "target"
  || String.eqb (language_step u) "gender".

(** Whether the row is at one of the three setup steps of [part_001]. *)
Definition in_wizard_001 (u : user) : bool :=
  String.eqb (language_step u) "choose_ui" || String.eqb (language_step u) "receive"
  || String.eqb (language_step u) "gender".

(** The tier a digit names. *)
Definition tier_of (digit : string) : string :=
  if String.eqb digit "1" then "monthly"
  else if String.eqb digit "2" then "annual" else "life".

(** What the payment provider answers for the checkout of [u] at a tier:
    the hosted page's link, if the customer record and the session can both
    be made. *)
Definition checkout_link (E : Env) (u : user) (tier : string) : option string :=
  match (if Js.truthy (stripe_cust_id u)
         then Some (default "" (stripe_cust_id u))
         else customers_create E ("TuCan " +:+ phone_number u)) with
  | Some customer =>
      sessions_create E (if String.eqb tier "life" then "payment" else "subscription")
        customer
        (if String.eqb tier "monthly" then PRICE_MONTHLY E
         else if String.eqb tier "annual" then PRICE_ANNUAL E else PRICE_LIFE E)
        tier
  | None => None
  end.

(** ** Row patches *)

(** The row patches of the wizard of [part_000]. *)
Definition source_patch (c : string) (u : user) : user :=
  set_language_step "target" (set_source_lang (Some c) (set_ui_lang (Some c) u)).
Definition target_patch (c : string) (u : user) : user :=
  set_language_step "gender" (set_target_lang (Some c) u).
Definition gender_patch (g : string) (u : user) : user :=
  set_language_step "ready" (set_voice_gender (Some g) u).

(** The row patch of a completed checkout, for the rows the customer id
    selects and for the row the fallback selects. *)
Definition activate (plan : string) (sub : option string) (u : user) : user :=
  set_stripe_sub_id sub (set_free_used 0 (set_plan (Some plan) u)).

Definition activate_fallback (plan cust : string) (sub : option string) (u : user) : user :=
  set_stripe_sub_id sub (set_stripe_cust_id (Some cust) (set_free_used 0 (set_plan (Some plan) u))).

(** Whether the fallback of the completed-checkout branch selects [u]: the
    library reports the patched rows, none was patched, and the session's
    metadata carries the row's id. *)
Definition fallback_hits (E : Env) (uid : option nat) (cust : string)
    (db : list user) (u : user) : bool :=
  update_returns_rows E && Nat.eqb (length (List.filter (by_cust cust) db)) 0
  && match uid with Some i => by_id i u | None => false end.

(** The row a first message creates. *)
Definition new_row (db : list user) (from : string) : user :=
  set_free_used 0 (set_plan (Some "FREE") (set_language_step "ui" (blank_row db from))).

(** ** What one message can do to the [users] table ([part_000]) *)

(** The table after the routing ran on the row [u] of sender [from],
    against the table before. *)
Inductive effect (from : string) (u : user) (db : list user) : list user -> Prop :=
| eff_none : effect from u db db
| eff_customer c :
    effect from u db (update_where (by_id (user_id u)) (set_stripe_cust_id (Some c)) db)
| eff_reset :
    effect from u db (update_where (by_phone from) Part000.reset_patch db)
| eff_source c :
    language_step u = "ui" ->
    effect from u db (update_where (by_phone from) (source_patch c) db)
| eff_target c :
    language_step u = "target" -> Js.seq c (source_lang u) = false ->
    effect from u db (update_where (by_phone from) (target_patch c) db)
| eff_gender g :
    language_step u = "gender" ->
    effect from u db (update_where (by_phone from) (gender_patch g) db)
| eff_used :
    Part000.is_free u = true ->
    effect from u db (update_where (by_phone from) (set_free_used (free_used u + 1)) db).

(** ** Reachable stores ([part_000]) *)

(** One event: an inbound message or a billing-webhook request, each with
    the vendors as they answer during that event. *)
Inductive step (w : world) : world -> Prop :=
| step_message E from text num mediaUrl :
    step w (after (Part000.handleIncoming E from text num mediaUrl) w)
| step_billing E body signature :
    step w (after (Part000.stripe_webhook E body signature) w).

(** The worlds the process can be in, starting with an empty [users] table. *)
Inductive reachable : world -> Prop :=
| reach_start w : users w = [] -> reachable w
| reach_step w w' : reachable w -> step w w' -> reachable w'.

(** What holds of every row of a reachable store. *)
Definition row_ok (u : user) : Prop :=
  In (language_step u) ["ui"; "target"; "gender"; "ready"]
  /\ (language_step u = "ui" \/ language_step u = "target" -> target_lang u = None)
  /\ (forall s t, source_lang u = Some s -> target_lang u = Some t -> s <> t).

(** A store whose phone numbers are unique and whose rows all satisfy [R]. *)
Definition store_ok_with (R : user -> Prop) (db : list user) : Prop :=
  List.NoDup (map phone_number db) /\ Forall R db.

Definition store_ok : list user -> Prop := store_ok_with row_ok.

(** ** Reachable stores ([part_003]) *)

(** The free-quota test of [part_003]. *)
Definition over_quota_003 (u : user) : bool := Part003.is_free u && (10 <=? free_used u).

(** The row patches of the first two wizard steps of [part_003]. *)
Definition target_patch_003 (c : string) (u : user) : user :=
  set_language_step "source" (set_target_lang (Some c) u).
Definition source_patch_003 (c : string) (u : user) : user :=
  set_language_step "gender" (set_source_lang (Some c) u).

(** The row a first message creates. *)
Definition new_row_003 (db : list user) (from : string) : user :=
  set_free_used 0 (set_plan (Some "FREE") (set_language_step "target" (blank_row db from))).

Inductive step_003 (w : world) : world -> Prop :=
| step_message_003 E from text num mediaUrl mediaType mediaSize :
    step_003 w (after (Part003.handleIncoming E from text num mediaUrl mediaType mediaSize) w)
| step_billing_003 E body signature :
    step_003 w (after (Part003.stripe_webhook E body signature) w).

Inductive reachable_003 : world -> Prop :=
| reach_start_003 w : users w = [] -> reachable_003 w
| reach_step_003 w w' : reachable_003 w -> step_003 w w' -> reachable_003 w'.

(** What holds of every row of a reachable store: a row at the first step
    has no source language yet. *)
Definition row_ok_003 (u : user) : Prop :=
  (language_step u = "target" -> source_lang u = None)
  /\ (forall s t, source_lang u = Some s -> target_lang u = Some t -> s <> t).

Definition store_ok_003 : list user -> Prop := store_ok_with row_ok_003.

(** ** Usage and credits ([part_003]) *)

(** What one message of [part_003] does to the two tables: nothing to the
    log, or one new log row whose credits are what a free sender's usage
    count grows by. *)
Definition charged (from : string) (u : user) (w w' : world) : Prop :=
  exists row n,
    translations w' = translations w ++ [row]
    /\ log_phone_number row = from
    /\ credits_used row = Some n
    /\ (file_type row = Some "PDF" /\ n = 3
        \/ (file_type row = Some "AUDIO" \/ file_type row = Some "TEXT") /\ n = 1)
    /\ users w' =
         if Part003.is_free u
         then update_where (by_phone from) (set_free_used (free_used u + n)) (users w)
         else users w.

Definition log_kept_or_charged (from : string) (u : user) (w w' : world) : Prop :=
  translations w' = translations w \/ charged from u w w'.

(** ** The log *)

(** The log after a message against the log before: nothing new, or one
    row whose destination is the one the flip rule names for its detected
    language and whose translation is the model's answer for it. *)
Definition logged_by_flip (E : Env) (u : user) (before now : list translation) : Prop :=
  now = before
  \/ exists row x,
       now = before ++ [row]
       /\ language_to row = dest_of (language_from row) u
       /\ completions_create E (interpolate (language_to row)) (original_text row) = Some x
       /\ translated_text row = Js.trim x.

(** ** Synthesis *)

(** The catalogue [pickVoice] works with: the cache, or the provider's
    answer filed by language prefix when the cache is empty. *)
Definition catalogue (E : Env) (cache : option (gmap string (list voice)))
  : option (gmap string (list voice)) :=
  match cache with
  | Some c => Some c
  | None => option_map (fun voices => fold_left file_voice voices ∅) (list_voices E)
  end.

(** What one synthesis call answers: the audio, [null], or a failure. *)
Definition synth_answer (E : Env) (text name : string) : result (option string) :=
  match synthesize E text (Js.join "-" (firstn 2 (Js.split "-" name))) name with
  | Some r => Ok (if Js.truthy r then r else None)
  | None => Throw (Error "synthesize")
  end.

(** The three tiers of [tts], after the voice is picked. *)
Definition tiers (E : Env) (text name : string) (lang : option string) : result string :=
  match synth_answer E text name with
  | Ok (Some b) => Ok b
  | Throw e => Throw e
  | Ok None =>
      match synth_answer E text (interpolate lang) with
      | Ok (Some b) => Ok b
      | Throw e => Throw e
      | Ok None =>
          match synth_answer E text "en-US-Standard-A" with
          | Ok (Some b) => Ok b
          | Throw e => Throw e
          | Ok None => Throw (Error "TTS failed")
          end
      end
  end.

(** ** Further vocabulary: store invariants, journeys, voices, failures *)

(** The language codes of the menu. *)
Definition codes : list string := map (fun e => code (snd e)) MENU.

(** A column that holds a menu code. *)
Definition holds_code (l : option string) : Prop := exists c, l = Some c /\ In c codes.

Definition plans : list (option string) :=
  [Some "FREE"; Some "MONTHLY"; Some "ANNUAL"; Some "LIFETIME"].

(** What [part_000] keeps true of every row: the usage count is within the
    quota, the plan is one of the four, and the step tells which
    preferences are set. *)
Definition row_sound (u : user) : Prop :=
  free_used u <= 5
  /\ In (plan u) plans
  /\ ui_lang u = source_lang u
  /\ ((language_step u = "ui"
       /\ source_lang u = None /\ target_lang u = None /\ voice_gender u = None)
      \/ (language_step u = "target"
          /\ holds_code (source_lang u) /\ target_lang u = None /\ voice_gender u = None)
      \/ (language_step u = "gender"
          /\ holds_code (source_lang u) /\ holds_code (target_lang u)
          /\ voice_gender u = None)
      \/ (language_step u = "ready"
          /\ holds_code (source_lang u) /\ holds_code (target_lang u)
          /\ (voice_gender u = Some "MALE" \/ voice_gender u = Some "FEMALE"))).

(** What [part_003] keeps true of every row.  The gate tests the count
    against ten before a message is handled and a PDF costs three, so the
    count can pass the quota by two. *)
Definition row_sound_003 (u : user) : Prop :=
  free_used u <= 12
  /\ In (plan u) plans
  /\ ((language_step u = "target"
       /\ source_lang u = None /\ target_lang u = None /\ voice_gender u = None)
      \/ (language_step u = "source"
          /\ source_lang u = None /\ holds_code (target_lang u) /\ voice_gender u = None)
      \/ (language_step u = "gender"
          /\ holds_code (source_lang u) /\ holds_code (target_lang u)
          /\ voice_gender u = None)
      \/ (language_step u = "ready"
          /\ holds_code (source_lang u) /\ holds_code (target_lang u)
          /\ (voice_gender u = Some "MALE" \/ voice_gender u = Some "FEMALE"))).

Definition sound_003 (w : world) : Prop := store_ok_with row_sound_003 (users w).

(** Whether the row is at one of the three setup steps of [part_003]. *)
Definition in_wizard_003 (u : user) : bool :=
  String.eqb (language_step u) "target" || String.eqb (language_step u) "source"
  || String.eqb (language_step u) "gender".

(** The position of a step in the wizard of [part_000]. *)
Definition step_rank (s : string) : nat :=
  if String.eqb s "ui" then 0
  else if String.eqb s "target" then 1
  else if String.eqb s "gender" then 2
  else 3.

(** A preference that is set is still set to the same value. *)
Definition kept (before now : option string) : Prop :=
  forall v, before = Some v -> now = Some v.

(** The customer id a checkout of [u] runs under: the stored one, else a
    new one from the payment provider. *)
Definition customer_of (E : Env) (u : user) : option string :=
  if Js.truthy (stripe_cust_id u) then stripe_cust_id u
  else customers_create E ("TuCan " +:+ phone_number u).

(** The pieces of a list of strings put back together. *)
Definition concat_strings (l : list string) : string := fold_right String.append "" l.

(** [full.split("-",1)[0]]: a language code up to its first hyphen. *)
Definition language_prefix (full : string) : string :=
  hd "" (firstn 1 (Js.split "-" full)).

(** The copies of [v] that belong under [code]: one for each of its
    language codes with that prefix. *)
Definition copies_under (code : string) (v : voice) : list voice :=
  flat_map (fun full => if String.eqb (language_prefix full) code then [v] else [])
           (languageCodes v).

Definition DEFAULT_VOICE : string := "en-US-Standard-A".

(** A voice [pickVoice] may take when the language has a voice of the
    requested gender: of that gender and, for English, an en-US voice. *)
Definition eligible (lang gender : option string) (v : voice) : bool :=
  Js.seq (ssmlGender v) gender
  && (negb (Js.seq "en" lang) || Js.startsWith "en-US" (voice_name v)).

(** The log after a message against the log before: nothing new, or one
    row, for the sender, into a language of the menu that is one of the two
    the sender's row holds. *)
Definition logged_into_menu (from : string) (db : list user) (before now : list translation)
  : Prop :=
  now = before
  \/ exists row c u,
       now = before ++ [row]
       /\ log_phone_number row = from
       /\ language_to row = Some c /\ In c codes
       /\ select_single (by_phone from) db = Some u
       /\ (source_lang u = Some c \/ target_lang u = Some c).

(** The two tables and the outbound queue are as they were. *)
Definition no_trace (w w' : world) : Prop :=
  users w' = users w /\ translations w' = translations w /\ outbox w' = outbox w.

(** Two rows that differ at most in the billing columns. *)
Definition same_but_billing (u u' : user) : Prop :=
  user_id u' = user_id u /\ phone_number u' = phone_number u
  /\ language_step u' = language_step u /\ ui_lang u' = ui_lang u
  /\ source_lang u' = source_lang u /\ target_lang u' = target_lang u
  /\ voice_gender u' = voice_gender u.

(** Two stores with the same rows, in the same order, up to the billing
    columns. *)
Definition billing_only (db db' : list user) : Prop :=
  length db' = length db
  /\ forall i u, nth_error db i = Some u ->
       exists u', nth_error db' i = Some u' /\ same_but_billing u u'.

(** What the two transcription models and the language detection answer
    for a WAV file: the transcript and the two-letter language. *)
Definition heard (E : Env) (wav : string) : result (string * string) :=
  match
    match transcriptions_create E "whisper-large-v3" wav with
    | Some r => Some r
    | None => transcriptions_create E "whisper-1" wav
    end
  with
  | None => Throw (Error "whisper-1")
  | Some r =>
      let lang := Js.slice0 2 (default "" (snd r)) in
      if String.eqb lang "" then
        match detect E (fst r) with
        | Some d => Ok (fst r, Js.slice0 2 d)
        | None => Throw (Error "detect")
        end
      else Ok (fst r, lang)
  end.

(** ** Vocabulary of the billing and pipeline statements *)

(** The plan each tier buys, as the billing section of the specification
    names them: MONTHLY for the monthly tier, ANNUAL for the annual tier and
    LIFETIME for the one-off tier; a session whose metadata names neither
    recurring tier is filed under LIFETIME. *)
Definition bought (tier : option string) (p : option string) : Prop :=
  (tier = Some "monthly" -> p = Some "MONTHLY")
  /\ (tier = Some "annual" -> p = Some "ANNUAL")
  /\ (tier <> Some "monthly" -> tier <> Some "annual" -> p = Some "LIFETIME").

(** The sender's row is at the same step, with the same preferences. *)
Definition same_progress (u u' : user) : Prop :=
  language_step u' = language_step u /\ ui_lang u' = ui_lang u
  /\ source_lang u' = source_lang u /\ target_lang u' = target_lang u
  /\ voice_gender u' = voice_gender u.

(** The text of the one message of the pay-wall quick replies: the link
    the payment provider made, or the apology. *)
Definition quick_reply_text (E : Env) (u : user) (digit : string) : string :=
  match checkout_link E u (tier_of digit) with
  | Some link => "Tap to pay → " +:+ link
  | None => "⚠️ Payment link error. Try again later."
  end.

(** Whether the storage service takes the audio under the name [fn]: at
    the first attempt, or at the second one, made after the first was
    refused for a missing bucket and the bucket was created (or was there
    after all, which the service reports with the code PGRST116). *)
Definition upload_accepted (E : Env) (fn : string) : bool :=
  match storage_upload E "tts-voices" 0 fn with
  | None => true
  | Some m =>
      Js.includes "bucket not found" (Js.fold_case m)
      && match createBucket E "tts-voices" with
         | None => true
         | Some c => String.eqb c "PGRST116"
         end
      && match storage_upload E "tts-voices" 1 fn with
         | None => true
         | Some _ => false
         end
  end.

(** The name and the public link of the audio file of a run that has drawn
    [n] identifiers before the upload. *)
Definition audio_name (E : Env) (n : nat) : string := "tts_" +:+ randomUUID E n +:+ ".mp3".

Definition audio_link (E : Env) (n : nat) : string :=
  SUPABASE_URL E +:+ "/storage/v1/object/public/tts-voices/" +:+ audio_name E n.

(** The destination the flip rule of the specification names for a
    detected language: the sender's source language when the detected
    language is the sender's target language, the target language
    otherwise. *)
Definition flip_rule (detected : string) (u : user) (dest : option string) : Prop :=
  (target_lang u = Some detected -> dest = source_lang u)
  /\ (target_lang u <> Some detected -> dest = target_lang u).

(** What a translated message leaves behind: one new log row, under the
    identifier [i], naming the detected language and the destination, and
    the translation among the messages sent: alone for a message without
    media, after the transcript otherwise (the audio may follow). *)
Definition translated_into (from original translated detected : string)
    (dest : option string) (i : string) (num : nat) (w w' : world) : Prop :=
  translations w' =
    translations w ++ [Translation i from original translated detected dest None None]
  /\ exists audio,
       outbox w' =
         outbox w ++
           (if Nat.eqb num 0
            then [OutMsg from (Body (Lit translated))]
            else OutMsg from (Body (Lit (HEARD +:+ original)))
                 :: OutMsg from (Body (Lit translated)) :: audio).

(** The message carries no media the handler would fetch:
    [!(num>0&&mediaUrl)]. *)
Definition no_media (num : nat) (mediaUrl : option string) : bool :=
  negb ((0 <? num) && Js.truthy mediaUrl).

(** The run ends with the error [e], and the two tables and the outbound
    queue are as they were. *)
Definition fails_clean {A} (m : M A) (w : world) (e : exn) : Prop :=
  outcome m w = Throw e /\ no_trace w (after m w).

(** * Verification *)

(** ** Running a computation *)

Lemma run_eta {A} (m : M A) w : m w = (outcome m w, after m w).
Proof. unfold outcome, after. now destruct (m w). Qed.

Lemma bind_ok {A B} (m : M A) (k : A -> M B) w a w' :
  m w = (Ok a, w') -> bind m k w = k a w'.
Proof. intros H. unfold bind. now rewrite H. Qed.

Lemma bind_throw {A B} (m : M A) (k : A -> M B) w e w' :
  m w = (Throw e, w') -> bind m k w = (Throw e, w').
Proof. intros H. unfold bind. now rewrite H. Qed.

(** ** Properties a computation keeps *)

Section Keeps.

Variable I : world -> Prop.

Lemma keeps_ret {A} (a : A) : keeps I (ret a).
Proof. now intros w H. Qed.

Lemma keeps_throw {A} e : keeps I (@throw A e).
Proof. now intros w H. Qed.

Lemma keeps_await {A} what (o : option A) : keeps I (await what o).
Proof. destruct o; [apply keeps_ret | apply keeps_throw]. Qed.

Lemma keeps_get_world : keeps I get_world.
Proof. now intros w H. Qed.

Lemma keeps_bind {A B} (m : M A) (k : A -> M B) :
  keeps I m -> (forall a, keeps I (k a)) -> keeps I (bind m k).
Proof.
  intros Hm Hk w H. unfold after, bind. specialize (Hm w H). unfold after in Hm.
  destruct (m w) as [[a|e] w']; simpl in *; [now apply Hk | assumption].
Qed.

Lemma keeps_try_catch {A} (m : M A) (h : exn -> M A) :
  keeps I m -> (forall e, keeps I (h e)) -> keeps I (try_catch m h).
Proof.
  intros Hm Hh w H. unfold after, try_catch. specialize (Hm w H). unfold after in Hm.
  destruct (m w) as [[a|e] w']; simpl in *; [assumption | now apply Hh].
Qed.

Lemma keeps_try_finally {A} (m : M A) (f : M unit) :
  keeps I m -> keeps I f -> keeps I (try_finally m f).
Proof.
  intros Hm Hf w H. unfold after, try_finally. specialize (Hm w H). unfold after in Hm.
  destruct (m w) as [r w']; simpl in *. specialize (Hf w' Hm). unfold after in Hf.
  now destruct (f w') as [[[]|e] w''].
Qed.

Lemma keeps_modify (g : world -> world) :
  (forall w, I w -> I (g w)) -> keeps I (modify g).
Proof. intros Hg w H. now apply Hg. Qed.

Lemma keeps_uuid E :
  (forall w n, I w -> I (with_uuids n w)) -> keeps I (uuid E).
Proof. intros Hg w H. now apply Hg. Qed.

Lemma keeps_unlinkSync path :
  (forall w g, I w -> I (with_files g w)) -> keeps I (unlinkSync path).
Proof.
  intros Hg w H. unfold after, unlinkSync. destruct (decide _); simpl; [now apply Hg | assumption].
Qed.

End Keeps.

(** A projection of the world that a computation keeps at every value is
    the same after the computation as before. *)
Lemma keeps_eq {A X} (f : world -> X) (m : M A) :
  (forall c, keeps (fun w => f w = c) m) -> forall w, f (after m w) = f w.
Proof. intros K w. now apply (K (f w) w). Qed.

(** Decomposes a [keeps] goal along the structure of the computation; the
    leaves are the [modify]-like primitives, left as conditions on [I]. *)
Ltac keeps_step :=
  lazymatch goal with
  | |- keeps _ (bind _ _) => apply keeps_bind; [| intros ?]
  | |- keeps _ (ret _) => apply keeps_ret
  | |- keeps _ (throw _) => apply keeps_throw
  | |- keeps _ (await _ _) => apply keeps_await
  | |- keeps _ get_world => apply keeps_get_world
  | |- keeps _ (try_catch _ _) => apply keeps_try_catch; [| intros ?]
  | |- keeps _ (try_finally _ _) => apply keeps_try_finally
  | |- keeps _ (modify _) => apply keeps_modify; intros ? ?
  | |- keeps _ (db_update _ _) => apply keeps_modify; intros ? ?
  | |- keeps _ (uuid _) => apply keeps_uuid; intros ? ? ?
  | |- keeps _ (unlinkSync _) => apply keeps_unlinkSync; intros ? ? ?
  | |- keeps _ (if ?c then _ else _) => destruct c
  | |- keeps _ (match ?x with _ => _ end) => destruct x
  | |- keeps _ (let _ := _ in _) => cbv zeta
  | |- keeps _ (?f _ _ _ _ _ _ _) => unfold f
  | |- keeps _ (?f _ _ _ _ _ _) => unfold f
  | |- keeps _ (?f _ _ _ _ _) => unfold f
  | |- keeps _ (?f _ _ _ _) => unfold f
  | |- keeps _ (?f _ _ _) => unfold f
  | |- keeps _ (?f _ _) => unfold f
  | |- keeps _ (?f _) => unfold f
  | |- keeps _ ?f => unfold f
  end.

Ltac keeps_auto := repeat keeps_step.

(** Everything after the row update of the translation phase leaves the
    [users] table alone. *)
Lemma tts_keeps_users E (P : list user -> Prop) text lang gender :
  keeps (fun w => P (users w)) (tts E text lang gender).
Proof. keeps_auto; simpl; assumption. Qed.

(** ** The store: selecting and patching rows *)

Lemma filter_singleton (p : user -> bool) db u :
  List.filter p db = [u] ->
  In u db /\ p u = true /\ forall x, In x db -> p x = true -> x = u.
Proof.
  intros H. assert (Hin : forall x, In x (List.filter p db) <-> x = u).
  { intros x. rewrite H. simpl. intuition. }
  repeat split.
  - apply (proj1 (filter_In p u db)). now apply Hin.
  - apply (proj1 (filter_In p u db)). now apply Hin.
  - intros x Hx Hp. apply Hin. apply filter_In. now split.
Qed.

Lemma select_single_Some p db u :
  select_single p db = Some u -> List.filter p db = [u].
Proof.
  unfold select_single. destruct (List.filter p db) as [|x [|y l]]; congruence.
Qed.

Lemma select_single_unique p db u :
  select_single p db = Some u ->
  In u db /\ p u = true /\ forall x, In x db -> p x = true -> x = u.
Proof. intros H. now apply filter_singleton, select_single_Some. Qed.

Lemma filter_map_commute (p : user -> bool) (g : user -> user) db :
  (forall x, p (g x) = p x) ->
  List.filter p (map g db) = map g (List.filter p db).
Proof.
  intros Hg. induction db as [|x l IH]; simpl; [reflexivity|].
  rewrite Hg. destruct (p x); simpl; now rewrite IH.
Qed.

(** Patching rows selected by [q] does not disturb a selection by [p] when
    the patch does not touch what [p] looks at. *)
Lemma select_single_update p q f db u :
  (forall x, p (f x) = p x) ->
  select_single p db = Some u ->
  select_single p (update_where q f db) = Some (if q u then f u else u).
Proof.
  intros Hf H. apply select_single_Some in H. unfold select_single, update_where.
  rewrite filter_map_commute.
  - now rewrite H.
  - intros x. destruct (q x); [apply Hf | reflexivity].
Qed.

Lemma update_where_idem p f db :
  (forall x, p (f x) = p x) -> (forall x, f (f x) = f x) ->
  update_where p f (update_where p f db) = update_where p f db.
Proof.
  intros Hp Hf. unfold update_where. rewrite map_map. apply map_ext. intros x.
  destruct (p x) eqn:Hx; [now rewrite Hp, Hx, Hf | now rewrite Hx].
Qed.

Lemma by_phone_refl from u : by_phone from u = true <-> phone_number u = from.
Proof. unfold by_phone. apply String.eqb_eq. Qed.

(** ** Facts about the command patterns *)

Lemma is_tier_digit_spec text :
  is_tier_digit text = true <-> text = "1" \/ text = "2" \/ text = "3".
Proof.
  unfold is_tier_digit. rewrite !orb_true_iff, !String.eqb_eq. tauto.
Qed.

Lemma reset_is_no_tier_digit text : is_reset text = true -> is_tier_digit text = false.
Proof.
  intros H. destruct (is_tier_digit text) eqn:Hd; [|reflexivity].
  apply is_tier_digit_spec in Hd. destruct Hd as [Hd | [Hd | Hd]]; subst text; discriminate H.
Qed.

Lemma eqb_empty_false (s : string) : s <> "" -> String.eqb s "" = false.
Proof. intros H. now apply String.eqb_neq. Qed.

(** ** The menu *)

Lemma string_app_assoc (a b c : string) : (a +:+ b) +:+ c = a +:+ (b +:+ c).
Proof.
  induction a as [|x a IH]; [reflexivity|].
  change (String x ((a +:+ b) +:+ c) = String x (a +:+ (b +:+ c))). now rewrite IH.
Qed.

Lemma rev_string_app s : forall acc, Js.rev_string s acc = Js.rev_string s "" +:+ acc.
Proof.
  induction s as [|c r IH]; intros acc; simpl; [reflexivity|].
  rewrite IH, (IH (String c "")). now rewrite string_app_assoc.
Qed.

Lemma rev_string_snoc t c : Js.rev_string (t +:+ String c "") "" = String c (Js.rev_string t "").
Proof.
  assert (H : forall acc, Js.rev_string (t +:+ String c "") acc = String c (Js.rev_string t acc)).
  { induction t as [|a t IH]; intros acc; simpl; [reflexivity | apply IH]. }
  apply H.
Qed.

Lemma trimStart_snoc s c :
  Js.is_space c = false -> exists t, Js.trimStart (s +:+ String c "") = t +:+ String c "".
Proof.
  intros Hc. induction s as [|a s IH]; simpl.
  - rewrite Hc. now exists "".
  - destruct (Js.is_space a); [exact IH|]. now exists (String a s).
Qed.

(** Trimming keeps a first character that is no white space. *)
Lemma trim_head c r : Js.is_space c = false -> exists r', Js.trim (String c r) = String c r'.
Proof.
  intros Hc. unfold Js.trim.
  assert (H : Js.trimStart (String c r) = String c r) by (simpl; now rewrite Hc).
  rewrite H. unfold Js.trimEnd.
  change (Js.rev_string (String c r) "") with (Js.rev_string r (String c "")).
  rewrite (rev_string_app r (String c "")). destruct (trimStart_snoc (Js.rev_string r "") c Hc) as [t ->].
  rewrite rev_string_snoc. now eexists.
Qed.

Lemma menu_get_digit c e :
  menu_get MENU (String c "") = Some e ->
  Js.is_digit c = true /\ Js.is_space c = false.
Proof.
  destruct c as [[] [] [] [] [] [] [] []]; vm_compute; intros H;
    solve [discriminate H | split; reflexivity].
Qed.

(** X3.  The menu's static mapping.  A text that begins with a digit of the
    menu selects that digit's entry, whatever follows the digit, in the
    [pickLang] of either variant; the digits 1 to 5 name English, Spanish,
    French, Portuguese and German, and no other digit names a language. *)
Theorem menu_digit_selects_entry :
  (forall c rest e,
      menu_get MENU (String c "") = Some e ->
      pickLang (String c rest) = Some e /\ Part001.pickLang (String c rest) = Some e)
  /\ map (fun d => option_map code (pickLang d)) ["1"; "2"; "3"; "4"; "5"]
     = [Some "en"; Some "es"; Some "fr"; Some "pt"; Some "de"]
  /\ map (fun d => option_map code (pickLang d)) ["0"; "6"; "7"; "8"; "9"]
     = [None; None; None; None; None].
Proof.
  split; [|split; reflexivity].
  intros c rest e He. destruct (menu_get_digit c e He) as [Hd Hs].
  destruct (trim_head c rest Hs) as [r' Hr]. split.
  - unfold pickLang, match_leading_digit. now rewrite Hr, Hd, He.
  - unfold Part001.pickLang. now rewrite Hr, Hd, He.
Qed.

Lemma menu_digit_selects_entry_witness :
  menu_get MENU "3" = Some (MenuEntry "French" "fr")
  /\ pickLang "3 please" = Some (MenuEntry "French" "fr")
  /\ Part001.pickLang "3 please" = Some (MenuEntry "French" "fr").
Proof.
  split; [reflexivity|].
  apply (proj1 menu_digit_selects_entry "3"%char " please" (MenuEntry "French" "fr")).
  reflexivity.
Defined.

(** ** Stepping through [part_000]'s handler *)

Section Part000Facts.

Import Part000.

(** A known sender is fetched without touching anything. *)
Lemma fetch_existing from w u :
  select_single (by_phone from) (users w) = Some u ->
  fetch_or_create from w = (Ok u, w).
Proof. intros H. unfold fetch_or_create, bind, get_world. now rewrite H. Qed.

(** The handler for a known sender is the routing on the sender's row. *)
Lemma handle_known E from text num mediaUrl w u :
  from <> "" ->
  select_single (by_phone from) (users w) = Some u ->
  handleIncoming E from text num mediaUrl w = dispatch E from text num mediaUrl u w.
Proof.
  intros Hf H. unfold handleIncoming. rewrite (eqb_empty_false _ Hf).
  now rewrite (bind_ok _ _ _ _ _ (fetch_existing _ _ _ H)).
Qed.

Lemma reset_patch_phone from x : by_phone from (reset_patch x) = by_phone from x.
Proof. reflexivity. Qed.

Lemma reset_patch_idem x : reset_patch (reset_patch x) = reset_patch x.
Proof. reflexivity. Qed.

(** What the reset block does to the world. *)
Lemma reset_run from w :
  reset from w =
    (Ok tt, with_outbox (fun q => q ++ [OutMsg from (Body WELCOME)])
              (with_users (update_where (by_phone from) reset_patch) w)).
Proof. reflexivity. Qed.

(** X1.  The reset command, whatever the sender's row holds: the row is put
    back to the first step with the four preferences cleared and the
    welcome menu is sent; a second reset changes no row and sends the same
    menu. *)
Lemma reset_total_idempotent E E' from text text' num num' media media' w u :
  from <> "" ->
  is_reset text = true -> is_reset text' = true ->
  select_single (by_phone from) (users w) = Some u ->
  let w1 := after (handleIncoming E from text num media) w in
  let w2 := after (handleIncoming E' from text' num' media') w1 in
  outcome (handleIncoming E from text num media) w = Ok tt
  /\ select_single (by_phone from) (users w1) = Some (reset_patch u)
  /\ (language_step (reset_patch u) = "ui" /\ source_lang (reset_patch u) = None
      /\ target_lang (reset_patch u) = None /\ voice_gender (reset_patch u) = None
      /\ ui_lang (reset_patch u) = None)
  /\ outbox w1 = outbox w ++ [OutMsg from (Body WELCOME)]
  /\ outcome (handleIncoming E' from text' num' media') w1 = Ok tt
  /\ users w2 = users w1
  /\ outbox w2 = outbox w1 ++ [OutMsg from (Body WELCOME)].
Proof.
  intros Hf Hr Hr' Hu w1 w2.
  assert (H1 : handleIncoming E from text num media w = reset from w).
  { rewrite (handle_known _ _ _ _ _ _ _ Hf Hu). unfold dispatch.
    now rewrite (reset_is_no_tier_digit _ Hr), Hr. }
  assert (Hu1 : select_single (by_phone from) (users w1) = Some (reset_patch u)).
  { subst w1. unfold after. rewrite H1, reset_run. simpl.
    rewrite (select_single_update _ _ _ _ u (reset_patch_phone from) Hu).
    now rewrite (proj1 (proj2 (select_single_unique _ _ _ Hu))). }
  assert (H2 : handleIncoming E' from text' num' media' w1 = reset from w1).
  { rewrite (handle_known _ _ _ _ _ _ _ Hf Hu1). unfold dispatch.
    now rewrite (reset_is_no_tier_digit _ Hr'), Hr'. }
  split; [unfold outcome; now rewrite H1|].
  split; [exact Hu1|].
  split; [repeat split|].
  split; [subst w1; unfold after; now rewrite H1|].
  split; [unfold outcome; now rewrite H2|].
  split.
  - subst w2. unfold after. rewrite H2, reset_run. simpl.
    subst w1. unfold after. rewrite H1, reset_run. simpl.
    apply update_where_idem; [apply reset_patch_phone | apply reset_patch_idem].
  - subst w2. unfold after. now rewrite H2.
Qed.

End Part000Facts.

Lemma reset_total_idempotent_witness :
  let w := Sample.world_of [Sample.ready 2] in
  let w1 := after (Part000.handleIncoming Sample.vendors "+1555" "RESET" 0 None) w in
  let w2 := after (Part000.handleIncoming Sample.vendors "+1555" "change language" 0 None) w1 in
  users w1 = [Sample.row "ui" None None None None 2]
  /\ users w2 = users w1
  /\ outbox w2 = outbox w1 ++ [OutMsg "+1555" (Body Part000.WELCOME)].
Proof.
  assert (Hf : "+1555" <> "") by discriminate.
  destruct (reset_total_idempotent Sample.vendors Sample.vendors "+1555" "RESET"
              "change language" 0 0 None None (Sample.world_of [Sample.ready 2])
              (Sample.ready 2) Hf eq_refl eq_refl eq_refl)
    as (_ & _ & _ & _ & _ & H2 & H3).
  split; [vm_compute; reflexivity|]. split; [exact H2 | exact H3].
Defined.


(** ** The billing webhook *)

Section Webhook.

Import Part000.

Variable E : Env.

Lemma webhook_unverified body sig w :
  constructEvent E body sig (STRIPE_WEBHOOK_SECRET E) = None ->
  stripe_webhook E body sig w = (Ok (sendStatus 400), w).
Proof. intros H. unfold stripe_webhook. now rewrite H. Qed.

Lemma update_where_none p f db :
  List.filter p db = [] -> update_where p f db = db.
Proof.
  intros H. unfold update_where. rewrite <- (map_id db) at 2. apply map_ext_in.
  intros x Hx. destruct (p x) eqn:Hp; [|reflexivity].
  assert (Hin : In x (List.filter p db)) by (apply filter_In; now split).
  rewrite H in Hin. destruct Hin.
Qed.

Lemma webhook_checkout_users body sig w tier uid cust sub :
  constructEvent E body sig (STRIPE_WEBHOOK_SECRET E) =
    Some (checkout_session_completed tier uid cust sub) ->
  users (after (stripe_webhook E body sig) w) =
    map (fun u =>
           if by_cust cust u then activate (plan_of_tier tier) sub u
           else if fallback_hits E uid cust (users w) u
                then activate_fallback (plan_of_tier tier) cust sub u
                else u)
        (users w).
Proof.
  intros H. unfold after, stripe_webhook. rewrite H. unfold fallback_hits.
  unfold bind, get_world, db_update, modify. simpl.
  destruct (update_returns_rows E); simpl.
  - destruct (List.filter (by_cust cust) (users w)) as [|x l] eqn:Hm; simpl.
    + rewrite (update_where_none _ _ _ Hm). unfold update_where. apply map_ext_in.
      intros u Hu. destruct (by_cust cust u) eqn:Hc.
      * assert (Hin : In u (List.filter (by_cust cust) (users w))) by (apply filter_In; now split).
        rewrite Hm in Hin. destruct Hin.
      * destruct uid; reflexivity.
    + apply map_ext. intros u. now destruct (by_cust cust u).
  - apply map_ext. intros u. now destruct (by_cust cust u).
Qed.

Lemma webhook_deleted_users body sig w sid :
  constructEvent E body sig (STRIPE_WEBHOOK_SECRET E) = Some (customer_subscription_deleted sid) ->
  users (after (stripe_webhook E body sig) w) =
    map (fun u => if by_sub sid u then set_plan (Some "FREE") u else u) (users w).
Proof. intros H. unfold after, stripe_webhook. now rewrite H. Qed.

Lemma webhook_other_users body sig w :
  (forall tier uid cust sub,
      constructEvent E body sig (STRIPE_WEBHOOK_SECRET E) <>
        Some (checkout_session_completed tier uid cust sub)) ->
  (forall sid,
      constructEvent E body sig (STRIPE_WEBHOOK_SECRET E) <>
        Some (customer_subscription_deleted sid)) ->
  users (after (stripe_webhook E body sig) w) = users w.
Proof.
  intros H1 H2. unfold after, stripe_webhook.
  destruct (constructEvent E body sig (STRIPE_WEBHOOK_SECRET E)) as [[tier uid cust sub|sid|ty]|];
    [now destruct (H1 tier uid cust sub) | now destruct (H2 sid) | reflexivity | reflexivity].
Qed.

End Webhook.

(** C6.  A billing-webhook request whose signature does not verify is
    answered with status 400 and leaves the whole world, every user row
    included, as it was; accordingly a run of the webhook that changes
    anything, or that answers with the acknowledgement, has verified the
    signature first. *)
Theorem invalid_signature_rejected E body sig w :
  (constructEvent E body sig (STRIPE_WEBHOOK_SECRET E) = None ->
   outcome (Part000.stripe_webhook E body sig) w = Ok (sendStatus 400)
   /\ after (Part000.stripe_webhook E body sig) w = w)
  /\ (after (Part000.stripe_webhook E body sig) w <> w
      \/ outcome (Part000.stripe_webhook E body sig) w = Ok json_received ->
      exists event, constructEvent E body sig (STRIPE_WEBHOOK_SECRET E) = Some event).
Proof.
  split.
  - intros H. unfold outcome, after. now rewrite (webhook_unverified E body sig w H).
  - intros H. destruct (constructEvent E body sig (STRIPE_WEBHOOK_SECRET E)) as [ev|] eqn:Hc.
    + now exists ev.
    + unfold outcome, after in H. rewrite (webhook_unverified E body sig w Hc) in H.
      simpl in H. destruct H as [H|H]; [now destruct H | discriminate H].
Qed.

Lemma invalid_signature_rejected_witness :
  let w := Sample.world_of [Sample.ready 4] in
  constructEvent Sample.vendors "{}" (Some "forged") (STRIPE_WEBHOOK_SECRET Sample.vendors) = None
  /\ outcome (Part000.stripe_webhook Sample.vendors "{}" (Some "forged")) w = Ok (sendStatus 400)
  /\ after (Part000.stripe_webhook Sample.vendors "{}" (Some "forged")) w = w.
Proof.
  split; [reflexivity|].
  apply (proj1 (invalid_signature_rejected Sample.vendors "{}" (Some "forged")
                  (Sample.world_of [Sample.ready 4]))).
  reflexivity.
Defined.

(** ** The translation phase, step by step *)

Lemma after_bind {A B} (m : M A) (k : A -> M B) w :
  after (bind m k) w =
    match outcome m w with
    | Ok a => after (k a) (after m w)
    | Throw _ => after m w
    end.
Proof. unfold after, outcome, bind. now destruct (m w) as [[a|e] w']. Qed.

Lemma outcome_bind {A B} (m : M A) (k : A -> M B) w :
  outcome (bind m k) w =
    match outcome m w with
    | Ok a => outcome (k a) (after m w)
    | Throw e => Throw e
    end.
Proof. unfold after, outcome, bind. now destruct (m w) as [[a|e] w']. Qed.

Section PipelineFacts.

Variable E : Env.

(** Fetching, transcoding and transcribing touch neither table nor the
    outbound queue. *)
Lemma transcribe_media_keeps
    (P : list user -> list translation -> list outmsg ->
         option (gmap string (list voice)) -> Prop) url :
  keeps (fun w => P (users w) (translations w) (outbox w) (voiceCache w))
        (transcribe_media E url).
Proof. keeps_auto; simpl; assumption. Qed.

Lemma acquire_keeps
    (P : list user -> list translation -> list outmsg ->
         option (gmap string (list voice)) -> Prop) text num mediaUrl :
  keeps (fun w => P (users w) (translations w) (outbox w) (voiceCache w))
        (acquire E text num mediaUrl).
Proof.
  unfold acquire. destruct ((0 <? num) && Js.truthy mediaUrl).
  - apply transcribe_media_keeps.
  - keeps_auto.
Qed.

Lemma translate_run text target w :
  translate E text target w =
    match completions_create E (interpolate target) text with
    | Some x => (Ok (Js.trim x), w)
    | None => (Throw (Error "chat"), w)
    end.
Proof. unfold translate, bind, await. now destruct (completions_create E _ _). Qed.

Lemma after_translate text target w : after (translate E text target) w = w.
Proof. unfold after. rewrite translate_run. now destruct (completions_create E _ _). Qed.

Lemma outcome_translate text target w :
  outcome (translate E text target) w =
    match completions_create E (interpolate target) text with
    | Some x => Ok (Js.trim x)
    | None => Throw (Error "chat")
    end.
Proof. unfold outcome. rewrite translate_run. now destruct (completions_create E _ _). Qed.

(** The reply sends messages and does nothing else as far as the tables go. *)
Lemma reply_keeps (P : list user -> list translation -> Prop) from original translated num dest gender :
  keeps (fun w => P (users w) (translations w)) (reply E from original translated num dest gender).
Proof. keeps_auto; simpl; assumption. Qed.

(** What the translation phase does to the two tables: nothing, or one log
    row for a translation the model produced for the destination the flip
    rule names, together with the usage count of a free sender. *)
Lemma translation_phase_with_effect cols from text num mediaUrl u isFree w :
  let w' := after (translation_phase_with E cols from text num mediaUrl u isFree) w in
  (users w' = users w /\ translations w' = translations w)
  \/ (exists original detected x i,
        original <> ""
        /\ completions_create E (interpolate (dest_of detected u)) original = Some x
        /\ translations w' =
             translations w ++
               [Translation i from original (Js.trim x) detected (dest_of detected u)
                  (fst (cols num)) (snd (cols num))]
        /\ users w' =
             if isFree
             then update_where (by_phone from) (set_free_used (free_used u + 1)) (users w)
             else users w).
Proof.
  intros w'.
  assert (Hw' : w' = after (translation_phase_with E cols from text num mediaUrl u isFree) w)
    by reflexivity.
  clearbody w'. unfold translation_phase_with in Hw'. rewrite after_bind in Hw'.
  set (pre := acquire E text num mediaUrl) in Hw'.
  assert (Hpre : users (after pre w) = users w /\ translations (after pre w) = translations w).
  { now apply (acquire_keeps (fun a b _ _ => a = users w /\ b = translations w)). }
  destruct Hpre as [Hu Ht].
  destruct (outcome pre w) as [[original detected]|e]; [|subst w'; now left].
  cbn [fst snd] in Hw'. destruct (String.eqb original "") eqn:Ho;
    [subst w'; left; split; [exact Hu | exact Ht]|].
  rewrite after_bind, !after_translate, outcome_translate in Hw'.
  destruct (completions_create E (interpolate (dest_of detected u)) original) as [x|] eqn:Hx;
    [|subst w'; now left].
  right. exists original, detected, x, (randomUUID E (uuids (after pre w))).
  split; [now apply String.eqb_neq|]. split; [exact Hx|].
  set (rp := reply E from original (Js.trim x) num (dest_of detected u) (voice_gender u)) in Hw'.
  assert (K : forall P, keeps (fun w => P (users w) (translations w)) rp)
    by (intros P; apply reply_keeps).
  rewrite !after_bind in Hw'. subst w'.
  destruct isFree; cbn [outcome after db_update ret modify fst snd logRow bind uuid]; split.
  - apply (K (fun _ b => b = _)). cbn. now rewrite Ht.
  - apply (K (fun a _ => a = _)). cbn. now rewrite Hu.
  - apply (K (fun _ b => b = _)). cbn. now rewrite Ht.
  - apply (K (fun a _ => a = _)). cbn. now rewrite Hu.
Qed.

Lemma translation_phase_effect from text num mediaUrl u isFree w :
  let w' := after (translation_phase E from text num mediaUrl u isFree) w in
  (users w' = users w /\ translations w' = translations w)
  \/ (exists original detected x i,
        original <> ""
        /\ completions_create E (interpolate (dest_of detected u)) original = Some x
        /\ translations w' =
             translations w ++
               [Translation i from original (Js.trim x) detected (dest_of detected u) None None]
        /\ users w' =
             if isFree
             then update_where (by_phone from) (set_free_used (free_used u + 1)) (users w)
             else users w).
Proof. apply (translation_phase_with_effect (fun _ => (None, None))). Qed.

End PipelineFacts.

(** ** The routing of [part_000] *)

Section Part000Routing.

Import Part000.

Variable E : Env.

Lemma wizard_past from text u rest :
  in_wizard u = false -> wizard from text u rest = rest.
Proof.
  unfold in_wizard, wizard. intros H. apply orb_false_elim in H as [H H3].
  apply orb_false_elim in H as [H1 H2]. now rewrite H1, H2, H3.
Qed.

Lemma wizard_inside from text u rest :
  in_wizard u = true -> wizard from text u rest = wizard from text u (ret tt).
Proof.
  unfold in_wizard, wizard. intros H.
  destruct (String.eqb (language_step u) "ui"); [reflexivity|].
  destruct (String.eqb (language_step u) "target"); [reflexivity|].
  destruct (String.eqb (language_step u) "gender"); [reflexivity|discriminate H].
Qed.

(** The six ways the routing can go, each with the tests that select it. *)
Lemma dispatch_cases from text num mediaUrl u :
  (is_tier_digit text = true /\ over_quota u = true
   /\ dispatch E from text num mediaUrl u = quick_reply E from text u)
  \/ (is_reset text = true
      /\ dispatch E from text num mediaUrl u = reset from)
  \/ (is_tier_digit text = false /\ is_reset text = false /\ over_quota u = true
      /\ dispatch E from text num mediaUrl u = sendMessage from (tr (ui_of u) "paywall") None)
  \/ (is_reset text = false /\ over_quota u = false /\ in_wizard u = true
      /\ dispatch E from text num mediaUrl u = wizard from text u (ret tt))
  \/ (is_reset text = false /\ over_quota u = false /\ in_wizard u = false
      /\ incomplete u = true
      /\ dispatch E from text num mediaUrl u =
           sendMessage from (Lit "⚠️ Setup incomplete. Text *reset* to start over.") None)
  \/ (is_reset text = false /\ over_quota u = false /\ in_wizard u = false
      /\ incomplete u = false
      /\ dispatch E from text num mediaUrl u =
           translation_phase E from text num mediaUrl u (is_free u)).
Proof.
  unfold dispatch, over_quota. rewrite <- andb_assoc.
  destruct (is_reset text) eqn:Hr.
  - rewrite (reset_is_no_tier_digit _ Hr). simpl. right. left. now split.
  - destruct (is_free u && (5 <=? free_used u)) eqn:Hq.
    + destruct (is_tier_digit text); simpl; [left; now repeat split|].
      right. right. left. now repeat split.
    + rewrite andb_false_r. right. right. right.
      destruct (in_wizard u) eqn:Hw.
      * left. repeat split. now apply wizard_inside.
      * right. rewrite (wizard_past _ _ _ _ Hw).
        destruct (incomplete u); [left | right]; now repeat split.
Qed.

End Part000Routing.

(** ** What one message can do to the [users] table ([part_000]) *)

Section Part000Effects.

Import Part000.

Variable E : Env.

Lemma quick_reply_users from text u w :
  users (after (quick_reply E from text u) w) = users w
  \/ exists c, users (after (quick_reply E from text u) w) =
                 update_where (by_id (user_id u)) (set_stripe_cust_id (Some c)) (users w).
Proof.
  unfold after, quick_reply, try_catch, checkoutUrl, ensureCustomer.
  destruct (Js.truthy (stripe_cust_id u)).
  - left. cbv [bind ret].
    match goal with |- context [sessions_create E ?a ?b ?c ?d] =>
      now destruct (sessions_create E a b c d) end.
  - cbv [bind]. destruct (customers_create E _) as [c|]; [|now left].
    right. exists c. cbv [await ret db_update modify].
    match goal with |- context [sessions_create E ?a ?b ?c ?d] =>
      now destruct (sessions_create E a b c d) end.
Qed.

Lemma wizard_users from text u w :
  in_wizard u = true ->
  effect from u (users w) (users (after (wizard from text u (ret tt)) w)).
Proof.
  intros Hw. unfold wizard.
  destruct (String.eqb (language_step u) "ui") eqn:H1.
  { apply String.eqb_eq in H1. destruct (pickLang text) as [c|]; [|apply eff_none].
    now apply (eff_source from u (users w) (code c)). }
  destruct (String.eqb (language_step u) "target") eqn:H2.
  { apply String.eqb_eq in H2. destruct (pickLang text) as [c|]; [|apply eff_none].
    destruct (Js.seq (code c) (source_lang u)) eqn:Hs; [apply eff_none|].
    now apply (eff_target from u (users w) (code c)). }
  destruct (String.eqb (language_step u) "gender") eqn:H3.
  { apply String.eqb_eq in H3. destruct (pick_gender text) as [g|]; [|apply eff_none].
    now apply (eff_gender from u (users w) g). }
  unfold in_wizard in Hw. rewrite H1, H2, H3 in Hw. discriminate Hw.
Qed.

Lemma dispatch_effect from text num mediaUrl u w :
  effect from u (users w) (users (after (dispatch E from text num mediaUrl u) w)).
Proof.
  destruct (dispatch_cases E from text num mediaUrl u)
    as [(_ & _ & ->)|[(_ & ->)|[(_ & _ & _ & ->)|[(_ & _ & Hw & ->)
       |[(_ & _ & _ & _ & ->)|(_ & _ & _ & _ & ->)]]]]].
  - destruct (quick_reply_users from text u w) as [->|[c ->]];
      [apply eff_none | apply eff_customer].
  - apply eff_reset.
  - apply eff_none.
  - now apply wizard_users.
  - apply eff_none.
  - destruct (translation_phase_effect E from text num mediaUrl u (is_free u) w)
      as [[-> _]|(o & d & x & i & _ & _ & _ & ->)]; [apply eff_none|].
    destruct (is_free u) eqn:Hf; [now apply eff_used | apply eff_none].
Qed.

(** Only the translation phase writes to the log. *)
Lemma dispatch_translations from text num mediaUrl u w :
  translations (after (dispatch E from text num mediaUrl u) w) = translations w
  \/ (is_reset text = false /\ over_quota u = false /\ in_wizard u = false
      /\ incomplete u = false
      /\ dispatch E from text num mediaUrl u =
           translation_phase E from text num mediaUrl u (is_free u)).
Proof.
  destruct (dispatch_cases E from text num mediaUrl u)
    as [(_ & _ & H)|[(_ & H)|[(_ & _ & _ & H)|[(_ & _ & Hw & H)
       |[(_ & _ & _ & _ & H)|H]]]]]; [left; rewrite H ..|now right].
  - apply (keeps_eq translations). intros c. keeps_auto; simpl; assumption.
  - reflexivity.
  - reflexivity.
  - apply (keeps_eq translations). intros c. keeps_auto; simpl; assumption.
  - reflexivity.
Qed.

End Part000Effects.

(** ** The routing of [part_001] *)

Section Part001Routing.

Import Part001.

Variable E : Env.

Lemma fetch_existing_001 from w u :
  select_single (by_phone from) (users w) = Some u ->
  fetch_or_create from w = (Ok u, w).
Proof. intros H. unfold fetch_or_create, bind, get_world. now rewrite H. Qed.

Lemma handle_known_001 from text num mediaUrl w u :
  from <> "" ->
  select_single (by_phone from) (users w) = Some u ->
  handleIncoming E from text num mediaUrl w = dispatch E from text num mediaUrl u w.
Proof.
  intros Hf H. unfold handleIncoming. rewrite (eqb_empty_false _ Hf).
  now rewrite (bind_ok _ _ _ _ _ (fetch_existing_001 _ _ _ H)).
Qed.

Lemma wizard_past_001 from text u rest :
  in_wizard_001 u = false -> wizard from text u rest = rest.
Proof.
  unfold in_wizard_001, wizard. intros H. apply orb_false_elim in H as [H H3].
  apply orb_false_elim in H as [H1 H2]. now rewrite H1, H2, H3.
Qed.

Lemma wizard_inside_001 from text u rest :
  in_wizard_001 u = true -> wizard from text u rest = wizard from text u (ret tt).
Proof.
  unfold in_wizard_001, wizard. intros H.
  destruct (String.eqb (language_step u) "choose_ui"); [reflexivity|].
  destruct (String.eqb (language_step u) "receive"); [reflexivity|].
  destruct (String.eqb (language_step u) "gender"); [reflexivity|discriminate H].
Qed.

(** In this variant the wizard is asked first, whatever the text and the
    usage count. *)
Lemma dispatch_wizard_first from text num mediaUrl u :
  in_wizard_001 u = true ->
  dispatch E from text num mediaUrl u = wizard from text u (ret tt).
Proof. intros H. unfold dispatch. now apply wizard_inside_001. Qed.

Lemma dispatch_cases_001 from text num mediaUrl u :
  (in_wizard_001 u = true
   /\ dispatch E from text num mediaUrl u = wizard from text u (ret tt))
  \/ (in_wizard_001 u = false /\ is_tier_digit text = true
      /\ is_free u && (5 <=? free_used u) = true
      /\ dispatch E from text num mediaUrl u = quick_reply E from text u)
  \/ (in_wizard_001 u = false /\ is_reset text = true
      /\ dispatch E from text num mediaUrl u = reset from u)
  \/ (in_wizard_001 u = false /\ is_reset text = false
      /\ is_free u && (5 <=? free_used u) = true
      /\ dispatch E from text num mediaUrl u = sendMessage from PAYWALL None)
  \/ (in_wizard_001 u = false /\ is_reset text = false
      /\ is_free u && (5 <=? free_used u) = false /\ incomplete u = true
      /\ dispatch E from text num mediaUrl u =
           sendMessage from (Lit "⚠️ Setup incomplete. Type “reset” to start over.") None)
  \/ (in_wizard_001 u = false /\ is_reset text = false
      /\ is_free u && (5 <=? free_used u) = false /\ incomplete u = false
      /\ dispatch E from text num mediaUrl u =
           translation_phase E from text num mediaUrl u (is_free u)).
Proof.
  destruct (in_wizard_001 u) eqn:Hw; [left; split; [reflexivity | now apply dispatch_wizard_first]|].
  right. unfold dispatch. rewrite (wizard_past_001 _ _ _ _ Hw). rewrite <- andb_assoc.
  destruct (is_reset text) eqn:Hr.
  - rewrite (reset_is_no_tier_digit _ Hr). simpl. right. left. now repeat split.
  - destruct (is_free u && (5 <=? free_used u)) eqn:Hq.
    + destruct (is_tier_digit text); simpl; [left; now repeat split|].
      right. right. left. now repeat split.
    + rewrite andb_false_r. right. right. right.
      destruct (incomplete u); [left | right]; now repeat split.
Qed.

Lemma dispatch_translations_001 from text num mediaUrl u w :
  translations (after (dispatch E from text num mediaUrl u) w) = translations w
  \/ (in_wizard_001 u = false /\ is_reset text = false
      /\ is_free u && (5 <=? free_used u) = false /\ incomplete u = false
      /\ dispatch E from text num mediaUrl u =
           translation_phase E from text num mediaUrl u (is_free u)).
Proof.
  destruct (dispatch_cases_001 from text num mediaUrl u)
    as [(_ & H)|[(_ & _ & _ & H)|[(_ & _ & H)|[(_ & _ & _ & H)
       |[(_ & _ & _ & _ & H)|H]]]]]; [left; rewrite H ..|now right].
  - apply (keeps_eq translations). intros c. keeps_auto; simpl; assumption.
  - apply (keeps_eq translations). intros c. keeps_auto; simpl; assumption.
  - reflexivity.
  - reflexivity.
  - reflexivity.
Qed.

End Part001Routing.

(** ** The destination of a translation *)

Lemma seq_true a b : Js.seq a b = true <-> b = Some a.
Proof.
  unfold Js.seq. destruct b as [s|]; [|split; discriminate].
  rewrite String.eqb_eq. split; [now intros -> | now intros [= ->]].
Qed.

Lemma dest_of_flip detected u :
  (target_lang u = Some detected -> dest_of detected u = source_lang u)
  /\ (target_lang u <> Some detected -> dest_of detected u = target_lang u).
Proof.
  unfold dest_of. destruct (Js.seq detected (target_lang u)) eqn:H.
  - apply seq_true in H. split; [reflexivity | intros N; now destruct N].
  - split; [|reflexivity]. intros T. apply seq_true in T. congruence.
Qed.

(** The log row of a run of the translation phase, if any, names the
    destination the flip rule gives for the detected language. *)
Lemma translation_phase_row E from text num mediaUrl u isFree w :
  logged_by_flip E u (translations w)
    (translations (after (translation_phase E from text num mediaUrl u isFree) w)).
Proof.
  destruct (translation_phase_effect E from text num mediaUrl u isFree w)
    as [[_ H]|(o & d & x & i & _ & Hx & Ht & _)]; [now left|].
  right. eexists. exists x. split; [exact Ht|]. repeat split. exact Hx.
Qed.

(** ** The pay-wall quick replies *)

Section QuickReply.

Import Part000.

Variable E : Env.

(** The quick reply sends one message: the link, or the apology. *)
Lemma quick_reply_outbox from digit u w :
  outbox (after (quick_reply E from digit u) w) =
    outbox w ++
      [OutMsg from (Body (Lit (match checkout_link E u (tier_of digit) with
                               | Some link => "Tap to pay → " +:+ link
                               | None => "⚠️ Payment link error. Try again later."
                               end)))].
Proof.
  unfold after, quick_reply, try_catch, checkoutUrl, ensureCustomer, checkout_link.
  fold (tier_of digit).
  destruct (Js.truthy (stripe_cust_id u)).
  - cbv [bind ret].
    match goal with |- context [sessions_create E ?a ?b ?c ?d] =>
      now destruct (sessions_create E a b c d) end.
  - cbv [bind]. destruct (customers_create E _) as [c|]; [|reflexivity].
    cbv [await ret db_update modify].
    match goal with |- context [sessions_create E ?a ?b ?c ?d] =>
      now destruct (sessions_create E a b c d) end.
Qed.

Lemma quick_reply_translations from digit u w :
  translations (after (quick_reply E from digit u) w) = translations w.
Proof. apply (keeps_eq translations). intros c. keeps_auto; simpl; assumption. Qed.

End QuickReply.

(** ** The paywall gate and the wizard *)

(** C2, as stated, fails on [part_000].  A sender who used five free
    translations and then typed "reset" is at the first wizard step; the
    next message that is neither a reset nor a tier digit is answered with
    the paywall text, no row changes, and the wizard (which would have
    answered with its menu) is not reached. *)
Lemma paywall_answers_wizard_user :
  let u := Sample.row "ui" None None None None 5 in
  let w := Sample.world_of [u] in
  let w' := after (Part000.handleIncoming Sample.vendors "+1555" "hello" 0 None) w in
  users (after (Part000.handleIncoming Sample.vendors "+1555" "reset" 0 None)
           (Sample.world_of [Sample.ready 5])) = [u]
  /\ String.eqb (language_step u) "ready" = false
  /\ is_reset "hello" = false
  /\ is_tier_digit "hello" = false
  /\ outbox w' = [OutMsg "+1555" (Body (Tr "en" "paywall"))]
  /\ users w' = [u]
  /\ outbox (after (Part000.wizard "+1555" "hello" u (ret tt)) w) =
       [OutMsg "+1555"
          (Body (Cat (Cat (Tr "en" "reply1to5") (Lit LF))
                     (Part000.menuMsg (Lit "Please choose your language:"))))].
Proof. vm_compute. repeat split. Qed.

Section Part000Gate.

Import Part000.

Variable E : Env.

Lemma tr_is_Tr lang key : exists l, tr lang key = Tr l key.
Proof. unfold tr. destruct (existsb _ _); now eexists. Qed.

(** The wizard always answers, and its last message is neither a plain
    text nor the paywall. *)
Lemma wizard_last_message from text u w :
  in_wizard u = true ->
  exists pre b,
    outbox (after (wizard from text u (ret tt)) w) = outbox w ++ pre ++ [OutMsg from (Body b)]
    /\ (forall s, b <> Lit s) /\ (forall l, b <> Tr l "paywall").
Proof.
  intros Hw. unfold wizard.
  destruct (String.eqb (language_step u) "ui") eqn:H1.
  { destruct (pickLang text) as [c|].
    - destruct (tr_is_Tr (code c) "how") as [l Hl].
      eexists [_], _. cbn. rewrite <- app_assoc. split; [reflexivity|].
      split; intros; discriminate.
    - exists [], (Cat (Cat (tr "en" "reply1to5") (Lit LF))
                       (menuMsg (Lit "Please choose your language:"))).
      split; [reflexivity|]. split; intros; discriminate. }
  destruct (String.eqb (language_step u) "target") eqn:H2.
  { destruct (pickLang text) as [c|].
    - destruct (Js.seq (code c) (source_lang u)).
      + eexists [], _. split; [reflexivity|]. split; intros; discriminate.
      + destruct (tr_is_Tr (ui_of u) "voice") as [l Hl].
        exists [], (Tr l "voice"). cbn. rewrite Hl. split; [reflexivity|].
        split; intros; discriminate.
    - eexists [], _. split; [reflexivity|]. split; intros; discriminate. }
  destruct (String.eqb (language_step u) "gender") eqn:H3.
  { destruct (pick_gender text) as [g|].
    - destruct (tr_is_Tr (ui_of u) "setupDone") as [l Hl].
      exists [], (Tr l "setupDone"). cbn. rewrite Hl. split; [reflexivity|].
      split; intros; discriminate.
    - destruct (tr_is_Tr (ui_of u) "genderErr") as [l Hl].
      exists [], (Tr l "genderErr"). cbn. rewrite Hl. split; [reflexivity|].
      split; intros; discriminate. }
  unfold in_wizard in Hw. rewrite H1, H2, H3 in Hw. discriminate Hw.
Qed.

End Part000Gate.

(** C2, amended.  For a sender at a wizard step whose message is not a
    reset.  In [part_000] the message is run by the wizard exactly when the
    sender is not over the free quota.  A sender over the quota is answered
    by the pay-wall quick replies when the text is a tier digit (one
    message: the checkout link, or the apology) and with the paywall text
    otherwise; either way nothing is logged and the sender's row keeps its
    step and its preferences, so no wizard step is taken.  In [part_001],
    where the wizard steps are tested first, the message is run by the
    wizard whatever the usage count. *)
Theorem wizard_dispatch_by_variant E from text num mediaUrl w u :
  from <> "" ->
  select_single (by_phone from) (users w) = Some u ->
  (in_wizard u = true -> is_reset text = false ->
     let run := Part000.handleIncoming E from text num mediaUrl in
     (run w = Part000.wizard from text u (ret tt) w <-> over_quota u = false)
     /\ (over_quota u = true ->
         (if is_tier_digit text
          then run w = Part000.quick_reply E from text u w
          else run w = sendMessage from (Part000.tr (Part000.ui_of u) "paywall") None w)
         /\ outbox (after run w) =
              outbox w ++
                [OutMsg from (Body (if is_tier_digit text
                                    then Lit (quick_reply_text E u text)
                                    else Part000.tr (Part000.ui_of u) "paywall"))]
         /\ translations (after run w) = translations w
         /\ exists u',
              select_single (by_phone from) (users (after run w)) = Some u'
              /\ same_progress u u'))
  /\ (in_wizard_001 u = true ->
      Part001.handleIncoming E from text num mediaUrl w
        = Part001.wizard from text u (ret tt) w).
Proof.
  intros Hf Hu. split.
  - intros Hw Hr run.
    assert (Hrun : run w = Part000.dispatch E from text num mediaUrl u w)
      by apply (handle_known E _ _ _ _ _ _ Hf Hu).
    assert (Hover : over_quota u = true ->
              (if is_tier_digit text
               then run w = Part000.quick_reply E from text u w
               else run w = sendMessage from (Part000.tr (Part000.ui_of u) "paywall") None w)
              /\ outbox (after run w) =
                   outbox w ++
                     [OutMsg from (Body (if is_tier_digit text
                                         then Lit (quick_reply_text E u text)
                                         else Part000.tr (Part000.ui_of u) "paywall"))]
              /\ translations (after run w) = translations w
              /\ exists u',
                   select_single (by_phone from) (users (after run w)) = Some u'
                   /\ same_progress u u').
    { intros Hq. unfold after. rewrite Hrun.
      destruct (dispatch_cases E from text num mediaUrl u)
        as [(Hd & _ & H)|[(Hr' & _)|[(Hd & _ & _ & H)|[(_ & Hq' & _)
           |[(_ & Hq' & _)|(_ & Hq' & _)]]]]]; try congruence; rewrite H, Hd.
      + split; [reflexivity|].
        fold (after (Part000.quick_reply E from text u) w).
        split; [apply quick_reply_outbox|]. split; [apply quick_reply_translations|].
        destruct (quick_reply_users E from text u w) as [->|[c ->]].
        * exists u. split; [exact Hu | now repeat split].
        * exists (set_stripe_cust_id (Some c) u). split; [|now repeat split].
          rewrite (select_single_update (by_phone from) (by_id (user_id u))
                     (set_stripe_cust_id (Some c)) _ u (fun x => eq_refl) Hu).
          unfold by_id. now rewrite Nat.eqb_refl.
      + split; [reflexivity|]. split; [reflexivity|]. split; [reflexivity|].
        exists u. split; [exact Hu | now repeat split]. }
    split; [|exact Hover]. split.
    + intros Heq. destruct (over_quota u) eqn:Hq; [exfalso | reflexivity].
      destruct (Hover eq_refl) as (_ & Hout & _).
      destruct (wizard_last_message from text u w Hw) as (pre & b & Hwz & Hlit & Hpay).
      unfold after in Hout, Hwz. rewrite Heq in Hout. rewrite Hwz in Hout.
      apply app_inv_head in Hout. apply (app_inj_tail pre []) in Hout as [_ Hb].
      injection Hb as ->.
      destruct (is_tier_digit text); [now apply (Hlit (quick_reply_text E u text))|].
      destruct (tr_is_Tr (Part000.ui_of u) "paywall") as [l Hl]. now apply (Hpay l).
    + intros Hq. rewrite Hrun.
      destruct (dispatch_cases E from text num mediaUrl u)
        as [(_ & Hq' & _)|[(Hr' & _)|[(_ & _ & Hq' & _)|[(_ & _ & _ & H)
           |[(_ & _ & Hw' & _)|(_ & _ & Hw' & _)]]]]]; congruence.
  - intros Hw. rewrite (handle_known_001 E _ _ _ _ _ _ Hf Hu).
    now rewrite (dispatch_wizard_first E _ _ _ _ _ Hw).
Qed.

Lemma wizard_dispatch_by_variant_witness :
  let under := Sample.row "target" (Some "fr") (Some "fr") None None 0 in
  let over := Sample.row "ui" None None None None 5 in
  let over_001 := Sample.row "choose_ui" None None None None 5 in
  let run text u := after (Part000.handleIncoming Sample.vendors "+1555" text 0 None)
                      (Sample.world_of [u]) in
  let run_001 text u := after (Part001.handleIncoming Sample.vendors "+1555" text 0 None)
                          (Sample.world_of [u]) in
  (* under the quota: the wizard takes the choice *)
  Part000.handleIncoming Sample.vendors "+1555" "es" 0 None (Sample.world_of [under])
    = Part000.wizard "+1555" "es" under (ret tt) (Sample.world_of [under])
  /\ users (run "es" under) = [Sample.row "gender" (Some "fr") (Some "fr") (Some "es") None 0]
  (* over the quota: the paywall, or the link for a tier digit; no step taken *)
  /\ outbox (run "hello" over) = [OutMsg "+1555" (Body (Tr "en" "paywall"))]
  /\ users (run "hello" over) = [over]
  /\ outbox (run "2" over) =
       [OutMsg "+1555" (Body (Lit ("Tap to pay → " +:+ "https://pay.example/annual")))]
  /\ users (run "2" over) = [set_stripe_cust_id (Some "cus_1") over]
  /\ Part000.handleIncoming Sample.vendors "+1555" "2" 0 None (Sample.world_of [over])
       <> Part000.wizard "+1555" "2" over (ret tt) (Sample.world_of [over])
  (* part_001, over the quota: the wizard takes the digit as a language *)
  /\ users (run_001 "2" over_001)
       = [Sample.row "receive" (Some "es") (Some "es") None None 5].
Proof.
  cbv zeta.
  assert (Hf : "+1555" <> "") by discriminate.
  pose proof (fun text u => wizard_dispatch_by_variant Sample.vendors "+1555" text 0 None
                              (Sample.world_of [u]) u Hf) as T.
  split.
  { apply (proj1 (T "es" (Sample.row "target" (Some "fr") (Some "fr") None None 0) eq_refl)
             eq_refl eq_refl).
    reflexivity. }
  split; [vm_compute; reflexivity|].
  destruct (proj1 (T "hello" (Sample.row "ui" None None None None 5) eq_refl)
              eq_refl eq_refl) as (_ & Hover).
  destruct (Hover eq_refl) as (_ & Hout & _ & _).
  split; [exact Hout|]. split; [vm_compute; reflexivity|].
  destruct (proj1 (T "2" (Sample.row "ui" None None None None 5) eq_refl)
              eq_refl eq_refl) as (Hiff & Hover2).
  destruct (Hover2 eq_refl) as (_ & Hout2 & _ & _).
  split; [exact Hout2|]. split; [vm_compute; reflexivity|].
  split.
  { intros Heq. apply Hiff in Heq. discriminate Heq. }
  pose proof (proj2 (T "2" (Sample.row "choose_ui" None None None None 5) eq_refl) eq_refl)
    as H001.
  unfold after. rewrite H001. vm_compute. reflexivity.
Defined.

(** ** The quota boundary *)

(** C3.  The quota boundary.  A ready free-plan sender with four
    translations used sends a message that is translated (a log row is
    written): the row's count becomes five.  The next message, if its text
    is 1, 2 or 3, is taken by the pay-wall quick replies: nothing is
    translated or logged, the sender stays ready with the same languages,
    and the one message sent is the checkout link the payment provider
    made for the tier (or the apology when it made none). *)
Theorem quota_boundary E E' from text num mediaUrl digit num' mediaUrl' w u :
  from <> "" ->
  select_single (by_phone from) (users w) = Some u ->
  language_step u = "ready" ->
  Part000.is_free u = true ->
  free_used u = 4 ->
  let w1 := after (Part000.handleIncoming E from text num mediaUrl) w in
  translations w1 <> translations w ->
  is_tier_digit digit = true ->
  let u1 := set_free_used 5 u in
  let w2 := after (Part000.handleIncoming E' from digit num' mediaUrl') w1 in
  select_single (by_phone from) (users w1) = Some u1
  /\ Part000.handleIncoming E' from digit num' mediaUrl' w1
       = Part000.quick_reply E' from digit u1 w1
  /\ translations w2 = translations w1
  /\ (exists u2,
        select_single (by_phone from) (users w2) = Some u2
        /\ language_step u2 = "ready" /\ free_used u2 = 5
        /\ source_lang u2 = source_lang u /\ target_lang u2 = target_lang u
        /\ voice_gender u2 = voice_gender u)
  /\ outbox w2 =
       outbox w1 ++
         [OutMsg from (Body (Lit (match checkout_link E' u1 (tier_of digit) with
                                  | Some link => "Tap to pay → " +:+ link
                                  | None => "⚠️ Payment link error. Try again later."
                                  end)))].
Proof.
  intros Hf Hu Hready Hfree H4 w1 Hlog Hd u1 w2.
  assert (Hu1 : select_single (by_phone from) (users w1) = Some u1).
  { subst w1. unfold after in *. rewrite (handle_known E _ _ _ _ _ _ Hf Hu) in *.
    destruct (dispatch_translations E from text num mediaUrl u w)
      as [H|(_ & _ & _ & _ & H)]; [now destruct Hlog|].
    fold (after (Part000.dispatch E from text num mediaUrl u) w) in *. rewrite H in *.
    destruct (translation_phase_effect E from text num mediaUrl u (Part000.is_free u) w)
      as [[_ Ht]|(o & d & x & i & _ & _ & _ & Hus)]; [now destruct Hlog|].
    rewrite Hus, Hfree.
    rewrite (select_single_update (by_phone from) (by_phone from)
               (set_free_used (free_used u + 1)) _ u (fun x => eq_refl) Hu).
    rewrite (proj1 (proj2 (select_single_unique _ _ _ Hu))).
    subst u1. now rewrite H4. }
  assert (Hq : Part000.handleIncoming E' from digit num' mediaUrl' w1
               = Part000.quick_reply E' from digit u1 w1).
  { rewrite (handle_known E' _ _ _ _ _ _ Hf Hu1). unfold Part000.dispatch.
    rewrite Hd. subst u1. unfold Part000.is_free in *. simpl. now rewrite Hfree. }
  split; [exact Hu1|]. split; [exact Hq|].
  subst w2. unfold after at 1 2 3. rewrite Hq.
  fold (after (Part000.quick_reply E' from digit u1) w1).
  split; [apply quick_reply_translations|]. split; [|apply quick_reply_outbox].
  destruct (quick_reply_users E' from digit u1 w1) as [->|[c ->]].
  - exists u1. split; [exact Hu1|]. subst u1. now repeat split.
  - exists (set_stripe_cust_id (Some c) u1). split.
    + rewrite (select_single_update (by_phone from) (by_id (user_id u1))
                 (set_stripe_cust_id (Some c)) _ u1 (fun x => eq_refl) Hu1).
      unfold by_id. now rewrite Nat.eqb_refl.
    + subst u1. now repeat split.
Qed.

Lemma quota_boundary_witness :
  let w := Sample.world_of [Sample.ready 4] in
  let w1 := after (Part000.handleIncoming Sample.vendors "+1555" "Hola" 0 None) w in
  let w2 := after (Part000.handleIncoming Sample.vendors "+1555" "2" 0 None) w1 in
  select_single (by_phone "+1555") (users w1) = Some (set_free_used 5 (Sample.ready 4))
  /\ translations w2 = translations w1
  /\ outbox w2 =
       outbox w1 ++
         [OutMsg "+1555" (Body (Lit ("Tap to pay → " +:+ "https://pay.example/annual")))].
Proof.
  assert (Hf : "+1555" <> "") by discriminate.
  assert (Hlog : translations
                   (after (Part000.handleIncoming Sample.vendors "+1555" "Hola" 0 None)
                      (Sample.world_of [Sample.ready 4]))
                 <> translations (Sample.world_of [Sample.ready 4]))
    by (vm_compute; discriminate).
  destruct (quota_boundary Sample.vendors Sample.vendors "+1555" "Hola" 0 None "2" 0 None
              (Sample.world_of [Sample.ready 4]) (Sample.ready 4)
              Hf eq_refl eq_refl eq_refl eq_refl Hlog eq_refl)
    as (H1 & _ & H2 & _ & H3).
  split; [exact H1|]. split; [exact H2|]. exact H3.
Defined.

(** ** Reachable stores ([part_000]) *)

Lemma update_where_phones p f db :
  (forall x, phone_number (f x) = phone_number x) ->
  map phone_number (update_where p f db) = map phone_number db.
Proof.
  intros Hf. unfold update_where. rewrite map_map. apply map_ext. intros x.
  destruct (p x); [apply Hf | reflexivity].
Qed.

Lemma store_ok_with_update (R : user -> Prop) p f db :
  store_ok_with R db ->
  (forall x, phone_number (f x) = phone_number x) ->
  (forall x, In x db -> p x = true -> R x -> R (f x)) ->
  store_ok_with R (update_where p f db).
Proof.
  intros [Hn Hr] Hf Hok. split.
  - now rewrite update_where_phones.
  - unfold update_where. rewrite List.Forall_map. rewrite List.Forall_forall in *. intros x Hx.
    destruct (p x) eqn:Hp; [apply Hok; auto | now apply Hr].
Qed.

Lemma store_ok_update p f db :
  store_ok db ->
  (forall x, phone_number (f x) = phone_number x) ->
  (forall x, In x db -> p x = true -> row_ok x -> row_ok (f x)) ->
  store_ok (update_where p f db).
Proof. apply store_ok_with_update. Qed.

Lemma row_ok_same f x :
  language_step (f x) = language_step x ->
  source_lang (f x) = source_lang x ->
  target_lang (f x) = target_lang x ->
  row_ok x -> row_ok (f x).
Proof. unfold row_ok. intros -> -> ->. tauto. Qed.

Lemma seq_false a b s : Js.seq a b = false -> b = Some s -> s <> a.
Proof. intros H -> ->. unfold Js.seq in H. now rewrite String.eqb_refl in H. Qed.

Lemma effect_store_ok from u db db' :
  select_single (by_phone from) db = Some u ->
  store_ok db -> effect from u db db' -> store_ok db'.
Proof.
  intros Hu Hok Heff. destruct (select_single_unique _ _ _ Hu) as (Hin & Hp & Huniq).
  assert (Hru : row_ok u) by (destruct Hok as [_ Hr]; rewrite List.Forall_forall in Hr; auto).
  destruct Heff as [|c| |c Hs|c Hs Hd|g Hs|Hf].
  - exact Hok.
  - apply store_ok_update; [exact Hok | reflexivity |]. intros x _ _. now apply row_ok_same.
  - apply store_ok_update; [exact Hok | reflexivity |]. intros x _ _ _.
    unfold row_ok. simpl. split; [tauto|]. split; [reflexivity | discriminate].
  - apply store_ok_update; [exact Hok | reflexivity |]. intros x Hx Hpx _.
    rewrite (Huniq x Hx Hpx). destruct Hru as (_ & Ht & _).
    unfold row_ok. simpl. split; [tauto|]. rewrite (Ht (or_introl Hs)).
    split; [reflexivity | discriminate].
  - apply store_ok_update; [exact Hok | reflexivity |]. intros x Hx Hpx _.
    rewrite (Huniq x Hx Hpx). unfold row_ok. simpl. split; [tauto|].
    split; [intros [N|N]; discriminate N|].
    intros s t Hsrc [= <-]. now apply (seq_false c (source_lang u)).
  - apply store_ok_update; [exact Hok | reflexivity |]. intros x Hx Hpx _.
    rewrite (Huniq x Hx Hpx). destruct Hru as (_ & _ & Hd).
    unfold row_ok. simpl. split; [tauto|]. split; [intros [N|N]; discriminate N | exact Hd].
  - apply store_ok_update; [exact Hok | reflexivity |]. intros x _ _. now apply row_ok_same.
Qed.

Lemma nodup_phone_filter from db :
  List.NoDup (map phone_number db) -> length (List.filter (by_phone from) db) <= 1.
Proof.
  induction db as [|a l IH]; simpl; [lia|]. intros Hn. inversion Hn as [|? ? Hnotin Hn']; subst.
  destruct (by_phone from a) eqn:Ha; [|now apply IH].
  apply by_phone_refl in Ha. simpl.
  destruct (List.filter (by_phone from) l) as [|b r] eqn:Hfl; [simpl; lia|].
  exfalso. apply Hnotin. assert (Hb : In b (List.filter (by_phone from) l)) by (rewrite Hfl; now left).
  apply filter_In in Hb as [Hb Hpb]. apply by_phone_refl in Hpb.
  rewrite Ha, <- Hpb. now apply in_map.
Qed.

Lemma select_none_absent from db :
  List.NoDup (map phone_number db) ->
  select_single (by_phone from) db = None ->
  List.filter (by_phone from) db = [].
Proof.
  intros Hn Hs. pose proof (nodup_phone_filter from db Hn) as Hl. unfold select_single in Hs.
  destruct (List.filter (by_phone from) db) as [|a [|b r]]; [reflexivity | discriminate Hs|].
  simpl in Hl. lia.
Qed.

Lemma filter_nil_existsb (p : user -> bool) db :
  List.filter p db = [] -> existsb p db = false.
Proof.
  induction db as [|a l IH]; simpl; [reflexivity|].
  destruct (p a); [discriminate | exact IH].
Qed.

Lemma store_ok_with_append (R : user -> Prop) from db u :
  store_ok_with R db -> List.filter (by_phone from) db = [] ->
  phone_number u = from -> R u -> store_ok_with R (db ++ [u]).
Proof.
  intros [Hn Hr] Hnil Hp Hu. split.
  - rewrite map_app. simpl. apply List.NoDup_app; [exact Hn | |].
    + apply List.NoDup_cons; [intros [] | apply List.NoDup_nil].
    + intros x Hx [Hx'|[]]. subst x. apply in_map_iff in Hx as (y & Hy & Hin).
      assert (Hf : In y (List.filter (by_phone from) db))
        by (apply filter_In; split; [exact Hin | apply by_phone_refl; congruence]).
      rewrite Hnil in Hf. destruct Hf.
  - apply List.Forall_app. split; [exact Hr|]. apply List.Forall_cons; [exact Hu|apply List.Forall_nil].
Qed.

Section Part000Store.

Import Part000.

Variable E : Env.

(** Fetching or creating the sender's row, on a store whose phone numbers
    are unique: the row is found, or appended. *)
Lemma fetch_or_create_run from w :
  List.NoDup (map phone_number (users w)) ->
  exists u w0,
    fetch_or_create from w = (Ok u, w0)
    /\ select_single (by_phone from) (users w0) = Some u
    /\ (w0 = w
        \/ (List.filter (by_phone from) (users w) = []
            /\ u = new_row (users w) from
            /\ w0 = with_users (fun db => db ++ [new_row db from]) w)).
Proof.
  intros Hn. unfold fetch_or_create, bind, get_world.
  destruct (select_single (by_phone from) (users w)) as [u|] eqn:Hs.
  - exists u, w. now repeat split; [|left].
  - pose proof (select_none_absent _ _ Hn Hs) as Hnil.
    exists (new_row (users w) from), (with_users (fun db => db ++ [new_row db from]) w).
    unfold modify. cbn [fst snd]. unfold with_users at 1 2. cbn [users].
    unfold upsert_by_phone. rewrite (filter_nil_existsb _ _ Hnil).
    assert (Hsel : select_single (by_phone from) (users w ++ [new_row (users w) from])
                   = Some (new_row (users w) from)).
    { unfold select_single. rewrite List.filter_app, Hnil. simpl.
      unfold by_phone. simpl. now rewrite String.eqb_refl. }
    fold (new_row (users w) from). rewrite Hsel. cbn [await ret].
    split; [reflexivity|]. split; [exact Hsel|]. right. now repeat split.
Qed.

Lemma store_ok_new_row from db :
  store_ok db -> List.filter (by_phone from) db = [] -> store_ok (db ++ [new_row db from]).
Proof.
  intros [Hn Hr] Hnil. split.
  - rewrite map_app. simpl. apply List.NoDup_app; [exact Hn | |].
    + apply List.NoDup_cons; [intros [] | apply List.NoDup_nil].
    + intros x Hx [Hx'|[]]. simpl in Hx'. subst x. apply in_map_iff in Hx as (y & Hy & Hin).
      assert (Hf : In y (List.filter (by_phone from) db))
        by (apply filter_In; split; [exact Hin | now apply by_phone_refl]).
      rewrite Hnil in Hf. destruct Hf.
  - apply List.Forall_app. split; [exact Hr|]. apply List.Forall_cons; [|apply List.Forall_nil].
    unfold row_ok. simpl. split; [tauto|]. split; [reflexivity | discriminate].
Qed.

(** The handler on a store with unique phone numbers: nothing happens to
    the table, or the routing runs on the sender's row, found or appended. *)
Lemma handle_effect from text num mediaUrl w :
  List.NoDup (map phone_number (users w)) ->
  let db' := users (after (handleIncoming E from text num mediaUrl) w) in
  db' = users w
  \/ exists u db0,
       (db0 = users w
        \/ (List.filter (by_phone from) (users w) = []
            /\ db0 = users w ++ [new_row (users w) from]))
       /\ select_single (by_phone from) db0 = Some u
       /\ effect from u db0 db'.
Proof.
  intros Hn db'. subst db'. unfold handleIncoming.
  destruct (String.eqb from ""); [now left|].
  destruct (fetch_or_create_run from w Hn) as (u & w0 & Hrun & Hsel & Hw0).
  right. exists u, (users w0). unfold after. rewrite (bind_ok _ _ _ _ _ Hrun).
  split.
  - destruct Hw0 as [->|(Hnil & _ & ->)]; [now left | right; now split].
  - split; [exact Hsel|]. apply (dispatch_effect E).
Qed.

Lemma handle_store_ok from text num mediaUrl w :
  store_ok (users w) -> store_ok (users (after (handleIncoming E from text num mediaUrl) w)).
Proof.
  intros Hok. destruct (handle_effect from text num mediaUrl w (proj1 Hok))
    as [->|(u & db0 & Hdb0 & Hsel & Heff)]; [exact Hok|].
  apply (effect_store_ok from u db0); [exact Hsel | | exact Heff].
  destruct Hdb0 as [->|[Hnil ->]]; [exact Hok | now apply store_ok_new_row].
Qed.

Lemma webhook_store_ok body sig w :
  store_ok (users w) -> store_ok (users (after (stripe_webhook E body sig) w)).
Proof.
  intros Hok.
  destruct (constructEvent E body sig (STRIPE_WEBHOOK_SECRET E)) as [[tier uid cust sub|sid|ty]|] eqn:Hc.
  - rewrite (webhook_checkout_users E _ _ _ _ _ _ _ Hc).
    change (store_ok (update_where (fun _ => true)
              (fun u => if by_cust cust u then activate (plan_of_tier tier) sub u
                        else if fallback_hits E uid cust (users w) u
                             then activate_fallback (plan_of_tier tier) cust sub u else u)
              (users w))).
    apply store_ok_update; [exact Hok | |].
    + intros x. destruct (by_cust cust x); [reflexivity|].
      now destruct (fallback_hits E uid cust (users w) x).
    + intros x _ _ Hr. destruct (by_cust cust x).
      * now apply (row_ok_same (activate (plan_of_tier tier) sub)).
      * destruct (fallback_hits E uid cust (users w) x); [|exact Hr].
        now apply (row_ok_same (activate_fallback (plan_of_tier tier) cust sub)).
  - rewrite (webhook_deleted_users E _ _ _ _ Hc).
    apply (store_ok_update (by_sub sid) (set_plan (Some "FREE"))); [exact Hok | reflexivity |].
    intros x _ _. now apply (row_ok_same (set_plan (Some "FREE"))).
  - rewrite (webhook_other_users E); [exact Hok | congruence | congruence].
  - rewrite (webhook_other_users E); [exact Hok | congruence | congruence].
Qed.

End Part000Store.

Lemma reachable_store_ok w : reachable w -> store_ok (users w).
Proof.
  induction 1 as [w H|w w' _ IH Hstep].
  - rewrite H. split; [apply List.NoDup_nil | apply List.Forall_nil].
  - destruct Hstep; [now apply handle_store_ok | now apply webhook_store_ok].
Qed.

(** ** A first message ([part_000]) *)

Lemma update_where_absent (p : user -> bool) f db :
  List.filter p db = [] -> update_where p f db = db.
Proof.
  induction db as [|a l IH]; simpl; [reflexivity|].
  destruct (p a) eqn:Ha; [discriminate|]. intros H. now rewrite (IH H).
Qed.

(** X4.  A first message that picks a language.  For a sender the store
    does not know, a message that selects a menu entry creates the row and
    takes the first wizard step in the same run: the row is appended with
    the selection as source and prompt language and the step "target", and
    the two messages sent are the explainer and the receive-language menu
    in the selected language. *)
Theorem new_sender_first_choice E from text num mediaUrl w c :
  from <> "" ->
  List.NoDup (map phone_number (users w)) ->
  select_single (by_phone from) (users w) = None ->
  is_reset text = false ->
  pickLang text = Some c ->
  let w' := after (Part000.handleIncoming E from text num mediaUrl) w in
  users w' = users w ++ [source_patch (code c) (new_row (users w) from)]
  /\ source_lang (source_patch (code c) (new_row (users w) from)) = Some (code c)
  /\ language_step (source_patch (code c) (new_row (users w) from)) = "target"
  /\ outbox w' =
       outbox w ++
         [OutMsg from (Body (Part000.tr (code c) "how"));
          OutMsg from (Body (Part000.menuMsg (Part000.tr (code c) "receive")))].
Proof.
  intros Hf Hn Hs Hr Hc w'. subst w'. unfold after, Part000.handleIncoming.
  rewrite (eqb_empty_false _ Hf).
  destruct (fetch_or_create_run from w Hn) as (u & w0 & Hrun & Hsel & [->|(Hnil & -> & ->)]);
    [congruence|].
  rewrite (bind_ok _ _ _ _ _ Hrun).
  destruct (dispatch_cases E from text num mediaUrl (new_row (users w) from))
    as [(_ & Hq & _)|[(Hr' & _)|[(_ & _ & Hq & _)|[(_ & _ & _ & ->)
       |[(_ & _ & Hw & _)|(_ & _ & Hw & _)]]]]]; try discriminate; try congruence.
  unfold Part000.wizard. cbn [language_step new_row set_free_used set_plan set_language_step
                              String.eqb Ascii.eqb Bool.eqb].
  rewrite Hc. cbn. unfold update_where. rewrite map_app.
  fold (update_where (by_phone from)
          (fun u => set_language_step "target"
                      (set_source_lang (Some (code c)) (set_ui_lang (Some (code c)) u)))
          (users w)).
  rewrite (update_where_absent _ _ _ Hnil). cbn. unfold by_phone. cbn.
  rewrite String.eqb_refl. now rewrite <- app_assoc.
Qed.

Lemma new_sender_first_choice_witness :
  let w := Sample.world_of [] in
  let w' := after (Part000.handleIncoming Sample.vendors "+1555" "3" 0 None) w in
  users w' = [Sample.row "target" (Some "fr") (Some "fr") None None 0]
  /\ outbox w' =
       [OutMsg "+1555" (Body (Tr "fr" "how"));
        OutMsg "+1555" (Body (Cat (Tr "fr" "receive") (Lit (LF +:+ LF +:+ menu_lines))))].
Proof.
  assert (Hf : "+1555" <> "") by discriminate.
  destruct (new_sender_first_choice Sample.vendors "+1555" "3" 0 None (Sample.world_of [])
              (MenuEntry "French" "fr") Hf (List.NoDup_nil _) eq_refl eq_refl eq_refl)
    as (H1 & _ & _ & H2).
  split; [exact H1 | exact H2].
Defined.

(** ** Reachable stores ([part_003]) *)

Lemma row_ok_003_same f x :
  language_step (f x) = language_step x ->
  source_lang (f x) = source_lang x ->
  target_lang (f x) = target_lang x ->
  row_ok_003 x -> row_ok_003 (f x).
Proof. unfold row_ok_003. intros -> -> ->. tauto. Qed.

Section Part003Store.

Import Part003.

Variable E : Env.

Lemma translate_all_keeps (I : world -> Prop) cs target :
  keeps I (translate_all E cs target).
Proof.
  induction cs as [|c r IH]; simpl; [apply keeps_ret|].
  apply keeps_bind; [keeps_auto|]. intros t.
  apply keeps_bind; [exact IH|]. intros ts. apply keeps_ret.
Qed.

(** A patch of the usage count, or of a billing column, keeps the store. *)
Lemma keeps_store_patch p f w :
  (forall x, phone_number (f x) = phone_number x) ->
  (forall x, language_step (f x) = language_step x) ->
  (forall x, source_lang (f x) = source_lang x) ->
  (forall x, target_lang (f x) = target_lang x) ->
  store_ok_003 (users w) -> store_ok_003 (users (with_users (update_where p f) w)).
Proof.
  intros Hp Hl Hs Ht Hok. destruct w. cbn. apply store_ok_with_update; [exact Hok | exact Hp |].
  intros x _ _. now apply row_ok_003_same.
Qed.

Lemma quick_reply_keeps_003 from lower u :
  keeps (fun w => store_ok_003 (users w)) (quick_reply E from lower u).
Proof.
  keeps_auto; try (simpl; assumption).
  all: now apply keeps_store_patch.
Qed.


Lemma pdf_branch_keeps_003 from mediaUrl mediaSize u isFree :
  keeps (fun w => store_ok_003 (users w)) (pdf_branch E from mediaUrl mediaSize u isFree).
Proof.
  unfold pdf_branch. destruct (_ <? _); [keeps_auto; simpl; assumption|].
  apply keeps_bind; [keeps_auto|]. intros resp. cbv zeta.
  apply keeps_bind; [keeps_auto; simpl; assumption|]. intros [pdfText|]; [|apply keeps_ret].
  destruct (_ <? _); [keeps_auto; simpl; assumption|].
  apply keeps_bind; [apply translate_all_keeps|]. intros pieces.
  keeps_auto; try (simpl; assumption).
  all: now apply keeps_store_patch.
Qed.

Lemma translation_phase_keeps_003 cols from text num mediaUrl u isFree :
  keeps (fun w => store_ok_003 (users w))
        (translation_phase_with E cols from text num mediaUrl u isFree).
Proof.
  unfold translation_phase_with.
  apply keeps_bind; [apply (acquire_keeps E (fun a _ _ _ => store_ok_003 a))|]. intros od.
  cbv zeta. destruct (String.eqb _ _); [keeps_auto; simpl; assumption|].
  apply keeps_bind; [keeps_auto|]. intros translated.
  apply keeps_bind.
  { destruct isFree; [|apply keeps_ret]. apply keeps_modify. intros w. now apply keeps_store_patch. }
  intros _. apply keeps_bind; [keeps_auto; simpl; assumption|]. intros _.
  apply (reply_keeps E (fun a _ => store_ok_003 a)).
Qed.

(** The wizard of [part_003] on the sender's row: each step patches the row
    in a way the store invariant allows. *)
Lemma wizard_keeps_003 from text lower u rest w :
  select_single (by_phone from) (users w) = Some u ->
  keeps (fun w => store_ok_003 (users w)) rest ->
  store_ok_003 (users w) ->
  store_ok_003 (users (after (wizard E from text lower u rest) w)).
Proof.
  intros Hu Hrest Hok. destruct (select_single_unique _ _ _ Hu) as (Hin & Hp & Huniq).
  assert (Hru : row_ok_003 u).
  { destruct Hok as [_ Hr]. rewrite List.Forall_forall in Hr. auto. }
  assert (Hk : forall A (m : M A),
            keeps (fun w => store_ok_003 (users w)) m -> store_ok_003 (users (after m w)))
    by (intros A m K; now apply K).
  assert (Hsend : forall A (m : M A) f,
            keeps (fun w => store_ok_003 (users w)) m ->
            (forall x, phone_number (f x) = phone_number x) ->
            row_ok_003 (f u) ->
            store_ok_003 (users (after (db_update (by_phone from) f ;;; m) w))).
  { intros A m f Hm Hf Hrow. rewrite after_bind. cbn [outcome db_update modify fst].
    apply Hm. destruct w. cbn. apply store_ok_with_update; [exact Hok | exact Hf |].
    intros x Hx Hpx _. now rewrite (Huniq x Hx Hpx). }
  unfold wizard.
  destruct (String.eqb (language_step u) "target") eqn:H1.
  { apply String.eqb_eq in H1.
    destruct (pickLang text) as [c|]; [|apply Hk; keeps_auto; simpl; assumption].
    apply Hsend; [keeps_auto; simpl; assumption | reflexivity |].
    destruct Hru as [Hs _].
    unfold row_ok_003. simpl. rewrite (Hs H1). split; [reflexivity | discriminate]. }
  destruct (String.eqb (language_step u) "source") eqn:H2.
  { destruct (pickLang text) as [c|]; [|apply Hk; keeps_auto; simpl; assumption].
    destruct (Js.seq (code c) (target_lang u)) eqn:Hs;
      [apply Hk; keeps_auto; simpl; assumption|].
    apply Hsend; [keeps_auto; simpl; assumption | reflexivity |].
    unfold row_ok_003. simpl. split; [discriminate|].
    intros s t [= <-] Ht. now apply not_eq_sym, (seq_false (code c) (target_lang u)). }
  destruct (String.eqb (language_step u) "gender") eqn:H3; [|now apply Hk].
  destruct (pick_gender lower) as [g|]; [|apply Hk; keeps_auto; simpl; assumption].
  apply Hsend; [keeps_auto; simpl; assumption | reflexivity |].
  destruct Hru as [_ Hd].
  unfold row_ok_003. simpl. split; [discriminate | exact Hd].
Qed.

Lemma dispatch_store_ok_003 from text num mediaUrl mediaType mediaSize u w :
  select_single (by_phone from) (users w) = Some u ->
  store_ok_003 (users w) ->
  store_ok_003 (users (after (dispatch E from text num mediaUrl mediaType mediaSize u) w)).
Proof.
  intros Hu Hok.
  assert (Hk : forall A (m : M A),
            keeps (fun w => store_ok_003 (users w)) m -> store_ok_003 (users (after m w)))
    by (intros A m K; now apply K).
  unfold dispatch. cbv zeta.
  destruct (_ && _); [apply Hk, quick_reply_keeps_003|].
  destruct (is_reset _).
  { apply Hk. unfold reset. apply keeps_bind; [|intros _; keeps_auto; simpl; assumption].
    apply keeps_modify. intros w0 H0. destruct w0. cbn in *.
    apply store_ok_with_update; [assumption | reflexivity |].
    intros x _ _ _. unfold row_ok_003. simpl. split; [reflexivity | discriminate]. }
  destruct (_ && _); [apply Hk; keeps_auto; simpl; assumption|].
  apply wizard_keeps_003; [exact Hu | | exact Hok].
  destruct (incomplete u); [keeps_auto; simpl; assumption|].
  destruct (_ && _); [apply pdf_branch_keeps_003 | apply translation_phase_keeps_003].
Qed.

Lemma handle_store_ok_003 from text num mediaUrl mediaType mediaSize w :
  store_ok_003 (users w) ->
  store_ok_003 (users (after (handleIncoming E from text num mediaUrl mediaType mediaSize) w)).
Proof.
  intros Hok. unfold handleIncoming. destruct (String.eqb from ""); [exact Hok|].
  rewrite after_bind. cbn [outcome after get_world fst snd].
  destruct (select_single (by_phone from) (users w)) as [u|] eqn:Hs.
  - now apply dispatch_store_ok_003.
  - pose proof (select_none_absent _ _ (proj1 Hok) Hs) as Hnil.
    rewrite after_bind. cbn [outcome modify fst]. unfold after at 2. cbn [modify snd].
    assert (K : keeps (fun w => store_ok_003 (users w)) (sendMessage from (Lit WELCOME_MSG) None))
      by (keeps_auto; simpl; assumption).
    apply K. destruct w. cbn in *. unfold upsert_by_phone.
    rewrite (filter_nil_existsb _ _ Hnil).
    apply (store_ok_with_append row_ok_003 from); [exact Hok | exact Hnil | reflexivity |].
    unfold row_ok_003. simpl. split; [reflexivity | discriminate].
Qed.

Lemma webhook_store_ok_003 body sig w :
  store_ok_003 (users w) -> store_ok_003 (users (after (stripe_webhook E body sig) w)).
Proof.
  revert w. change (keeps (fun w => store_ok_003 (users w)) (stripe_webhook E body sig)).
  keeps_auto; try assumption.
  all: now apply keeps_store_patch.
Qed.

End Part003Store.

Lemma reachable_store_ok_003 w : reachable_003 w -> store_ok_003 (users w).
Proof.
  induction 1 as [w H|w w' _ IH Hstep].
  - rewrite H. split; [apply List.NoDup_nil | apply List.Forall_nil].
  - destruct Hstep; [now apply handle_store_ok_003 | now apply webhook_store_ok_003].
Qed.

Section Part003Routing.

Import Part003.

Variable E : Env.

Lemma handle_known_003 from text num mediaUrl mediaType mediaSize w u :
  from <> "" ->
  select_single (by_phone from) (users w) = Some u ->
  handleIncoming E from text num mediaUrl mediaType mediaSize w
  = dispatch E from text num mediaUrl mediaType mediaSize u w.
Proof.
  intros Hf H. unfold handleIncoming. rewrite (eqb_empty_false _ Hf).
  unfold bind, get_world. now rewrite H.
Qed.

(** A sender under the quota whose text is no reset command is handed to
    the wizard. *)
Lemma dispatch_wizard_003 from text num mediaUrl mediaType mediaSize u :
  over_quota_003 u = false ->
  is_reset (Js.toLowerCase (Js.trim text)) = false ->
  exists rest,
    dispatch E from text num mediaUrl mediaType mediaSize u
    = wizard E from text (Js.toLowerCase (Js.trim text)) u rest.
Proof.
  intros Hq Hr. unfold dispatch. cbv zeta. unfold over_quota_003 in Hq.
  rewrite <- andb_assoc, Hq, andb_false_r, Hr. eexists. reflexivity.
Qed.

End Part003Routing.

(** ** Usage and credits ([part_003]) *)

Section Part003Credits.

Import Part003.

Variable E : Env.

(** A computation that leaves both tables alone can be skipped when
    following what happens to them. *)
Lemma tables_bind {A B} (m : M A) (k : A -> M B) (Q : world -> Prop) w :
  (forall P, keeps (fun w => P (users w) (translations w)) m) ->
  (forall w1, users w1 = users w -> translations w1 = translations w ->
     Q w1 /\ forall a, Q (after (k a) w1)) ->
  Q (after (bind m k) w).
Proof.
  intros K H. rewrite after_bind.
  assert (Hw : users (after m w) = users w /\ translations (after m w) = translations w)
    by (now apply (K (fun a b => a = users w /\ b = translations w))).
  destruct Hw as [Hu Ht]. destruct (H _ Hu Ht) as [H1 H2].
  destruct (outcome m w); [apply H2 | exact H1].
Qed.

Lemma pdf_branch_effect from mediaUrl mediaSize u w0 w :
  users w = users w0 -> translations w = translations w0 ->
  log_kept_or_charged from u w0 (after (pdf_branch E from mediaUrl mediaSize u (is_free u)) w).
Proof.
  intros Hu Ht.
  assert (Hkeep : forall A (m : M A) w1,
            translations w1 = translations w0 ->
            (forall P, keeps (fun w => P (users w) (translations w)) m) ->
            log_kept_or_charged from u w0 (after m w1)).
  { intros A m w1 H1 K. left. now apply (K (fun _ b => b = translations w0)). }
  unfold pdf_branch.
  destruct (_ <? _); [apply Hkeep; [exact Ht | intros P; keeps_auto; simpl; assumption]|].
  apply tables_bind; [intros P; keeps_auto|]. intros w1 Hu1 Ht1.
  split; [left; congruence|]. intros resp. cbv zeta.
  apply tables_bind; [intros P; keeps_auto; simpl; assumption|]. intros w2 Hu2 Ht2.
  split; [left; congruence|]. intros [pdfText|]; [|left; cbn; congruence].
  destruct (_ <? _); [apply Hkeep; [congruence | intros P; keeps_auto; simpl; assumption]|].
  apply tables_bind; [intros P; apply translate_all_keeps|]. intros w3 Hu3 Ht3.
  split; [left; congruence|]. intros pieces. cbv zeta.
  apply tables_bind; [intros P; keeps_auto; simpl; assumption|]. intros w4 Hu4 Ht4.
  split; [left; congruence|]. intros [newPdf|]; [|left; cbn; congruence].
  apply tables_bind; [intros P; keeps_auto; simpl; assumption|]. intros w5 Hu5 Ht5.
  split; [left; congruence|]. intros [url|]; [|left; cbn; congruence].
  right. exists (Translation (randomUUID E (uuids w5)) from "[PDF]" "[PDF]"
                   (default "" (source_lang u)) (target_lang u) (Some 3) (Some "PDF")), 3.
  assert (Hus : users w5 = users w0) by congruence.
  assert (Hts : translations w5 = translations w0) by congruence.
  destruct (is_free u); cbn; rewrite Hus, Hts; repeat split; auto.
Qed.


Lemma translation_phase_charged from text num mediaUrl u w :
  log_kept_or_charged from u w
    (after (translation_phase_with E
              (fun n => (Some 1, Some (if 0 <? n then "AUDIO" else "TEXT")))
              from text num mediaUrl u (is_free u)) w).
Proof.
  destruct (translation_phase_with_effect E
              (fun n => (Some 1, Some (if 0 <? n then "AUDIO" else "TEXT")))
              from text num mediaUrl u (is_free u) w)
    as [[_ Ht]|(o & d & x & i & _ & _ & Ht & Hu)]; [now left|].
  right. eexists _, 1. split; [exact Ht|]. cbn [log_phone_number credits_used file_type fst snd].
  split; [reflexivity|]. split; [reflexivity|]. split; [|exact Hu].
  right. split; [|reflexivity]. destruct (0 <? num); [now left | now right].
Qed.

Lemma dispatch_charged from text num mediaUrl mediaType mediaSize u w :
  log_kept_or_charged from u w
    (after (dispatch E from text num mediaUrl mediaType mediaSize u) w).
Proof.
  assert (Hkeep : forall A (m : M A),
            (forall c, keeps (fun w => translations w = c) m) ->
            log_kept_or_charged from u w (after m w)).
  { intros A m K. left. now apply (keeps_eq translations). }
  unfold dispatch. cbv zeta.
  destruct (_ && _); [apply Hkeep; intros c; keeps_auto; simpl; assumption|].
  destruct (is_reset _); [apply Hkeep; intros c; keeps_auto; simpl; assumption|].
  destruct (_ && _); [apply Hkeep; intros c; keeps_auto; simpl; assumption|].
  unfold wizard.
  destruct (String.eqb _ _); [apply Hkeep; intros c; keeps_auto; simpl; assumption|].
  destruct (String.eqb _ _); [apply Hkeep; intros c; keeps_auto; simpl; assumption|].
  destruct (String.eqb _ _); [apply Hkeep; intros c; keeps_auto; simpl; assumption|].
  destruct (incomplete u); [apply Hkeep; intros c; keeps_auto; simpl; assumption|].
  destruct (_ && _); [now apply pdf_branch_effect | apply translation_phase_charged].
Qed.

End Part003Credits.

(** X5.  Usage follows credits in [part_003].  A message of a known sender
    writes at most one log row; the row carries three credits when it is
    for a PDF and one when it is for a text or a voice note, and the usage
    count of a free sender grows by exactly the row's credits (a paying
    sender's row is left as it was). *)
Theorem usage_matches_credits_003 E from text num mediaUrl mediaType mediaSize w u :
  from <> "" ->
  select_single (by_phone from) (users w) = Some u ->
  let w' := after (Part003.handleIncoming E from text num mediaUrl mediaType mediaSize) w in
  translations w' = translations w
  \/ exists row n,
       translations w' = translations w ++ [row]
       /\ log_phone_number row = from
       /\ credits_used row = Some n
       /\ (file_type row = Some "PDF" /\ n = 3
           \/ (file_type row = Some "AUDIO" \/ file_type row = Some "TEXT") /\ n = 1)
       /\ select_single (by_phone from) (users w') =
            Some (if Part003.is_free u then set_free_used (free_used u + n) u else u).
Proof.
  intros Hf Hu w'. subst w'. unfold after. rewrite (handle_known_003 E _ _ _ _ _ _ _ _ Hf Hu).
  destruct (dispatch_charged E from text num mediaUrl mediaType mediaSize u w)
    as [H|(row & n & Ht & Hp & Hc & Hk & Hus)]; [now left|].
  right. exists row, n. unfold after in *. repeat (split; [assumption|]).
  rewrite Hus. destruct (Part003.is_free u); [|exact Hu].
  rewrite (select_single_update (by_phone from) (by_phone from)
             (set_free_used (free_used u + n)) _ u (fun x => eq_refl) Hu).
  now rewrite (proj1 (proj2 (select_single_unique _ _ _ Hu))).
Qed.

Lemma usage_matches_credits_003_witness :
  let w := Sample.world_of [Sample.ready 4] in
  let w' := after (Part003.handleIncoming Sample.vendors "+1555" "" 1
                     (Some "https://media/1") "application/pdf" 1000) w in
  (translations w' = translations w
   \/ exists row n,
        translations w' = translations w ++ [row]
        /\ log_phone_number row = "+1555"
        /\ credits_used row = Some n
        /\ (file_type row = Some "PDF" /\ n = 3
            \/ (file_type row = Some "AUDIO" \/ file_type row = Some "TEXT") /\ n = 1)
        /\ select_single (by_phone "+1555") (users w') =
             Some (if Part003.is_free (Sample.ready 4)
                   then set_free_used (free_used (Sample.ready 4) + n) (Sample.ready 4)
                   else Sample.ready 4))
  /\ users w' = [Sample.ready 7]
  /\ map file_type (translations w') = [Some "PDF"]
  /\ map msg_payload (outbox w') =
       [Body (Lit "✅ Translation complete – here’s your file:");
        MediaUrl "https://db.example/storage/v1/object/public/pdf-translations/pdf_id0.pdf"].
Proof.
  assert (Hf : "+1555" <> "") by discriminate.
  split.
  - exact (usage_matches_credits_003 Sample.vendors "+1555" "" 1 (Some "https://media/1")
             "application/pdf" 1000 (Sample.world_of [Sample.ready 4]) (Sample.ready 4)
             Hf eq_refl).
  - vm_compute. repeat split.
Defined.

(** C4.  Source and target language differ.  In every row of every
    reachable store that holds both a source and a target language the two
    differ, for the handler of [part_000] and for that of [part_003], each
    with its billing webhook.  In [part_000] the sender's language is
    stored first: at the receive-language step (for a sender the routing
    lets through to the wizard) a selection equal to the source language is
    answered with the must-differ text and changes no row; any other
    selection is stored as target language and moves the row to the gender
    step.  In [part_003] the order is the other one, and the same holds of
    the source-language step against the stored target language.  So the
    second language is stored only when it differs from the first. *)
Theorem languages_differ_invariant :
  (forall w, reachable w ->
     forall u s t, In u (users w) ->
       source_lang u = Some s -> target_lang u = Some t -> s <> t)
  /\ (forall E from text num mediaUrl w u c,
        from <> "" ->
        select_single (by_phone from) (users w) = Some u ->
        language_step u = "target" ->
        over_quota u = false -> is_reset text = false ->
        pickLang text = Some c ->
        let w' := after (Part000.handleIncoming E from text num mediaUrl) w in
        let ui := Part000.ui_of u in
        (source_lang u = Some (code c) ->
           users w' = users w
           /\ outbox w' =
                outbox w ++
                  [OutMsg from
                     (Body (Cat (Cat (Part000.tr ui "targetDiff") (Lit LF))
                                (Part000.menuMsg (Part000.tr ui "receive"))))])
        /\ (source_lang u <> Some (code c) ->
              select_single (by_phone from) (users w') = Some (target_patch (code c) u)
              /\ target_lang (target_patch (code c) u) = Some (code c)
              /\ language_step (target_patch (code c) u) = "gender"))
  /\ (forall w, reachable_003 w ->
        forall u s t, In u (users w) ->
          source_lang u = Some s -> target_lang u = Some t -> s <> t)
  /\ (forall E from text num mediaUrl mediaType mediaSize w u c,
        from <> "" ->
        select_single (by_phone from) (users w) = Some u ->
        language_step u = "source" ->
        over_quota_003 u = false ->
        is_reset (Js.toLowerCase (Js.trim text)) = false ->
        Part003.pickLang text = Some c ->
        let w' := after (Part003.handleIncoming E from text num mediaUrl mediaType mediaSize) w in
        (target_lang u = Some (code c) ->
           users w' = users w
           /\ outbox w' =
                outbox w ++
                  [OutMsg from
                     (Body (Lit (Part003.menuMsg
                                   ("⚠️ Source must differ." +:+ LF +:+ "Languages:"))))])
        /\ (target_lang u <> Some (code c) ->
              select_single (by_phone from) (users w') = Some (source_patch_003 (code c) u)
              /\ source_lang (source_patch_003 (code c) u) = Some (code c)
              /\ language_step (source_patch_003 (code c) u) = "gender")).
Proof.
  split; [|split; [|split]].
  - intros w Hr u s t Hin. destruct (reachable_store_ok w Hr) as [_ Hall].
    rewrite List.Forall_forall in Hall. now apply (Hall u Hin).
  - intros E from text num mediaUrl w u c Hf Hu Hstep Hq Hr Hc w' ui. subst w' ui.
    unfold after. rewrite (handle_known E _ _ _ _ _ _ Hf Hu).
    assert (Hw : in_wizard u = true) by (unfold in_wizard; now rewrite Hstep).
    destruct (dispatch_cases E from text num mediaUrl u)
      as [(_ & Hq' & _)|[(Hr' & _)|[(_ & _ & Hq' & _)|[(_ & _ & _ & ->)
         |[(_ & _ & Hw' & _)|(_ & _ & Hw' & _)]]]]]; try congruence.
    unfold Part000.wizard. rewrite Hstep, Hc. cbn [String.eqb Ascii.eqb Bool.eqb].
    destruct (Js.seq (code c) (source_lang u)) eqn:Hs.
    + apply seq_true in Hs. split; [intros _; now split | intros N; now destruct N].
    + split.
      * intros Hsrc. apply seq_true in Hsrc. congruence.
      * intros _. cbn.
        rewrite (select_single_update (by_phone from) (by_phone from)
                   (fun u0 => set_language_step "gender" (set_target_lang (Some (code c)) u0))
                   _ u (fun x => eq_refl) Hu).
        rewrite (proj1 (proj2 (select_single_unique _ _ _ Hu))). now repeat split.
  - intros w Hr u s t Hin. destruct (reachable_store_ok_003 w Hr) as [_ Hall].
    rewrite List.Forall_forall in Hall. now apply (Hall u Hin).
  - intros E from text num mediaUrl mediaType mediaSize w u c Hf Hu Hstep Hq Hr Hc w'.
    subst w'. unfold after at 1 2 3. rewrite (handle_known_003 E _ _ _ _ _ _ _ _ Hf Hu).
    destruct (dispatch_wizard_003 E from text num mediaUrl mediaType mediaSize u Hq Hr)
      as [rest ->].
    unfold Part003.wizard. rewrite Hstep, Hc. cbn [String.eqb Ascii.eqb Bool.eqb].
    destruct (Js.seq (code c) (target_lang u)) eqn:Hs.
    + apply seq_true in Hs. split; [intros _; now split | intros N; now destruct N].
    + split.
      * intros Ht. apply seq_true in Ht. congruence.
      * intros _. split; [|now split].
        match goal with |- context [bind (db_update ?p ?f) ?k] =>
          fold (after (bind (db_update p f) k) w); rewrite (after_bind (db_update p f) k) end.
        cbn [outcome db_update modify fst].
        match goal with |- select_single _ (users (after ?m ?w0)) = _ =>
          rewrite (keeps_eq users m) end.
        2:{ intros d. keeps_auto; simpl; assumption. }
        unfold after. cbn [db_update modify snd]. unfold with_users. cbn [users].
        rewrite (select_single_update (by_phone from) (by_phone from)
                   (fun u0 => set_language_step "gender" (set_source_lang (Some (code c)) u0))
                   _ u (fun x => eq_refl) Hu).
        now rewrite (proj1 (proj2 (select_single_unique _ _ _ Hu))).
Qed.

Lemma languages_differ_invariant_witness :
  let w0 := Sample.world_of [] in
  let w1 := after (Part000.handleIncoming Sample.vendors "+1555" "3" 0 None) w0 in
  let w2 := after (Part000.handleIncoming Sample.vendors "+1555" "fr" 0 None) w1 in
  let w3 := after (Part000.handleIncoming Sample.vendors "+1555" "es" 0 None) w2 in
  let v1 := after (Part003.handleIncoming Sample.vendors "+1555" "hola" 0 None "" 0) w0 in
  let v2 := after (Part003.handleIncoming Sample.vendors "+1555" "2" 0 None "" 0) v1 in
  let v3 := after (Part003.handleIncoming Sample.vendors "+1555" "es" 0 None "" 0) v2 in
  let v4 := after (Part003.handleIncoming Sample.vendors "+1555" "en" 0 None "" 0) v3 in
  (reachable w3
   /\ users w2 = users w1
   /\ users w3 = [Sample.row "gender" (Some "fr") (Some "fr") (Some "es") None 0]
   /\ "fr" <> "es")
  /\ (reachable_003 v4
      /\ users v3 = users v2
      /\ users v4 = [Sample.row "gender" None (Some "en") (Some "es") None 0]
      /\ "en" <> "es").
Proof.
  assert (R : reachable
                (after (Part000.handleIncoming Sample.vendors "+1555" "es" 0 None)
                   (after (Part000.handleIncoming Sample.vendors "+1555" "fr" 0 None)
                      (after (Part000.handleIncoming Sample.vendors "+1555" "3" 0 None)
                         (Sample.world_of []))))).
  { repeat (eapply reach_step; [|apply step_message]). now apply reach_start. }
  assert (R3 : reachable_003
                 (after (Part003.handleIncoming Sample.vendors "+1555" "en" 0 None "" 0)
                    (after (Part003.handleIncoming Sample.vendors "+1555" "es" 0 None "" 0)
                       (after (Part003.handleIncoming Sample.vendors "+1555" "2" 0 None "" 0)
                          (after (Part003.handleIncoming Sample.vendors "+1555" "hola" 0 None "" 0)
                             (Sample.world_of [])))))).
  { repeat (eapply reach_step_003; [|apply step_message_003]). now apply reach_start_003. }
  split.
  - split; [exact R|]. split; [vm_compute; reflexivity|]. split; [vm_compute; reflexivity|].
    apply (proj1 languages_differ_invariant _ R
             (Sample.row "gender" (Some "fr") (Some "fr") (Some "es") None 0)).
    + vm_compute. now left.
    + reflexivity.
    + reflexivity.
  - split; [exact R3|]. split; [vm_compute; reflexivity|]. split; [vm_compute; reflexivity|].
    apply (proj1 (proj2 (proj2 languages_differ_invariant)) _ R3
             (Sample.row "gender" None (Some "en") (Some "es") None 0)).
    + vm_compute. now left.
    + reflexivity.
    + reflexivity.
Defined.

(** ** The usage counter *)

Lemma effect_free_used from u0 db db' :
  select_single (by_phone from) db = Some u0 ->
  effect from u0 db db' ->
  forall i u, nth_error db i = Some u ->
    exists u', nth_error db' i = Some u'
      /\ (free_used u' = free_used u
          \/ (free_used u' = free_used u + 1 /\ phone_number u = from)).
Proof.
  intros Hu Heff i u Hi.
  destruct (select_single_unique _ _ _ Hu) as (_ & _ & Huniq).
  assert (Hin : In u db) by (eapply nth_error_In; exact Hi).
  destruct Heff as [|c| |c Hs|c Hs Hd|g Hs|Hf];
    [exists u; split; [exact Hi | now left] | ..];
    unfold update_where; rewrite nth_error_map, Hi; cbn [option_map];
    eexists; (split; [reflexivity|]);
    try (match goal with |- context [if ?b then _ else _] => destruct b end; left; reflexivity).
  destruct (by_phone from u) eqn:Hp; [|now left].
  right. split; [now rewrite (Huniq u Hin Hp) | now apply by_phone_refl].
Qed.

Lemma plan_of_tier_bought tier : bought tier (Some (Part000.plan_of_tier tier)).
Proof.
  unfold bought, Part000.plan_of_tier.
  destruct (Js.seq "monthly" tier) eqn:Hm.
  - apply seq_true in Hm. subst tier. repeat split; congruence.
  - destruct (Js.seq "annual" tier) eqn:Ha.
    + apply seq_true in Ha. subst tier. repeat split; congruence.
    + repeat split; try reflexivity; intros ->; discriminate.
Qed.

(** C7.  The usage counter is put back to zero by a completed checkout and
    by nothing else.  (1) A verified "checkout completed" event gives every
    row it selects (by customer id, or by the fallback id) the plan the
    purchased tier buys (MONTHLY for the tier monthly, ANNUAL for the tier
    annual, LIFETIME otherwise) and a counter of zero, and leaves the other
    rows as they are.  (2) A verified "subscription deleted" event sets the
    plan of the rows it selects to FREE and changes no counter.  (3) Any
    other request to the billing webhook changes no row.  (4) An inbound
    message leaves the counter of every existing row as it is or adds one
    to it, and adds one only to the sender's row. *)
Theorem free_used_reset_only_on_activation :
  (forall E body sig w tier uid cust sub,
     constructEvent E body sig (STRIPE_WEBHOOK_SECRET E) =
       Some (checkout_session_completed tier uid cust sub) ->
     forall i u, nth_error (users w) i = Some u ->
       exists u',
         nth_error (users (after (Part000.stripe_webhook E body sig) w)) i = Some u'
         /\ if by_cust cust u || fallback_hits E uid cust (users w) u
            then bought tier (plan u') /\ free_used u' = 0
            else u' = u)
  /\ (forall E body sig w sid,
        constructEvent E body sig (STRIPE_WEBHOOK_SECRET E) =
          Some (customer_subscription_deleted sid) ->
        forall i u, nth_error (users w) i = Some u ->
          exists u',
            nth_error (users (after (Part000.stripe_webhook E body sig) w)) i = Some u'
            /\ free_used u' = free_used u
            /\ if by_sub sid u then plan u' = Some "FREE" else u' = u)
  /\ (forall E body sig w,
        (forall tier uid cust sub,
            constructEvent E body sig (STRIPE_WEBHOOK_SECRET E) <>
              Some (checkout_session_completed tier uid cust sub)) ->
        (forall sid,
            constructEvent E body sig (STRIPE_WEBHOOK_SECRET E) <>
              Some (customer_subscription_deleted sid)) ->
        users (after (Part000.stripe_webhook E body sig) w) = users w)
  /\ (forall E from text num mediaUrl w,
        List.NoDup (map phone_number (users w)) ->
        forall i u, nth_error (users w) i = Some u ->
          exists u',
            nth_error (users (after (Part000.handleIncoming E from text num mediaUrl) w)) i
              = Some u'
            /\ (free_used u' = free_used u
                \/ (free_used u' = free_used u + 1 /\ phone_number u = from))).
Proof.
  split; [|split; [|split]].
  - intros E body sig w tier uid cust sub Hc i u Hi.
    rewrite (webhook_checkout_users E _ _ _ _ _ _ _ Hc), nth_error_map, Hi. simpl.
    eexists. split; [reflexivity|].
    destruct (by_cust cust u); simpl; [split; [apply plan_of_tier_bought | reflexivity]|].
    destruct (fallback_hits E uid cust (users w) u);
      [split; [apply plan_of_tier_bought | reflexivity] | reflexivity].
  - intros E body sig w sid Hc i u Hi.
    rewrite (webhook_deleted_users E _ _ _ _ Hc), nth_error_map, Hi. simpl.
    eexists. split; [reflexivity|]. now destruct (by_sub sid u).
  - intros E body sig w H1 H2. now apply webhook_other_users.
  - intros E from text num mediaUrl w Hn i u Hi.
    destruct (handle_effect E from text num mediaUrl w Hn)
      as [->|(u0 & db0 & Hdb0 & Hsel & Heff)]; [exists u; split; [exact Hi | now left]|].
    apply (effect_free_used from u0 db0 _ Hsel Heff).
    destruct Hdb0 as [->|[_ ->]]; [exact Hi|].
    rewrite nth_error_app1; [exact Hi|]. apply nth_error_Some. congruence.
Qed.

Lemma free_used_reset_only_on_activation_witness :
  let paid := User 1 "+1555" "ready" (Some "en") (Some "en") (Some "es") (Some "FEMALE")
                (Some "FREE") 5 (Some "cus_1") None in
  let w := Sample.world_of [paid] in
  let checkout tier := checkout_session_completed (Some tier) None "cus_1" (Some "sub_1") in
  let bill ev := Part000.stripe_webhook (Sample.vendors_signed "good" ev) "{}" (Some "good") in
  let billing w' := map (fun u => (plan u, free_used u)) (users w') in
  let w1 := after (bill (checkout "annual")) w in
  let w2 := after (Part000.handleIncoming Sample.vendors "+1555" "Hola" 0 None) w1 in
  let w3 := after (bill (customer_subscription_deleted "sub_1")) w2 in
  billing w = [(Some "FREE", 5)]
  /\ billing (after (bill (checkout "monthly")) w) = [(Some "MONTHLY", 0)]
  /\ billing w1 = [(Some "ANNUAL", 0)]
  /\ billing (after (bill (checkout "life")) w) = [(Some "LIFETIME", 0)]
  /\ billing w2 = [(Some "ANNUAL", 0)]
  /\ billing w3 = [(Some "FREE", 0)]
  /\ (exists u', nth_error (users (after (bill (checkout "monthly")) w)) 0 = Some u'
                 /\ plan u' = Some "MONTHLY" /\ free_used u' = 0)
  /\ (exists u', nth_error (users w1) 0 = Some u'
                 /\ plan u' = Some "ANNUAL" /\ free_used u' = 0)
  /\ (exists u', nth_error (users (after (bill (checkout "life")) w)) 0 = Some u'
                 /\ plan u' = Some "LIFETIME" /\ free_used u' = 0).
Proof.
  cbv zeta.
  pose (paid := User 1 "+1555" "ready" (Some "en") (Some "en") (Some "es") (Some "FEMALE")
                  (Some "FREE") 5 (Some "cus_1") None).
  assert (T : forall tier,
             exists u',
               nth_error
                 (users (after (Part000.stripe_webhook
                                  (Sample.vendors_signed "good"
                                     (checkout_session_completed (Some tier) None "cus_1"
                                        (Some "sub_1")))
                                  "{}" (Some "good"))
                           (Sample.world_of [paid]))) 0 = Some u'
               /\ bought (Some tier) (plan u') /\ free_used u' = 0).
  { intros tier.
    exact (proj1 free_used_reset_only_on_activation
             (Sample.vendors_signed "good"
                (checkout_session_completed (Some tier) None "cus_1" (Some "sub_1")))
             "{}" (Some "good") (Sample.world_of [paid])
             (Some tier) None "cus_1" (Some "sub_1") eq_refl 0 paid eq_refl). }
  repeat (split; [vm_compute; reflexivity|]).
  split; [|split].
  - destruct (T "monthly") as (u' & H & (Hm & _ & _) & H0).
    exists u'. split; [exact H|]. split; [now apply Hm | exact H0].
  - destruct (T "annual") as (u' & H & (_ & Ha & _) & H0).
    exists u'. split; [exact H|]. split; [now apply Ha | exact H0].
  - destruct (T "life") as (u' & H & (_ & _ & Hl) & H0).
    exists u'. split; [exact H|]. split; [apply Hl; discriminate | exact H0].
Defined.

(** ** Synthesis, upload and the three-part reply *)

Section Synthesis.

Variable E : Env.

Lemma pickVoice_outcome lang gender w :
  outcome (pickVoice E lang gender) w =
    match catalogue E (voiceCache w) with
    | Some c => Ok (choose_voice c lang gender)
    | None => Throw (Error "voices")
    end.
Proof.
  unfold outcome, pickVoice, loadVoices, catalogue, bind, get_world.
  destruct (voiceCache w) as [c|] eqn:Hc; simpl; [now rewrite Hc|].
  destruct (list_voices E); reflexivity.
Qed.

Lemma synth_run text name w : synth E text name w = (synth_answer E text name, w).
Proof. unfold synth, synth_answer, bind, await. now destruct (synthesize E _ _ _). Qed.

(** Whether synthesis succeeds depends on the vendors and on the voice
    cache, and on nothing else of the world. *)
Lemma tts_outcome text lang gender w :
  outcome (tts E text lang gender) w =
    match catalogue E (voiceCache w) with
    | Some c => tiers E text (choose_voice c lang gender) lang
    | None => Throw (Error "voices")
    end.
Proof.
  unfold tts. rewrite outcome_bind, pickVoice_outcome.
  destruct (catalogue E (voiceCache w)) as [c|]; [|reflexivity].
  unfold tiers, outcome, bind. rewrite !synth_run.
  destruct (synth_answer E text (choose_voice c lang gender)) as [[b|]|e]; try reflexivity.
  rewrite !synth_run.
  destruct (synth_answer E text (interpolate lang)) as [[b|]|e]; try reflexivity.
  rewrite !synth_run.
  now destruct (synth_answer E text "en-US-Standard-A") as [[b|]|e].
Qed.

Lemma tts_outcome_cache text lang gender w1 w2 :
  voiceCache w1 = voiceCache w2 ->
  outcome (tts E text lang gender) w1 = outcome (tts E text lang gender) w2.
Proof. intros H. now rewrite !tts_outcome, H. Qed.

(** When no tier returns audio, synthesis fails. *)
Lemma tts_all_tiers_fail text lang gender w :
  (forall lc name r, synthesize E text lc name = Some r -> Js.truthy r = false) ->
  exists e, outcome (tts E text lang gender) w = Throw e.
Proof.
  intros Hno. rewrite tts_outcome.
  destruct (catalogue E (voiceCache w)) as [c|]; [|now eexists].
  assert (Hs : forall name, synth_answer E text name = Ok None
                            \/ exists e, synth_answer E text name = Throw e).
  { intros name. unfold synth_answer.
    destruct (synthesize E text _ name) as [r|] eqn:H; [|right; now eexists].
    left. now rewrite (Hno _ _ _ H). }
  unfold tiers.
  destruct (Hs (choose_voice c lang gender)) as [->|[e ->]]; [|now eexists].
  destruct (Hs (interpolate lang)) as [->|[e ->]]; [|now eexists].
  destruct (Hs "en-US-Standard-A") as [->|[e ->]]; now eexists.
Qed.

(** Synthesis and upload leave the tables and the outbound queue alone. *)
Lemma tts_keeps (P : list user -> list translation -> list outmsg -> Prop) text lang gender :
  keeps (fun w => P (users w) (translations w) (outbox w)) (tts E text lang gender).
Proof. keeps_auto; simpl; assumption. Qed.

Lemma uploadAudio_keeps (P : list user -> list translation -> list outmsg -> Prop) mp3 :
  keeps (fun w => P (users w) (translations w) (outbox w)) (uploadAudio E mp3).
Proof. keeps_auto; simpl; assumption. Qed.

Lemma uploaded_link_truthy mp3 w pub :
  outcome (uploadAudio E mp3) w = Ok pub -> Js.truthy (Some pub) = true.
Proof.
  unfold outcome, uploadAudio, bind, uuid. cbn [fst snd].
  set (fn := "tts_" +:+ _ +:+ ".mp3").
  assert (T : forall a b, Js.truthy (Some (a +:+ "/storage/v1/object/public/tts-voices/" +:+ b)) = true)
    by (intros [|] b; reflexivity).
  destruct (storage_upload E "tts-voices" 0 fn) as [m|].
  - destruct (Js.includes "bucket not found" (Js.fold_case m)).
    + unfold ensureBucket. destruct (createBucket E "tts-voices") as [c|].
      * destruct (String.eqb c "PGRST116"); cbn; [|discriminate].
        destruct (storage_upload E "tts-voices" 1 fn); cbn; [discriminate|]. intros [= <-]. apply T.
      * cbn. destruct (storage_upload E "tts-voices" 1 fn); cbn; [discriminate|]. intros [= <-]. apply T.
    + cbn. discriminate.
  - cbn. intros [= <-]. apply T.
Qed.

(** The "try" of the reply: the audio link is sent when synthesis and upload
    both succeed, and nothing is sent otherwise. *)
Lemma audio_part_outbox from translated dest gender w :
  outbox (after (try_catch
                   (mp3 <- tts E translated dest gender ;;
                    pub <- uploadAudio E mp3 ;;
                    sendMessage from (Lit "") (Some pub))
                   (fun _ => ret tt)) w) =
    outbox w ++
      match outcome (tts E translated dest gender) w with
      | Ok mp3 =>
          match outcome (uploadAudio E mp3) (after (tts E translated dest gender) w) with
          | Ok pub => [OutMsg from (MediaUrl pub)]
          | Throw _ => []
          end
      | Throw _ => []
      end.
Proof.
  set (m := bind (tts E translated dest gender) _).
  assert (Hcatch : after (try_catch m (fun _ => ret tt)) w = after m w).
  { unfold after, try_catch. now destruct (m w) as [[[]|e] w']. }
  rewrite Hcatch. subst m. rewrite after_bind.
  pose proof (tts_keeps (fun _ _ o => o = outbox w) translated dest gender w eq_refl) as Kt.
  cbn beta in Kt.
  destruct (outcome (tts E translated dest gender) w) as [mp3|e];
    [|now rewrite Kt, app_nil_r].
  rewrite after_bind.
  pose proof (uploadAudio_keeps (fun _ _ o => o = outbox w) mp3 _ Kt) as Ku. cbn beta in Ku.
  destruct (outcome (uploadAudio E mp3) (after (tts E translated dest gender) w)) as [pub|e] eqn:Hp;
    [|now rewrite Ku, app_nil_r].
  unfold after at 1, sendMessage, modify. rewrite (uploaded_link_truthy _ _ _ Hp).
  cbn. now rewrite Ku.
Qed.

End Synthesis.

(** ** The replies of the translation phase *)

Section Replies.

Variable E : Env.

(** A message that is acquired and translated is answered by the reply
    block, run with the outbound queue and the voice cache as they were. *)
Lemma translation_phase_reply from text num mediaUrl u isFree w original detected x :
  outcome (acquire E text num mediaUrl) w = Ok (original, detected) ->
  original <> "" ->
  completions_create E (interpolate (dest_of detected u)) original = Some x ->
  exists wr,
    outbox wr = outbox w /\ voiceCache wr = voiceCache w
    /\ after (translation_phase E from text num mediaUrl u isFree) w
       = after (reply E from original (Js.trim x) num (dest_of detected u) (voice_gender u)) wr.
Proof.
  intros Ha Ho Hx. unfold translation_phase, translation_phase_with.
  rewrite after_bind, Ha. cbn [fst snd].
  apply String.eqb_neq in Ho. rewrite Ho.
  rewrite after_bind, after_translate, outcome_translate, Hx.
  pose proof (acquire_keeps E (fun _ _ o c => o = outbox w /\ c = voiceCache w)
                text num mediaUrl w (conj eq_refl eq_refl)) as [Ko Kc].
  destruct isFree; rewrite !after_bind; cbn [outcome db_update ret modify logRow bind uuid fst snd];
    eexists; (split; [|split; [|reflexivity]]); cbn; assumption.
Qed.

Lemma acquire_text text mediaUrl w d :
  text <> "" -> detect E text = Some d ->
  outcome (acquire E text 0 mediaUrl) w = Ok (text, Js.slice0 2 d).
Proof.
  intros Ht Hd. apply String.eqb_neq in Ht. unfold outcome, acquire, bind, detectLang.
  cbn [Nat.ltb Nat.leb andb]. rewrite Ht, Hd. reflexivity.
Qed.

Lemma acquire_media text num url w :
  0 < num -> url <> "" ->
  acquire E text num (Some url) w = transcribe_media E url w.
Proof.
  intros Hn Hu. unfold acquire. apply Nat.ltb_lt in Hn. rewrite Hn.
  apply String.eqb_neq in Hu. cbn. now rewrite Hu.
Qed.

End Replies.

(** What routes a sender to the translation phase in [part_000]. *)
Lemma ready_to_translate E from text num mediaUrl w u :
  from <> "" ->
  select_single (by_phone from) (users w) = Some u ->
  language_step u = "ready" ->
  Part000.incomplete u = false -> over_quota u = false -> is_reset text = false ->
  Part000.handleIncoming E from text num mediaUrl w
    = translation_phase E from text num mediaUrl u (Part000.is_free u) w.
Proof.
  intros Hf Hu Hs Hi Hq Hr. rewrite (handle_known E _ _ _ _ _ _ Hf Hu).
  assert (Hw : in_wizard u = false) by (unfold in_wizard; now rewrite Hs).
  destruct (dispatch_cases E from text num mediaUrl u)
    as [(_ & Hq' & _)|[(Hr' & _)|[(_ & _ & Hq' & _)|[(_ & _ & Hw' & _)
       |[(_ & _ & _ & Hi' & _)|(_ & _ & _ & _ & ->)]]]]]; congruence.
Qed.

(** ** The gender step *)





(** ** Temporary files of the media branch *)

(** C9 fails on the code: the transcoding call stands before the [try]
    whose [finally] removes the two files.  A ready sender sends a voice
    note that the transcoder rejects: the handler ends with the
    transcoder's error, nothing is sent, and the downloaded file is still
    there. *)
Lemma raw_file_left_when_transcoding_fails :
  let w := Sample.world_of [Sample.ready 0] in
  let run := Part000.handleIncoming Sample.vendors_no_ffmpeg "+1555" ""
               1 (Some "https://media/1") in
  elements (files w) = []
  /\ outcome run w = Throw (Error "ffmpeg")
  /\ elements (files (after run w)) = ["/tmp/id0.ogg"]
  /\ outbox (after run w) = [].
Proof. vm_compute. repeat split. Qed.

(** X2.  Once the transcoder has written the WAV file, neither file outlives
    the media branch, whether transcription and detection succeed or not. *)
Lemma temp_files_removed_once_transcoded E url w ctype bytes :
  fetch_media E url = Some (ctype, bytes) ->
  let raw := "/tmp/" +:+ randomUUID E (uuids w) +:+ ext_of ctype in
  let wav := Js.replace (ext_of ctype) ".wav" raw in
  ffmpeg_ok E raw = true ->
  (raw ∉ files (after (transcribe_media E url) w))
  /\ (wav ∉ files (after (transcribe_media E url) w)).
Proof.
  intros Hfetch raw wav Hff.
  assert (H : forall p, p = raw \/ p = wav -> p ∉ files (after (transcribe_media E url) w)).
  { intros p Hp. unfold transcribe_media.
    rewrite after_bind. unfold outcome at 1, after at 2, await. rewrite Hfetch. cbn [ret fst snd].
    rewrite after_bind. cbn [outcome after uuid fst snd]. fold raw. fold wav.
    rewrite after_bind. cbn [outcome after writeFileSync modify fst snd].
    rewrite after_bind. unfold toWav at 1 2. rewrite Hff.
    cbn [outcome after bind modify ret fst snd].
    set (w3 := with_files _ (with_files _ (with_uuids _ w))).
    set (body := bind (whisper E wav) _).
    assert (Hbody : files (after body w3) = files w ∪ {[raw]} ∪ {[wav]}).
    { transitivity (files w3); [|reflexivity].
      apply (keeps_eq files). intros c. subst body. keeps_auto; simpl; assumption. }
    unfold after at 1, try_finally. rewrite (run_eta body w3).
    generalize dependent (after body w3). intros w4 Hw4.
    unfold bind, unlinkSync.
    destruct (decide (raw ∈ files w4)) as [_|N].
    2:{ exfalso. apply N. rewrite Hw4, !elem_of_union, elem_of_singleton. now left; right. }
    cbn [fst snd files with_files].
    destruct (decide (wav ∈ files w4 ∖ {[raw]})) as [Hin|Hout]; cbn [fst snd files with_files].
    - intros Hm. rewrite !elem_of_difference, !elem_of_singleton in Hm. tauto.
    - destruct Hp as [-> | ->]; [|exact Hout].
      intros Hm. rewrite elem_of_difference, elem_of_singleton in Hm. tauto. }
  split; apply H; auto.
Qed.

Lemma temp_files_removed_once_transcoded_witness :
  let w := Sample.world_of [Sample.ready 0] in
  fetch_media Sample.vendors "https://media/1" = Some ("audio/ogg", "bytes")
  /\ ffmpeg_ok Sample.vendors "/tmp/id0.ogg" = true
  /\ ("/tmp/id0.ogg" ∉ files (after (transcribe_media Sample.vendors "https://media/1") w))
  /\ ("/tmp/id0.wav" ∉ files (after (transcribe_media Sample.vendors "https://media/1") w)).
Proof.
  split; [reflexivity|]. split; [reflexivity|].
  apply (temp_files_removed_once_transcoded Sample.vendors "https://media/1"
           (Sample.world_of [Sample.ready 0]) "audio/ogg" "bytes"); reflexivity.
Defined.

(** ** Reset in [part_001] *)

(** C5 fails on [part_001], where the wizard steps are tested before the
    reset command: a
    sender at the receive-language step who types "reset" is answered with
    that step's prompt and keeps every field, while [part_000] resets the
    same row. *)
Lemma reset_ignored_mid_wizard :
  let u := Sample.row "receive" (Some "fr") (Some "fr") None None 0 in
  let w := Sample.world_of [u] in
  let w' := after (Part001.handleIncoming Sample.vendors "+1555" "reset" 0 None) w in
  is_reset "reset" = true
  /\ users w' = [u]
  /\ outbox w' = [OutMsg "+1555" (Body (Part001.ask_receive (Some "fr")))]
  /\ users (after (Part000.handleIncoming Sample.vendors "+1555" "reset" 0 None)
              (Sample.world_of [Sample.row "target" (Some "fr") (Some "fr") None None 0]))
       = [Sample.row "ui" None None None None 0].
Proof. vm_compute. repeat split. Qed.

(** * Further properties of the code *)

Lemma menu_get_in m k e : menu_get m k = Some e -> In e (map snd m).
Proof.
  induction m as [|[d x] r IH]; simpl; [discriminate|].
  destruct (String.eqb d k); [intros [= ->]; now left | right; auto].
Qed.

Lemma find_in {A} (p : A -> bool) l x : List.find p l = Some x -> In x l.
Proof. intros H. now apply find_some in H. Qed.

(** Whatever [pickLang] selects is an entry of the menu. *)
Lemma pickLang_in_menu text e : pickLang text = Some e -> In e (map snd MENU).
Proof.
  unfold pickLang. destruct (match_leading_digit text) as [d|].
  - destruct (menu_get MENU d) as [x|] eqn:Hx.
    + intros [= <-]. now apply (menu_get_in _ d).
    + apply find_in.
  - apply find_in.
Qed.

Lemma pickLang_code text e : pickLang text = Some e -> holds_code (Some (code e)).
Proof.
  intros H. exists (code e). split; [reflexivity|].
  apply pickLang_in_menu in H. unfold codes. rewrite in_map_iff in *.
  destruct H as ([d x] & Hx & Hin). exists (d, x). simpl in *. now subst.
Qed.

Lemma pick_gender_values text g :
  Part000.pick_gender text = Some g -> g = "MALE" \/ g = "FEMALE".
Proof.
  unfold Part000.pick_gender. destruct (Part000.female_re text); [intros [= <-]; now right|].
  destruct (Part000.male_re text); [intros [= <-]; now left | discriminate].
Qed.

Lemma row_sound_billing f x :
  free_used (f x) = free_used x -> plan (f x) = plan x ->
  ui_lang (f x) = ui_lang x ->
  language_step (f x) = language_step x ->
  source_lang (f x) = source_lang x -> target_lang (f x) = target_lang x ->
  voice_gender (f x) = voice_gender x ->
  row_sound x -> row_sound (f x).
Proof. unfold row_sound. intros -> -> -> -> -> -> ->. tauto. Qed.

Section Part000Sound.

Import Part000.

Variable E : Env.

Lemma dispatch_sound from text num mediaUrl u w :
  select_single (by_phone from) (users w) = Some u ->
  store_ok_with row_sound (users w) ->
  store_ok_with row_sound (users (after (dispatch E from text num mediaUrl u) w)).
Proof.
  intros Hu Hok. destruct (select_single_unique _ _ _ Hu) as (Hin & Hp & Huniq).
  assert (Hru : row_sound u).
  { destruct Hok as [_ Hr]. rewrite List.Forall_forall in Hr. auto. }
  assert (Hpatch : forall f,
            (forall x, phone_number (f x) = phone_number x) -> row_sound (f u) ->
            store_ok_with row_sound (update_where (by_phone from) f (users w))).
  { intros f Hf Hrow. apply store_ok_with_update; [exact Hok | exact Hf |].
    intros x Hx Hpx _. now rewrite (Huniq x Hx Hpx). }
  destruct Hru as (Hq & Hpl & Hui & Hsteps).
  destruct (dispatch_cases E from text num mediaUrl u)
    as [(_ & _ & ->)|[(_ & ->)|[(_ & _ & _ & ->)|[(_ & _ & Hw & ->)
       |[(_ & _ & _ & _ & ->)|(_ & Hquota & _ & _ & ->)]]]]].
  - destruct (quick_reply_users E from text u w) as [->|[c ->]]; [exact Hok|].
    apply store_ok_with_update; [exact Hok | reflexivity |].
    intros x _ _. now apply row_sound_billing.
  - apply Hpatch; [reflexivity|]. unfold row_sound. simpl.
    split; [exact Hq|]. split; [exact Hpl|]. split; [reflexivity|]. left. now repeat split.
  - exact Hok.
  - unfold wizard.
    destruct (String.eqb (language_step u) "ui") eqn:H1.
    { destruct (pickLang text) as [c|] eqn:Hc; [|exact Hok].
      apply Hpatch; [reflexivity|]. apply String.eqb_eq in H1.
      destruct Hsteps as [(_ & Hs & Ht & Hg)|[(N & _)|[(N & _)|(N & _)]]]; try congruence.
      unfold row_sound. simpl. split; [exact Hq|]. split; [exact Hpl|]. split; [reflexivity|].
      right. left. split; [reflexivity|]. split; [now apply (pickLang_code text)|]. now split. }
    destruct (String.eqb (language_step u) "target") eqn:H2.
    { destruct (pickLang text) as [c|] eqn:Hc; [|exact Hok].
      destruct (Js.seq (code c) (source_lang u)); [exact Hok|].
      apply Hpatch; [reflexivity|]. apply String.eqb_eq in H2.
      destruct Hsteps as [(N & _)|[(_ & Hs & Ht & Hg)|[(N & _)|(N & _)]]]; try congruence.
      unfold row_sound. simpl. split; [exact Hq|]. split; [exact Hpl|]. split; [exact Hui|].
      right. right. left. split; [reflexivity|]. split; [exact Hs|].
      split; [now apply (pickLang_code text) | exact Hg]. }
    destruct (String.eqb (language_step u) "gender") eqn:H3.
    { destruct (pick_gender text) as [g|] eqn:Hg'; [|exact Hok].
      apply Hpatch; [reflexivity|]. apply String.eqb_eq in H3.
      destruct Hsteps as [(N & _)|[(N & _)|[(_ & Hs & Ht & Hg)|(N & _)]]]; try congruence.
      unfold row_sound. simpl. split; [exact Hq|]. split; [exact Hpl|]. split; [exact Hui|].
      right. right. right. split; [reflexivity|]. split; [exact Hs|]. split; [exact Ht|].
      destruct (pick_gender_values _ _ Hg') as [-> | ->]; [now left | now right]. }
    unfold in_wizard in Hw. rewrite H1, H2, H3 in Hw. discriminate Hw.
  - exact Hok.
  - destruct (translation_phase_effect E from text num mediaUrl u (is_free u) w)
      as [[-> _]|(o & d & x & i & _ & _ & _ & ->)]; [exact Hok|].
    destruct (is_free u) eqn:Hf; [|exact Hok].
    apply Hpatch; [reflexivity|]. unfold over_quota in Hquota. rewrite Hf in Hquota.
    rewrite andb_true_l in Hquota. apply Nat.leb_gt in Hquota.
    unfold row_sound. simpl. split; [lia|]. split; [exact Hpl|]. split; [exact Hui|].
    exact Hsteps.
Qed.

Lemma handle_sound from text num mediaUrl w :
  store_ok_with row_sound (users w) ->
  store_ok_with row_sound (users (after (handleIncoming E from text num mediaUrl) w)).
Proof.
  intros Hok. unfold handleIncoming. destruct (String.eqb from ""); [exact Hok|].
  destruct (fetch_or_create_run from w (proj1 Hok)) as (u & w0 & Hrun & Hsel & Hw0).
  unfold after. rewrite (bind_ok _ _ _ _ _ Hrun). apply dispatch_sound; [exact Hsel|].
  destruct Hw0 as [->|(Hnil & _ & ->)]; [exact Hok|]. cbn.
  apply (store_ok_with_append row_sound from); [exact Hok | exact Hnil | reflexivity |].
  unfold row_sound, plans. simpl. split; [lia|]. split; [tauto|]. split; [reflexivity|].
  left. now repeat split.
Qed.

Lemma plan_of_tier_in tier : In (Some (plan_of_tier tier)) plans.
Proof.
  unfold plan_of_tier, plans.
  destruct (Js.seq "monthly" tier); [simpl; tauto|].
  destruct (Js.seq "annual" tier); simpl; tauto.
Qed.

Lemma webhook_sound body sig w :
  store_ok_with row_sound (users w) ->
  store_ok_with row_sound (users (after (stripe_webhook E body sig) w)).
Proof.
  intros Hok.
  destruct (constructEvent E body sig (STRIPE_WEBHOOK_SECRET E)) as [[tier uid cust sub|sid|ty]|] eqn:Hc.
  - rewrite (webhook_checkout_users E _ _ _ _ _ _ _ Hc).
    change (store_ok_with row_sound (update_where (fun _ => true)
              (fun u => if by_cust cust u then activate (plan_of_tier tier) sub u
                        else if fallback_hits E uid cust (users w) u
                             then activate_fallback (plan_of_tier tier) cust sub u else u)
              (users w))).
    assert (Hact : forall x, row_sound x ->
              row_sound (activate (plan_of_tier tier) sub x)
              /\ row_sound (activate_fallback (plan_of_tier tier) cust sub x)).
    { intros x (_ & _ & Hui & Hs). unfold row_sound. simpl.
      split; (split; [lia|]; split; [apply plan_of_tier_in|]; split; [exact Hui | exact Hs]). }
    apply store_ok_with_update; [exact Hok | |].
    + intros x. destruct (by_cust cust x); [reflexivity|].
      now destruct (fallback_hits E uid cust (users w) x).
    + intros x _ _ Hr. destruct (by_cust cust x); [now apply Hact|].
      destruct (fallback_hits E uid cust (users w) x); [now apply Hact | exact Hr].
  - rewrite (webhook_deleted_users E _ _ _ _ Hc).
    apply (store_ok_with_update row_sound (by_sub sid) (set_plan (Some "FREE")));
      [exact Hok | reflexivity |].
    intros x _ _ (Hq & _ & Hui & Hs). unfold row_sound, plans. simpl. tauto.
  - rewrite (webhook_other_users E); [exact Hok | congruence | congruence].
  - rewrite (webhook_other_users E); [exact Hok | congruence | congruence].
Qed.

End Part000Sound.

Lemma reachable_sound w : reachable w -> store_ok_with row_sound (users w).
Proof.
  induction 1 as [w H|w w' _ IH Hstep].
  - rewrite H. split; [apply List.NoDup_nil | apply List.Forall_nil].
  - destruct Hstep; [now apply handle_sound | now apply webhook_sound].
Qed.

Lemma pickLang_001_in_menu text e : Part001.pickLang text = Some e -> In e (map snd MENU).
Proof.
  unfold Part001.pickLang. destruct (Js.trim text) as [|c r].
  - apply find_in.
  - destruct (Js.is_digit c); [|apply find_in].
    destruct (menu_get MENU (String c "")) as [x|] eqn:Hx; [|apply find_in].
    intros [= <-]. now apply (menu_get_in _ (String c "")).
Qed.

Lemma pickLang_001_code text e : Part001.pickLang text = Some e -> holds_code (Some (code e)).
Proof.
  intros H. exists (code e). split; [reflexivity|].
  apply pickLang_001_in_menu in H. unfold codes. rewrite in_map_iff in *.
  destruct H as ([d x] & Hx & Hin). exists (d, x). simpl in *. now subst.
Qed.

Lemma pick_gender_values_003 lower g :
  Part003.pick_gender lower = Some g -> g = "MALE" \/ g = "FEMALE".
Proof.
  unfold Part003.pick_gender.
  destruct (String.eqb lower "2" || Js.includes "female" (Js.fold_case lower));
    [intros [= <-]; now right|].
  destruct (String.eqb lower "1" || Js.includes "male" (Js.fold_case lower));
    [intros [= <-]; now left | discriminate].
Qed.

Lemma row_sound_003_billing f x :
  free_used (f x) = free_used x -> plan (f x) = plan x ->
  language_step (f x) = language_step x ->
  source_lang (f x) = source_lang x -> target_lang (f x) = target_lang x ->
  voice_gender (f x) = voice_gender x ->
  row_sound_003 x -> row_sound_003 (f x).
Proof. unfold row_sound_003. intros -> -> -> -> -> ->. tauto. Qed.

Section Part003Sound.

Import Part003.

Variable E : Env.

Lemma sound_003_patch p f w :
  (forall x, phone_number (f x) = phone_number x) ->
  (forall x, row_sound_003 x -> row_sound_003 (f x)) ->
  store_ok_with row_sound_003 (users w) ->
  store_ok_with row_sound_003 (users (with_users (update_where p f) w)).
Proof.
  intros Hp Hf Hok. unfold with_users. cbn [users].
  apply store_ok_with_update; [exact Hok | exact Hp |]. intros x _ _. apply Hf.
Qed.

Lemma sound_003_count k x : k <= 12 -> row_sound_003 x -> row_sound_003 (set_free_used k x).
Proof. intros Hk (_ & H). unfold row_sound_003. simpl. split; [exact Hk | exact H]. Qed.

Lemma quick_reply_sound_003 from lower u :
  keeps sound_003 (quick_reply E from lower u).
Proof.
  keeps_auto; try (simpl; assumption).
  all: apply sound_003_patch; [reflexivity | | assumption].
  all: intros x; now apply row_sound_003_billing.
Qed.

Lemma pdf_branch_sound_003 from mediaUrl mediaSize u isFree :
  (isFree = true -> free_used u + 3 <= 12) ->
  keeps sound_003 (pdf_branch E from mediaUrl mediaSize u isFree).
Proof.
  intros Hq. unfold pdf_branch. destruct (_ <? _); [keeps_auto; simpl; assumption|].
  apply keeps_bind; [keeps_auto|]. intros resp. cbv zeta.
  apply keeps_bind; [keeps_auto; simpl; assumption|]. intros [pdfText|]; [|apply keeps_ret].
  destruct (_ <? _); [keeps_auto; simpl; assumption|].
  apply keeps_bind; [apply translate_all_keeps|]. intros pieces. cbv zeta.
  apply keeps_bind; [keeps_auto; simpl; assumption|]. intros [newPdf|]; [|apply keeps_ret].
  apply keeps_bind; [keeps_auto; simpl; assumption|]. intros [url|]; [|apply keeps_ret].
  apply keeps_bind; [keeps_auto; simpl; assumption|]. intros _.
  apply keeps_bind; [keeps_auto; simpl; assumption|]. intros _.
  apply keeps_bind; [|intros _; keeps_auto; simpl; assumption].
  destruct isFree; [|apply keeps_ret]. apply keeps_modify. intros w.
  apply sound_003_patch; [reflexivity|]. intros x. apply sound_003_count. now apply Hq.
Qed.

Lemma translation_phase_sound_003 cols from text num mediaUrl u isFree :
  (isFree = true -> free_used u + 1 <= 12) ->
  keeps sound_003 (translation_phase_with E cols from text num mediaUrl u isFree).
Proof.
  intros Hq. unfold translation_phase_with.
  apply keeps_bind;
    [apply (acquire_keeps E (fun a _ _ _ => store_ok_with row_sound_003 a))|]. intros od.
  cbv zeta. destruct (String.eqb _ _); [keeps_auto; simpl; assumption|].
  apply keeps_bind; [keeps_auto|]. intros translated.
  apply keeps_bind.
  { destruct isFree; [|apply keeps_ret]. apply keeps_modify. intros w.
    apply sound_003_patch; [reflexivity|]. intros x. apply sound_003_count. now apply Hq. }
  intros _. apply keeps_bind; [keeps_auto; simpl; assumption|]. intros _.
  apply (reply_keeps E (fun a _ => store_ok_with row_sound_003 a)).
Qed.

Lemma wizard_sound_003 from text lower u rest w :
  select_single (by_phone from) (users w) = Some u ->
  keeps sound_003 rest ->
  store_ok_with row_sound_003 (users w) ->
  store_ok_with row_sound_003 (users (after (wizard E from text lower u rest) w)).
Proof.
  intros Hu Hrest Hok. destruct (select_single_unique _ _ _ Hu) as (Hin & Hp & Huniq).
  assert (Hru : row_sound_003 u).
  { destruct Hok as [_ Hr]. rewrite List.Forall_forall in Hr. auto. }
  assert (Hk : forall A (m : M A), keeps sound_003 m ->
                 store_ok_with row_sound_003 (users (after m w)))
    by (intros A m K; now apply K).
  assert (Hsend : forall A (m : M A) f,
            keeps sound_003 m ->
            (forall x, phone_number (f x) = phone_number x) ->
            row_sound_003 (f u) ->
            store_ok_with row_sound_003 (users (after (db_update (by_phone from) f ;;; m) w))).
  { intros A m f Hm Hf Hrow. rewrite after_bind. cbn [outcome db_update modify fst].
    apply Hm. unfold after. cbn [modify snd]. unfold with_users. cbn [users].
    apply store_ok_with_update; [exact Hok | exact Hf |].
    intros x Hx Hpx _. now rewrite (Huniq x Hx Hpx). }
  destruct Hru as (Hq & Hpl & Hsteps).
  unfold wizard.
  destruct (String.eqb (language_step u) "target") eqn:H1.
  { apply String.eqb_eq in H1.
    destruct (pickLang text) as [c|] eqn:Hc; [|apply Hk; keeps_auto; simpl; assumption].
    apply Hsend; [keeps_auto; simpl; assumption | reflexivity |].
    destruct Hsteps as [(_ & Hs & Ht & Hg)|[(N & _)|[(N & _)|(N & _)]]]; try congruence.
    unfold row_sound_003. simpl. split; [exact Hq|]. split; [exact Hpl|].
    right. left. split; [reflexivity|]. split; [exact Hs|].
    split; [now apply (pickLang_001_code text) | exact Hg]. }
  destruct (String.eqb (language_step u) "source") eqn:H2.
  { apply String.eqb_eq in H2.
    destruct (pickLang text) as [c|] eqn:Hc; [|apply Hk; keeps_auto; simpl; assumption].
    destruct (Js.seq (code c) (target_lang u)); [apply Hk; keeps_auto; simpl; assumption|].
    apply Hsend; [keeps_auto; simpl; assumption | reflexivity |].
    destruct Hsteps as [(N & _)|[(_ & Hs & Ht & Hg)|[(N & _)|(N & _)]]]; try congruence.
    unfold row_sound_003. simpl. split; [exact Hq|]. split; [exact Hpl|].
    right. right. left. split; [reflexivity|].
    split; [now apply (pickLang_001_code text)|]. now split. }
  destruct (String.eqb (language_step u) "gender") eqn:H3; [|now apply Hk].
  apply String.eqb_eq in H3.
  destruct (pick_gender lower) as [g|] eqn:Hg'; [|apply Hk; keeps_auto; simpl; assumption].
  apply Hsend; [keeps_auto; simpl; assumption | reflexivity |].
  destruct Hsteps as [(N & _)|[(N & _)|[(_ & Hs & Ht & Hg)|(N & _)]]]; try congruence.
  unfold row_sound_003. simpl. split; [exact Hq|]. split; [exact Hpl|].
  right. right. right. split; [reflexivity|]. split; [exact Hs|]. split; [exact Ht|].
  destruct (pick_gender_values_003 _ _ Hg') as [-> | ->]; [now left | now right].
Qed.

Lemma dispatch_sound_003 from text num mediaUrl mediaType mediaSize u w :
  select_single (by_phone from) (users w) = Some u ->
  store_ok_with row_sound_003 (users w) ->
  store_ok_with row_sound_003
    (users (after (dispatch E from text num mediaUrl mediaType mediaSize u) w)).
Proof.
  intros Hu Hok.
  assert (Hk : forall A (m : M A), keeps sound_003 m ->
                 store_ok_with row_sound_003 (users (after m w)))
    by (intros A m K; now apply K).
  unfold dispatch. cbv zeta.
  destruct (_ && _); [apply Hk, quick_reply_sound_003|].
  destruct (is_reset _).
  { apply Hk. unfold reset. apply keeps_bind; [|intros _; keeps_auto; simpl; assumption].
    apply keeps_modify. intros w0 H0. apply sound_003_patch; [reflexivity | | exact H0].
    intros x (Hq & Hpl & _). unfold row_sound_003. simpl.
    split; [exact Hq|]. split; [exact Hpl|]. left. now repeat split. }
  destruct (is_free u && (10 <=? free_used u)) eqn:Hquota;
    [apply Hk; keeps_auto; simpl; assumption|].
  assert (Hfree : is_free u = true -> free_used u < 10).
  { intros Hf. rewrite Hf, andb_true_l in Hquota. now apply Nat.leb_gt in Hquota. }
  apply wizard_sound_003; [exact Hu | | exact Hok].
  destruct (incomplete u); [keeps_auto; simpl; assumption|].
  destruct ((0 <? num) && _ && _).
  - apply pdf_branch_sound_003. intros Hf. specialize (Hfree Hf). lia.
  - apply translation_phase_sound_003. intros Hf. specialize (Hfree Hf). lia.
Qed.

Lemma handle_sound_003 from text num mediaUrl mediaType mediaSize w :
  store_ok_with row_sound_003 (users w) ->
  store_ok_with row_sound_003
    (users (after (handleIncoming E from text num mediaUrl mediaType mediaSize) w)).
Proof.
  intros Hok. unfold handleIncoming. destruct (String.eqb from ""); [exact Hok|].
  rewrite after_bind. cbn [outcome after get_world fst snd].
  destruct (select_single (by_phone from) (users w)) as [u|] eqn:Hs.
  - now apply dispatch_sound_003.
  - pose proof (select_none_absent _ _ (proj1 Hok) Hs) as Hnil.
    rewrite after_bind. cbn [outcome modify fst]. unfold after at 2. cbn [modify snd].
    assert (K : keeps sound_003 (sendMessage from (Lit WELCOME_MSG) None))
      by (keeps_auto; simpl; assumption).
    apply K. unfold with_users. cbn [users]. unfold upsert_by_phone.
    rewrite (filter_nil_existsb _ _ Hnil).
    apply (store_ok_with_append row_sound_003 from); [exact Hok | exact Hnil | reflexivity |].
    unfold row_sound_003, plans. simpl. split; [lia|]. split; [tauto|]. left. now repeat split.
Qed.

Lemma webhook_sound_003 body sig w :
  store_ok_with row_sound_003 (users w) ->
  store_ok_with row_sound_003 (users (after (stripe_webhook E body sig) w)).
Proof.
  revert w. change (keeps sound_003 (stripe_webhook E body sig)).
  keeps_auto; try assumption.
  - apply sound_003_patch; [reflexivity | | assumption].
    intros x (_ & _ & Hs). unfold row_sound_003. simpl.
    split; [lia|]. split; [apply plan_of_tier_in | exact Hs].
  - apply sound_003_patch; [reflexivity | | assumption].
    intros x (Hq & _ & Hs). unfold row_sound_003, plans. simpl. tauto.
Qed.

End Part003Sound.

Lemma reachable_sound_003 w : reachable_003 w -> store_ok_with row_sound_003 (users w).
Proof.
  induction 1 as [w H|w w' _ IH Hstep].
  - rewrite H. split; [apply List.NoDup_nil | apply List.Forall_nil].
  - destruct Hstep; [now apply handle_sound_003 | now apply webhook_sound_003].
Qed.

Lemma holds_code_truthy l : holds_code l -> Js.truthy l = true.
Proof.
  intros (c & -> & Hc). unfold codes in Hc. simpl in Hc.
  destruct Hc as [<-|[<-|[<-|[<-|[<-|[]]]]]]; reflexivity.
Qed.

Lemma gender_truthy g : g = Some "MALE" \/ g = Some "FEMALE" -> Js.truthy g = true.
Proof. intros [-> | ->]; reflexivity. Qed.

(** A row at the last step is complete, and no other row is. *)
Lemma row_sound_ready u :
  row_sound u ->
  (language_step u = "ready" <-> Part000.incomplete u = false)
  /\ (in_wizard u = false -> language_step u = "ready").
Proof.
  intros (_ & _ & _ & Hs). unfold Part000.incomplete, in_wizard.
  destruct Hs as [(Hl & Hs & Ht & Hg)|[(Hl & Hs & Ht & Hg)|[(Hl & Hs & Ht & Hg)|(Hl & Hs & Ht & Hg)]]];
    rewrite Hl; (split; [split|]); try discriminate; try reflexivity.
  - rewrite Hg. simpl. now rewrite orb_true_r.
  - rewrite Hg. simpl. now rewrite orb_true_r.
  - rewrite Hg. simpl. now rewrite orb_true_r.
  - intros _. now rewrite (holds_code_truthy _ Hs), (holds_code_truthy _ Ht), (gender_truthy _ Hg).
Qed.

Lemma row_sound_003_ready u :
  row_sound_003 u ->
  (language_step u = "ready" <-> Part003.incomplete u = false)
  /\ (in_wizard_003 u = false -> language_step u = "ready").
Proof.
  intros (_ & _ & Hs). unfold Part003.incomplete, in_wizard_003.
  destruct Hs as [(Hl & Hs & Ht & Hg)|[(Hl & Hs & Ht & Hg)|[(Hl & Hs & Ht & Hg)|(Hl & Hs & Ht & Hg)]]];
    rewrite Hl; (split; [split|]); try discriminate; try reflexivity.
  - rewrite Hg. simpl. now rewrite orb_true_r.
  - rewrite Hg. simpl. now rewrite orb_true_r.
  - rewrite Hg. simpl. now rewrite orb_true_r.
  - intros _. now rewrite (holds_code_truthy _ Hs), (holds_code_truthy _ Ht), (gender_truthy _ Hg).
Qed.

Lemma in_store {R : user -> Prop} db u : store_ok_with R db -> In u db -> R u.
Proof. intros [_ H] Hin. rewrite List.Forall_forall in H. now apply H. Qed.

(** X6.  Ready means complete.  In every store the process can reach, a row is
    at the last step exactly when its source language, target language and
    voice are all set, so the setup-incomplete guard behind the wizard
    never fires; the stored languages are codes of the menu and the stored
    voice is MALE or FEMALE.  This holds of [part_000] (where the prompt
    language is always the source language) and of [part_003]. *)
Theorem ready_iff_complete :
  (forall w u, reachable w -> In u (users w) ->
     (language_step u = "ready" <-> Part000.incomplete u = false)
     /\ (in_wizard u = false -> Part000.incomplete u = false)
     /\ (forall l, source_lang u = Some l \/ target_lang u = Some l -> In l codes)
     /\ (forall g, voice_gender u = Some g -> g = "MALE" \/ g = "FEMALE")
     /\ ui_lang u = source_lang u)
  /\ (forall w u, reachable_003 w -> In u (users w) ->
        (language_step u = "ready" <-> Part003.incomplete u = false)
        /\ (in_wizard_003 u = false -> Part003.incomplete u = false)
        /\ (forall l, source_lang u = Some l \/ target_lang u = Some l -> In l codes)
        /\ (forall g, voice_gender u = Some g -> g = "MALE" \/ g = "FEMALE")).
Proof.
  split.
  - intros w u Hr Hin. pose proof (in_store _ _ (reachable_sound w Hr) Hin) as Hs.
    destruct (row_sound_ready u Hs) as [Hiff Hw].
    split; [exact Hiff|]. split; [intros H; now apply Hiff, Hw|].
    destruct Hs as (_ & _ & Hui & Hsteps). split; [|split; [|exact Hui]].
    + intros l [Hl|Hl];
        destruct Hsteps as [(_ & Hs & Ht & _)|[(_ & Hs & Ht & _)|[(_ & Hs & Ht & _)|(_ & Hs & Ht & _)]]];
        try congruence;
        try (destruct Hs as (c & Hc & Hin'); congruence);
        try (destruct Ht as (c & Hc & Hin'); congruence).
    + intros g Hg.
      destruct Hsteps as [(_ & _ & _ & N)|[(_ & _ & _ & N)|[(_ & _ & _ & N)|(_ & _ & _ & [N|N])]]];
        try congruence; [left | right]; congruence.
  - intros w u Hr Hin. pose proof (in_store _ _ (reachable_sound_003 w Hr) Hin) as Hs.
    destruct (row_sound_003_ready u Hs) as [Hiff Hw].
    split; [exact Hiff|]. split; [intros H; now apply Hiff, Hw|].
    destruct Hs as (_ & _ & Hsteps). split.
    + intros l [Hl|Hl];
        destruct Hsteps as [(_ & Hs & Ht & _)|[(_ & Hs & Ht & _)|[(_ & Hs & Ht & _)|(_ & Hs & Ht & _)]]];
        try congruence;
        try (destruct Hs as (c & Hc & Hin'); congruence);
        try (destruct Ht as (c & Hc & Hin'); congruence).
    + intros g Hg.
      destruct Hsteps as [(_ & _ & _ & N)|[(_ & _ & _ & N)|[(_ & _ & _ & N)|(_ & _ & _ & [N|N])]]];
        try congruence; [left | right]; congruence.
Qed.

Lemma ready_iff_complete_witness :
  let w0 := Sample.world_of [] in
  let w3 := after (Part000.handleIncoming Sample.vendors "+1555" "2" 0 None)
              (after (Part000.handleIncoming Sample.vendors "+1555" "es" 0 None)
                 (after (Part000.handleIncoming Sample.vendors "+1555" "3" 0 None) w0)) in
  let u := Sample.row "ready" (Some "fr") (Some "fr") (Some "es") (Some "FEMALE") 0 in
  reachable w3 /\ users w3 = [u] /\ Part000.incomplete u = false.
Proof.
  assert (R : reachable
                (after (Part000.handleIncoming Sample.vendors "+1555" "2" 0 None)
                   (after (Part000.handleIncoming Sample.vendors "+1555" "es" 0 None)
                      (after (Part000.handleIncoming Sample.vendors "+1555" "3" 0 None)
                         (Sample.world_of []))))).
  { repeat (eapply reach_step; [|apply step_message]). now apply reach_start. }
  split; [exact R|]. split; [vm_compute; reflexivity|].
  apply (proj1 (proj1 (proj1 ready_iff_complete _
                         (Sample.row "ready" (Some "fr") (Some "fr") (Some "es") (Some "FEMALE") 0)
                         R (or_introl eq_refl)))).
  reflexivity.
Defined.

(** X7.  The usage count of a row never passes the quota in [part_000]; in
    [part_003], where the gate is tested before a PDF adds three, it never
    passes twelve, and twelve is reached. *)
Theorem quota_never_exceeded :
  (forall w u, reachable w -> In u (users w) -> free_used u <= 5)
  /\ (forall w u, reachable_003 w -> In u (users w) -> free_used u <= 12)
  /\ (exists w u, reachable_003 w /\ In u (users w)
                  /\ Part003.is_free u = true /\ free_used u = 12).
Proof.
  split; [|split].
  - intros w u Hr Hin. now destruct (in_store _ _ (reachable_sound w Hr) Hin).
  - intros w u Hr Hin. now destruct (in_store _ _ (reachable_sound_003 w Hr) Hin).
  - pose (say := fun text w =>
        after (Part003.handleIncoming Sample.vendors "+1555" text 0 None "" 0) w).
    pose (pdf := fun w =>
        after (Part003.handleIncoming Sample.vendors "+1555" "" 1 (Some "https://media/1")
                 "application/pdf" 1000) w).
    exists (pdf (pdf (pdf (pdf (say "2" (say "1" (say "2" (say "hola" (Sample.world_of []))))))))).
    exists (Sample.row "ready" None (Some "en") (Some "es") (Some "FEMALE") 12).
    split.
    + subst say pdf. cbv beta.
      repeat (eapply reach_step_003; [|apply step_message_003]). now apply reach_start_003.
    + split; [vm_compute; now left|]. split; reflexivity.
Qed.

Lemma quota_never_exceeded_witness :
  let w := after (Part000.handleIncoming Sample.vendors "+1555" "3" 0 None)
             (Sample.world_of []) in
  reachable w
  /\ In (Sample.row "target" (Some "fr") (Some "fr") None None 0) (users w)
  /\ 0 <= 5.
Proof.
  assert (R : reachable (after (Part000.handleIncoming Sample.vendors "+1555" "3" 0 None)
                           (Sample.world_of []))).
  { eapply reach_step; [|apply step_message]. now apply reach_start. }
  assert (Hin : In (Sample.row "target" (Some "fr") (Some "fr") None None 0)
                   (users (after (Part000.handleIncoming Sample.vendors "+1555" "3" 0 None)
                             (Sample.world_of []))))
    by (vm_compute; now left).
  split; [exact R|]. split; [exact Hin|].
  exact (proj1 quota_never_exceeded _ _ R Hin).
Defined.

Lemma select_after_patch from f db u :
  (forall x, phone_number (f x) = phone_number x) ->
  select_single (by_phone from) db = Some u ->
  select_single (by_phone from) (update_where (by_phone from) f db) = Some (f u).
Proof.
  intros Hf Hu.
  rewrite (select_single_update (by_phone from) (by_phone from) f db u); [|
    intros x; unfold by_phone; now rewrite Hf | exact Hu].
  now rewrite (proj1 (proj2 (select_single_unique _ _ _ Hu))).
Qed.

Lemma select_after_customer from c db u :
  select_single (by_phone from) db = Some u ->
  select_single (by_phone from)
    (update_where (by_id (user_id u)) (set_stripe_cust_id (Some c)) db)
  = Some (set_stripe_cust_id (Some c) u).
Proof.
  intros Hu.
  rewrite (select_single_update (by_phone from) (by_id (user_id u))
             (set_stripe_cust_id (Some c)) db u (fun x => eq_refl) Hu).
  unfold by_id. now rewrite Nat.eqb_refl.
Qed.

(** X8.  Progress is kept until a reset.  From a store the process can reach,
    a message of a known sender leaves the sender's plan alone and the
    usage count as it was or one higher; a reset command puts the row back
    to the first step; any other message leaves the step where it was or
    moves it one step on, and every preference that was set stays set to
    the same value, whatever the vendors answer. *)
Theorem progress_kept_until_reset E from text num mediaUrl w u :
  reachable w ->
  from <> "" ->
  select_single (by_phone from) (users w) = Some u ->
  let w' := after (Part000.handleIncoming E from text num mediaUrl) w in
  exists u',
    select_single (by_phone from) (users w') = Some u'
    /\ plan u' = plan u
    /\ free_used u <= free_used u' <= free_used u + 1
    /\ (is_reset text = true /\ u' = Part000.reset_patch u
        \/ is_reset text = false
           /\ step_rank (language_step u) <= step_rank (language_step u')
                <= S (step_rank (language_step u))
           /\ kept (source_lang u) (source_lang u')
           /\ kept (target_lang u) (target_lang u')
           /\ kept (voice_gender u) (voice_gender u')).
Proof.
  intros Hr Hf Hu w'. subst w'.
  pose proof (in_store _ _ (reachable_sound w Hr) (proj1 (select_single_unique _ _ _ Hu)))
    as (_ & _ & _ & Hsteps).
  unfold after. rewrite (handle_known E _ _ _ _ _ _ Hf Hu).
  fold (after (Part000.dispatch E from text num mediaUrl u) w).
  assert (Hsame : forall f,
            plan (f u) = plan u -> free_used (f u) = free_used u ->
            language_step (f u) = language_step u ->
            source_lang (f u) = source_lang u -> target_lang (f u) = target_lang u ->
            voice_gender (f u) = voice_gender u ->
            is_reset text = false ->
            plan (f u) = plan u
            /\ free_used u <= free_used (f u) <= free_used u + 1
            /\ (is_reset text = true /\ f u = Part000.reset_patch u
                \/ is_reset text = false
                   /\ step_rank (language_step u) <= step_rank (language_step (f u))
                        <= S (step_rank (language_step u))
                   /\ kept (source_lang u) (source_lang (f u))
                   /\ kept (target_lang u) (target_lang (f u))
                   /\ kept (voice_gender u) (voice_gender (f u)))).
  { intros f -> -> -> -> -> -> Hnr. split; [reflexivity|]. split; [lia|]. right.
    split; [exact Hnr|]. split; [lia|]. now repeat split. }
  destruct (dispatch_cases E from text num mediaUrl u)
    as [(Hd & _ & ->)|[(Hrs & ->)|[(_ & Hnr & _ & ->)|[(Hnr & _ & Hw & ->)
       |[(Hnr & _ & _ & _ & ->)|(Hnr & _ & _ & _ & ->)]]]]].
  - assert (Hnr : is_reset text = false).
    { destruct (is_reset text) eqn:Hx; [|reflexivity].
      rewrite (reset_is_no_tier_digit _ Hx) in Hd. discriminate Hd. }
    destruct (quick_reply_users E from text u w) as [->|[c ->]].
    + exists u. split; [exact Hu|]. now apply (Hsame (fun x => x)).
    + exists (set_stripe_cust_id (Some c) u). split; [now apply select_after_customer|].
      now apply (Hsame (set_stripe_cust_id (Some c))).
  - exists (Part000.reset_patch u). split.
    + unfold after. rewrite reset_run. cbn [snd]. unfold with_outbox, with_users. cbn [users].
      now apply select_after_patch.
    + split; [reflexivity|]. split; [simpl; lia|]. now left.
  - exists u. split; [exact Hu|]. now apply (Hsame (fun x => x)).
  - unfold Part000.wizard.
    destruct (String.eqb (language_step u) "ui") eqn:H1.
    { apply String.eqb_eq in H1.
      destruct (pickLang text) as [c|];
        [|exists u; split; [exact Hu | now apply (Hsame (fun x => x))]].
      exists (source_patch (code c) u). split; [now apply select_after_patch|].
      destruct Hsteps as [(_ & Hs & Ht & Hg)|[(N & _)|[(N & _)|(N & _)]]]; try congruence.
      split; [reflexivity|]. split; [simpl; lia|]. right. split; [exact Hnr|].
      split; [rewrite H1; unfold step_rank, source_patch; cbn; lia|]. unfold kept. simpl. rewrite Hs.
      split; [discriminate|]. now split. }
    destruct (String.eqb (language_step u) "target") eqn:H2.
    { apply String.eqb_eq in H2.
      destruct (pickLang text) as [c|];
        [|exists u; split; [exact Hu | now apply (Hsame (fun x => x))]].
      destruct (Js.seq (code c) (source_lang u));
        [exists u; split; [exact Hu | now apply (Hsame (fun x => x))]|].
      exists (target_patch (code c) u). split; [now apply select_after_patch|].
      destruct Hsteps as [(N & _)|[(_ & Hs & Ht & Hg)|[(N & _)|(N & _)]]]; try congruence.
      split; [reflexivity|]. split; [simpl; lia|]. right. split; [exact Hnr|].
      split; [rewrite H2; unfold step_rank, target_patch; cbn; lia|]. unfold kept. simpl. rewrite Ht.
      split; [tauto|]. split; [discriminate | tauto]. }
    destruct (String.eqb (language_step u) "gender") eqn:H3.
    { apply String.eqb_eq in H3.
      destruct (Part000.pick_gender text) as [g|];
        [|exists u; split; [exact Hu | now apply (Hsame (fun x => x))]].
      exists (gender_patch g u). split; [now apply select_after_patch|].
      destruct Hsteps as [(N & _)|[(N & _)|[(_ & Hs & Ht & Hg)|(N & _)]]]; try congruence.
      split; [reflexivity|]. split; [simpl; lia|]. right. split; [exact Hnr|].
      split; [rewrite H3; unfold step_rank, gender_patch; cbn; lia|]. unfold kept. simpl. rewrite Hg.
      split; [tauto|]. split; [tauto | discriminate]. }
    unfold in_wizard in Hw. rewrite H1, H2, H3 in Hw. discriminate Hw.
  - exists u. split; [exact Hu|]. now apply (Hsame (fun x => x)).
  - destruct (translation_phase_effect E from text num mediaUrl u (Part000.is_free u) w)
      as [[-> _]|(o & d & x & i & _ & _ & _ & ->)];
      [exists u; split; [exact Hu | now apply (Hsame (fun x => x))]|].
    destruct (Part000.is_free u);
      [|exists u; split; [exact Hu | now apply (Hsame (fun x => x))]].
    exists (set_free_used (free_used u + 1) u). split; [now apply select_after_patch|].
    split; [reflexivity|]. split; [simpl; lia|]. right. split; [exact Hnr|].
    split; [simpl; lia|]. now repeat split.
Qed.

Lemma progress_kept_until_reset_witness :
  let w := after (Part000.handleIncoming Sample.vendors "+1555" "3" 0 None)
             (Sample.world_of []) in
  let w' := after (Part000.handleIncoming Sample.vendors_no_ffmpeg "+1555" "oops" 1
                     (Some "https://media/1")) w in
  reachable w
  /\ exists u',
       select_single (by_phone "+1555") (users w') = Some u'
       /\ kept (Some "fr") (source_lang u').
Proof.
  assert (R : reachable (after (Part000.handleIncoming Sample.vendors "+1555" "3" 0 None)
                           (Sample.world_of []))).
  { eapply reach_step; [|apply step_message]. now apply reach_start. }
  split; [exact R|].
  assert (Hf : "+1555" <> "") by discriminate.
  destruct (progress_kept_until_reset Sample.vendors_no_ffmpeg "+1555" "oops" 1
              (Some "https://media/1") _
              (Sample.row "target" (Some "fr") (Some "fr") None None 0) R Hf eq_refl)
    as (u' & Hsel & _ & _ & [[N _]|(_ & _ & Hk & _)]); [discriminate N|].
  exists u'. split; [exact Hsel | exact Hk].
Defined.

Section Part000Journeys.

Import Part000.

(** The first message of a sender the store does not know, when it selects
    a language. *)
Lemma first_choice_row E from text num mediaUrl w c :
  from <> "" ->
  List.NoDup (map phone_number (users w)) ->
  select_single (by_phone from) (users w) = None ->
  is_reset text = false ->
  pickLang text = Some c ->
  select_single (by_phone from) (users (after (handleIncoming E from text num mediaUrl) w))
  = Some (source_patch (code c) (new_row (users w) from)).
Proof.
  intros Hf Hn Hs Hr Hc. unfold after, handleIncoming.
  rewrite (eqb_empty_false _ Hf).
  destruct (fetch_or_create_run from w Hn) as (u & w0 & Hrun & Hsel & [->|(Hnil & -> & ->)]);
    [congruence|].
  rewrite (bind_ok _ _ _ _ _ Hrun).
  destruct (dispatch_cases E from text num mediaUrl (new_row (users w) from))
    as [(_ & Hq & _)|[(Hr' & _)|[(_ & _ & Hq & _)|[(_ & _ & _ & ->)
       |[(_ & _ & Hw & _)|(_ & _ & Hw & _)]]]]]; try discriminate; try congruence.
  unfold wizard. cbn [language_step new_row set_free_used set_plan set_language_step
                      String.eqb Ascii.eqb Bool.eqb].
  rewrite Hc. cbn [bind db_update modify sendMessage Js.truthy snd fst].
  unfold with_outbox, with_users. cbn [users].
  now apply select_after_patch.
Qed.

Lemma handle_in_wizard E from text num mediaUrl w u :
  from <> "" ->
  select_single (by_phone from) (users w) = Some u ->
  in_wizard u = true -> over_quota u = false -> is_reset text = false ->
  handleIncoming E from text num mediaUrl w = wizard from text u (ret tt) w.
Proof.
  intros Hf Hu Hw Hq Hr. rewrite (handle_known E _ _ _ _ _ _ Hf Hu).
  destruct (dispatch_cases E from text num mediaUrl u)
    as [(_ & Hq' & _)|[(Hr' & _)|[(_ & _ & Hq' & _)|[(_ & _ & _ & ->)
       |[(_ & _ & Hw' & _)|(_ & _ & Hw' & _)]]]]]; congruence.
Qed.

Lemma target_step_row E from text num mediaUrl w u c :
  from <> "" ->
  select_single (by_phone from) (users w) = Some u ->
  language_step u = "target" -> over_quota u = false -> is_reset text = false ->
  pickLang text = Some c -> source_lang u <> Some (code c) ->
  select_single (by_phone from) (users (after (handleIncoming E from text num mediaUrl) w))
  = Some (target_patch (code c) u).
Proof.
  intros Hf Hu Hs Hq Hr Hc Hd. unfold after.
  rewrite (handle_in_wizard E _ _ _ _ _ _ Hf Hu); [| unfold in_wizard; now rewrite Hs | exact Hq | exact Hr].
  unfold wizard. rewrite Hs, Hc. cbn [String.eqb Ascii.eqb Bool.eqb].
  destruct (Js.seq (code c) (source_lang u)) eqn:Hseq; [apply seq_true in Hseq; congruence|].
  cbn [bind db_update modify sendMessage Js.truthy snd fst].
  unfold with_outbox, with_users. cbn [users]. now apply select_after_patch.
Qed.

Lemma gender_step_row E from text num mediaUrl w u g :
  from <> "" ->
  select_single (by_phone from) (users w) = Some u ->
  language_step u = "gender" -> over_quota u = false -> is_reset text = false ->
  pick_gender text = Some g ->
  select_single (by_phone from) (users (after (handleIncoming E from text num mediaUrl) w))
  = Some (gender_patch g u).
Proof.
  intros Hf Hu Hs Hq Hr Hg. unfold after.
  rewrite (handle_in_wizard E _ _ _ _ _ _ Hf Hu); [| unfold in_wizard; now rewrite Hs | exact Hq | exact Hr].
  unfold wizard. rewrite Hs, Hg. cbn [String.eqb Ascii.eqb Bool.eqb].
  cbn [bind db_update modify sendMessage Js.truthy snd fst].
  unfold with_outbox, with_users. cbn [users]. now apply select_after_patch.
Qed.

End Part000Journeys.

(** X9.  Three answers complete the setup.  A sender the store does not know
    who picks a language, then a different one, then a voice, is ready
    after the third message, with exactly these three preferences stored,
    whatever else the three messages carry and whatever the vendors
    answer. *)
Theorem wizard_round_trip E1 E2 E3 from t1 t2 t3 n1 n2 n3 m1 m2 m3 w s t g :
  from <> "" ->
  List.NoDup (map phone_number (users w)) ->
  select_single (by_phone from) (users w) = None ->
  is_reset t1 = false -> is_reset t2 = false -> is_reset t3 = false ->
  pickLang t1 = Some s -> pickLang t2 = Some t -> code t <> code s ->
  Part000.pick_gender t3 = Some g ->
  let w3 := after (Part000.handleIncoming E3 from t3 n3 m3)
              (after (Part000.handleIncoming E2 from t2 n2 m2)
                 (after (Part000.handleIncoming E1 from t1 n1 m1) w)) in
  exists u,
    select_single (by_phone from) (users w3) = Some u
    /\ language_step u = "ready"
    /\ source_lang u = Some (code s) /\ ui_lang u = Some (code s)
    /\ target_lang u = Some (code t) /\ voice_gender u = Some g
    /\ plan u = Some "FREE" /\ free_used u = 0
    /\ Part000.incomplete u = false.
Proof.
  intros Hf Hn Hs Hr1 Hr2 Hr3 Hc1 Hc2 Hd Hg w3. subst w3.
  pose proof (first_choice_row E1 from t1 n1 m1 w s Hf Hn Hs Hr1 Hc1) as H1.
  set (w1 := after (Part000.handleIncoming E1 from t1 n1 m1) w) in *.
  set (u1 := source_patch (code s) (new_row (users w) from)) in *.
  assert (H2 : select_single (by_phone from)
                 (users (after (Part000.handleIncoming E2 from t2 n2 m2) w1))
               = Some (target_patch (code t) u1)).
  { apply target_step_row; try assumption; try reflexivity.
    subst u1. simpl. congruence. }
  set (w2 := after (Part000.handleIncoming E2 from t2 n2 m2) w1) in *.
  set (u2 := target_patch (code t) u1) in *.
  assert (H3 : select_single (by_phone from)
                 (users (after (Part000.handleIncoming E3 from t3 n3 m3) w2))
               = Some (gender_patch g u2)).
  { apply gender_step_row; try assumption; reflexivity. }
  exists (gender_patch g u2). split; [exact H3|].
  repeat (split; [reflexivity|]).
  unfold Part000.incomplete.
  change (source_lang (gender_patch g u2)) with (Some (code s)).
  change (target_lang (gender_patch g u2)) with (Some (code t)).
  change (voice_gender (gender_patch g u2)) with (Some g).
  rewrite (holds_code_truthy _ (pickLang_code _ _ Hc1)),
          (holds_code_truthy _ (pickLang_code _ _ Hc2)).
  destruct (pick_gender_values _ _ Hg) as [-> | ->]; reflexivity.
Qed.

Lemma wizard_round_trip_witness :
  let w3 := after (Part000.handleIncoming Sample.vendors "+1555" "female" 0 None)
              (after (Part000.handleIncoming Sample.vendors "+1555" "Spanish" 0 None)
                 (after (Part000.handleIncoming Sample.vendors "+1555" "3" 0 None)
                    (Sample.world_of []))) in
  exists u,
    select_single (by_phone "+1555") (users w3) = Some u
    /\ language_step u = "ready"
    /\ source_lang u = Some "fr" /\ ui_lang u = Some "fr"
    /\ target_lang u = Some "es" /\ voice_gender u = Some "FEMALE"
    /\ plan u = Some "FREE" /\ free_used u = 0
    /\ Part000.incomplete u = false.
Proof.
  assert (Hf : "+1555" <> "") by discriminate.
  assert (Hd : code (MenuEntry "Spanish" "es") <> code (MenuEntry "French" "fr"))
    by discriminate.
  exact (wizard_round_trip Sample.vendors Sample.vendors Sample.vendors "+1555"
           "3" "Spanish" "female" 0 0 0 None None None (Sample.world_of [])
           (MenuEntry "French" "fr") (MenuEntry "Spanish" "es") "FEMALE"
           Hf (List.NoDup_nil _) eq_refl eq_refl eq_refl eq_refl eq_refl eq_refl Hd eq_refl).
Defined.

Section Part000Billing.

Import Part000.

(** What the quick reply does to the [users] table: it stores the id of a
    customer it had to create. *)
Lemma quick_reply_customer E from digit u w :
  users (after (quick_reply E from digit u) w) =
    if Js.truthy (stripe_cust_id u) then users w
    else match customers_create E ("TuCan " +:+ phone_number u) with
         | Some c => update_where (by_id (user_id u)) (set_stripe_cust_id (Some c)) (users w)
         | None => users w
         end.
Proof.
  unfold after, quick_reply, try_catch, checkoutUrl, ensureCustomer.
  destruct (Js.truthy (stripe_cust_id u)).
  - cbv [bind ret].
    match goal with |- context [sessions_create E ?a ?b ?c ?d] =>
      now destruct (sessions_create E a b c d) end.
  - cbv [bind]. destruct (customers_create E _) as [c|]; [|reflexivity].
    cbv [await ret db_update modify].
    match goal with |- context [sessions_create E ?a ?b ?c ?d] =>
      now destruct (sessions_create E a b c d) end.
Qed.

Lemma checkout_link_customer E u tier link :
  checkout_link E u tier = Some link -> exists c, customer_of E u = Some c.
Proof.
  unfold checkout_link, customer_of. destruct (Js.truthy (stripe_cust_id u)) eqn:Ht.
  - destruct (stripe_cust_id u) as [c|]; [now exists c | discriminate Ht].
  - destruct (customers_create E _) as [c|]; [now exists c | discriminate].
Qed.

Lemma bought_not_free tier p x :
  bought tier (Some p) -> Part000.is_free (set_plan (Some p) x) = false.
Proof.
  intros (Hm & Ha & Hl).
  assert (H : p = "MONTHLY" \/ p = "ANNUAL" \/ p = "LIFETIME").
  { destruct (decide (tier = Some "monthly")) as [e|n1]; [left; now injection (Hm e)|].
    destruct (decide (tier = Some "annual")) as [e|n2]; [right; left; now injection (Ha e)|].
    right; right. now injection (Hl n1 n2). }
  destruct H as [->|[->| ->]]; reflexivity.
Qed.

End Part000Billing.

(** X10.  Paying unlocks, cancelling returns to the free plan.  A free
    sender at the quota who answers the pay-wall with a tier digit, and for
    whom the payment provider makes a link, gets the link and has the
    customer id of the checkout on their row.  A completed-checkout event
    for that customer sets the row's plan to the one the event's tier buys
    (MONTHLY for monthly, ANNUAL for annual, LIFETIME otherwise; so, for
    the tier of this checkout, MONTHLY after the digit 1, ANNUAL after 2
    and LIFETIME after 3) and the usage count to zero, so the sender is no
    longer held at the gate; a later subscription-deleted event for the
    subscription of that checkout puts the plan back to FREE and leaves
    the count at zero. *)
Theorem payment_unlocks E from digit num mediaUrl w u link :
  from <> "" ->
  select_single (by_phone from) (users w) = Some u ->
  over_quota u = true ->
  is_tier_digit digit = true ->
  checkout_link E u (tier_of digit) = Some link ->
  let w1 := after (Part000.handleIncoming E from digit num mediaUrl) w in
  exists c u1,
    customer_of E u = Some c
    /\ select_single (by_phone from) (users w1) = Some u1
    /\ stripe_cust_id u1 = Some c
    /\ outbox w1 = outbox w ++ [OutMsg from (Body (Lit ("Tap to pay → " +:+ link)))]
    /\ forall E' body sig tier uid sub,
         constructEvent E' body sig (STRIPE_WEBHOOK_SECRET E')
           = Some (checkout_session_completed tier uid c sub) ->
         let w2 := after (Part000.stripe_webhook E' body sig) w1 in
         exists u2,
           select_single (by_phone from) (users w2) = Some u2
           /\ bought tier (plan u2)
           /\ (tier = Some (tier_of digit) ->
               (digit = "1" -> plan u2 = Some "MONTHLY")
               /\ (digit = "2" -> plan u2 = Some "ANNUAL")
               /\ (digit = "3" -> plan u2 = Some "LIFETIME"))
           /\ free_used u2 = 0
           /\ stripe_sub_id u2 = sub
           /\ Part000.is_free u2 = false
           /\ over_quota u2 = false
           /\ forall E'' body' sig' sid,
                sub = Some sid ->
                constructEvent E'' body' sig' (STRIPE_WEBHOOK_SECRET E'')
                  = Some (customer_subscription_deleted sid) ->
                let w3 := after (Part000.stripe_webhook E'' body' sig') w2 in
                exists u3,
                  select_single (by_phone from) (users w3) = Some u3
                  /\ plan u3 = Some "FREE"
                  /\ free_used u3 = 0
                  /\ over_quota u3 = false.
Proof.
  intros Hf Hu Hq Hd Hlink w1.
  assert (Hrun : Part000.handleIncoming E from digit num mediaUrl w
                 = Part000.quick_reply E from digit u w).
  { rewrite (handle_known E _ _ _ _ _ _ Hf Hu). unfold Part000.dispatch.
    unfold over_quota in Hq. cbv zeta. now rewrite <- andb_assoc, Hd, Hq. }
  destruct (checkout_link_customer E u _ _ Hlink) as [c Hc].
  assert (H1 : exists u1, select_single (by_phone from) (users w1) = Some u1
                          /\ stripe_cust_id u1 = Some c).
  { subst w1. unfold after. rewrite Hrun.
    fold (after (Part000.quick_reply E from digit u) w). rewrite quick_reply_customer.
    unfold customer_of in Hc. destruct (Js.truthy (stripe_cust_id u)).
    - exists u. now split.
    - rewrite Hc. exists (set_stripe_cust_id (Some c) u).
      split; [now apply select_after_customer | reflexivity]. }
  destruct H1 as (u1 & Hu1 & Hc1). exists c, u1.
  split; [exact Hc|]. split; [exact Hu1|]. split; [exact Hc1|]. split.
  { subst w1. unfold after. rewrite Hrun.
    fold (after (Part000.quick_reply E from digit u) w).
    now rewrite quick_reply_outbox, Hlink. }
  intros E' body sig tier uid sub Hev w2.
  set (f := fun x => if by_cust c x then activate (Part000.plan_of_tier tier) sub x
                     else if fallback_hits E' uid c (users w1) x
                          then activate_fallback (Part000.plan_of_tier tier) c sub x
                          else x).
  assert (H2 : select_single (by_phone from) (users w2)
               = Some (activate (Part000.plan_of_tier tier) sub u1)).
  { subst w2. rewrite (webhook_checkout_users E' _ _ _ _ _ _ _ Hev).
    change (select_single (by_phone from) (update_where (fun _ => true) f (users w1))
            = Some (activate (Part000.plan_of_tier tier) sub u1)).
    rewrite (select_single_update (by_phone from) (fun _ => true) f (users w1) u1); [| |exact Hu1].
    - subst f. cbv beta. unfold by_cust. rewrite Hc1. cbn [Js.seq].
      now rewrite String.eqb_refl.
    - intros x. subst f. cbv beta. destruct (by_cust c x); [reflexivity|].
      now destruct (fallback_hits E' uid c (users w1) x). }
  exists (activate (Part000.plan_of_tier tier) sub u1).
  pose proof (plan_of_tier_bought tier) as Hb.
  split; [exact H2|]. split; [exact Hb|]. split.
  { intros ->. apply is_tier_digit_spec in Hd.
    destruct Hd as [->|[->| ->]]; (split; [|split]); intros H; try discriminate H;
      reflexivity. }
  split; [reflexivity|]. split; [reflexivity|].
  assert (Hnf : Part000.is_free (activate (Part000.plan_of_tier tier) sub u1) = false).
  { exact (bought_not_free tier _ u1 Hb). }
  split; [exact Hnf|]. split; [unfold over_quota; now rewrite Hnf|].
  intros E'' body' sig' sid Hsub Hev' w3. subst w3.
  set (u2 := activate (Part000.plan_of_tier tier) sub u1) in *.
  exists (set_plan (Some "FREE") u2).
  split; [|split; [reflexivity | split; reflexivity]].
  rewrite (webhook_deleted_users E'' _ _ _ _ Hev').
  change (select_single (by_phone from)
            (update_where (by_sub sid) (set_plan (Some "FREE")) (users w2))
          = Some (set_plan (Some "FREE") u2)).
  rewrite (select_single_update (by_phone from) (by_sub sid) (set_plan (Some "FREE"))
             (users w2) u2 (fun x => eq_refl) H2).
  subst u2. unfold by_sub, activate. cbn [stripe_sub_id set_stripe_sub_id]. rewrite Hsub.
  cbn [Js.seq]. now rewrite String.eqb_refl.
Qed.

Lemma payment_unlocks_witness :
  let w := Sample.world_of [Sample.ready 5] in
  let asked digit := after (Part000.handleIncoming Sample.vendors "+1555" digit 0 None) w in
  let paid digit tier :=
    after (Part000.stripe_webhook
             (Sample.vendors_signed "t=1,v1=ok"
                (checkout_session_completed (Some tier) None "cus_1" (Some "sub_1")))
             "{}" (Some "t=1,v1=ok")) (asked digit) in
  let unlocked digit tier p :=
    exists u2,
      select_single (by_phone "+1555") (users (paid digit tier)) = Some u2
      /\ plan u2 = Some p /\ free_used u2 = 0 /\ over_quota u2 = false in
  map (fun d => checkout_link Sample.vendors (Sample.ready 5) (tier_of d)) ["1"; "2"; "3"]
    = [Some "https://pay.example/monthly"; Some "https://pay.example/annual";
       Some "https://pay.example/life"]
  /\ unlocked "1" "monthly" "MONTHLY"
  /\ unlocked "2" "annual" "ANNUAL"
  /\ unlocked "3" "life" "LIFETIME".
Proof.
  cbv zeta. split; [reflexivity|].
  assert (Hf : "+1555" <> "") by discriminate.
  assert (T : forall digit tier,
             is_tier_digit digit = true -> tier_of digit = tier ->
             exists u2,
               select_single (by_phone "+1555")
                 (users (after (Part000.stripe_webhook
                                  (Sample.vendors_signed "t=1,v1=ok"
                                     (checkout_session_completed (Some tier) None "cus_1"
                                        (Some "sub_1")))
                                  "{}" (Some "t=1,v1=ok"))
                           (after (Part000.handleIncoming Sample.vendors "+1555" digit 0 None)
                              (Sample.world_of [Sample.ready 5])))) = Some u2
               /\ ((digit = "1" -> plan u2 = Some "MONTHLY")
                   /\ (digit = "2" -> plan u2 = Some "ANNUAL")
                   /\ (digit = "3" -> plan u2 = Some "LIFETIME"))
               /\ free_used u2 = 0 /\ over_quota u2 = false).
  { intros digit tier Hd Ht.
    destruct (payment_unlocks Sample.vendors "+1555" digit 0 None
                (Sample.world_of [Sample.ready 5]) (Sample.ready 5)
                ("https://pay.example/" +:+ tier) Hf eq_refl eq_refl Hd)
      as (c & u1 & Hc & _ & _ & _ & Hpay).
    { unfold checkout_link. cbn. now rewrite Ht. }
    injection Hc as <-.
    destruct (Hpay (Sample.vendors_signed "t=1,v1=ok"
                      (checkout_session_completed (Some tier) None "cus_1" (Some "sub_1")))
                   "{}" (Some "t=1,v1=ok") (Some tier) None (Some "sub_1") eq_refl)
      as (u2 & Hsel & _ & Hplan & Hused & _ & _ & Hq & _).
    exists u2. split; [exact Hsel|]. split; [apply Hplan; now rewrite Ht|]. now split. }
  split; [|split].
  - destruct (T "1" "monthly" eq_refl eq_refl) as (u2 & Hs & (H & _ & _) & H0 & Hq).
    exists u2. split; [exact Hs|]. split; [now apply H|]. now split.
  - destruct (T "2" "annual" eq_refl eq_refl) as (u2 & Hs & (_ & H & _) & H0 & Hq).
    exists u2. split; [exact Hs|]. split; [now apply H|]. now split.
  - destruct (T "3" "life" eq_refl eq_refl) as (u2 & Hs & (_ & _ & H) & H0 & Hq).
    exists u2. split; [exact Hs|]. split; [now apply H|]. now split.
Defined.

(** ** Chunks *)

Lemma slice0_drop n s : Js.slice0 n s +:+ Js.drop n s = s.
Proof.
  revert s. induction n as [|n IH]; intros [|c r]; try reflexivity.
  change (String c (Js.slice0 n r +:+ Js.drop n r) = String c r). now rewrite IH.
Qed.

Lemma slice0_length n s : String.length (Js.slice0 n s) = Nat.min n (String.length s).
Proof.
  revert s. induction n as [|n IH]; intros [|c r]; try reflexivity.
  simpl. now rewrite IH.
Qed.

Lemma drop_length n s : String.length (Js.drop n s) = String.length s - n.
Proof.
  revert s. induction n as [|n IH]; intros [|c r]; try reflexivity. simpl. apply IH.
Qed.

Lemma length_zero_empty s : String.length s = 0 -> s = "".
Proof. destruct s; [reflexivity | discriminate]. Qed.

Lemma chunks_spec size : 0 < size -> forall fuel s,
  String.length s <= fuel ->
  concat_strings (Part003.chunks fuel size s) = s
  /\ Forall (fun c => 0 < String.length c <= size) (Part003.chunks fuel size s)
  /\ String.length s <= length (Part003.chunks fuel size s) * size
  /\ (s <> "" -> length (Part003.chunks fuel size s) * size < String.length s + size)
  /\ (forall i c, nth_error (Part003.chunks fuel size s) i = Some c ->
        S i < length (Part003.chunks fuel size s) -> String.length c = size).
Proof.
  intros Hsize. induction fuel as [|fuel IH]; intros s Hlen.
  - assert (s = "") as -> by (apply length_zero_empty; lia). simpl.
    repeat split; [apply List.Forall_nil | lia | congruence | intros [|i] c; discriminate].
  - simpl. destruct (String.eqb_spec s "") as [->|Hne].
    + simpl. repeat split; [apply List.Forall_nil | lia | congruence | intros [|i] c; discriminate].
    + assert (Hpos : 0 < String.length s).
      { destruct s; [congruence | simpl; lia]. }
      assert (Hrest : String.length (Js.drop size s) <= fuel)
        by (rewrite drop_length; lia).
      destruct (IH (Js.drop size s) Hrest) as (Hc & Hf & Hub & Hlb & Hfull).
      pose proof (slice0_length size s) as Hsl. pose proof (drop_length size s) as Hdl.
      split; [|split; [|split; [|split]]].
      * unfold concat_strings in *. simpl. fold concat_strings. unfold concat_strings.
        rewrite Hc. apply slice0_drop.
      * apply List.Forall_cons; [cbv beta; lia | exact Hf].
      * simpl. lia.
      * intros _. simpl. destruct (String.eqb_spec (Js.drop size s) "") as [He|Hn].
        -- rewrite He in *. destruct fuel; simpl in *; lia.
        -- specialize (Hlb Hn).
           assert (0 < String.length (Js.drop size s)).
           { destruct (Js.drop size s); [congruence | simpl; lia]. }
           lia.
      * intros [|i] c Hnth Hi.
        -- simpl in Hnth. injection Hnth as <-. simpl in Hi.
           destruct (Part003.chunks fuel size (Js.drop size s)) as [|x l] eqn:Hch; [simpl in Hi; lia|].
           assert (Hd : Js.drop size s <> "").
           { intros He. rewrite He in Hch. destruct fuel; discriminate Hch. }
           assert (0 < String.length (Js.drop size s)).
           { destruct (Js.drop size s); [congruence | simpl; lia]. }
           lia.
        -- simpl in Hnth, Hi. apply (Hfull i c Hnth). lia.
Qed.

(** X11.  [chunkText] cuts a text into consecutive pieces: put back together they
    are the text; no piece is empty or longer than 3000 characters, every
    piece but the last has exactly 3000, and their number is the length
    divided by 3000, rounded up (none for the empty text).  Lengths are
    counted in the characters of the model. *)
Theorem chunkText_partitions s :
  concat_strings (Part003.chunkText s) = s
  /\ Forall (fun c => 0 < String.length c <= 3000) (Part003.chunkText s)
  /\ (forall i c, nth_error (Part003.chunkText s) i = Some c ->
        S i < length (Part003.chunkText s) -> String.length c = 3000)
  /\ length (Part003.chunkText s) = (String.length s + 2999) / 3000.
Proof.
  destruct (chunks_spec 3000 ltac:(lia) (String.length s) s (le_n _))
    as (Hc & Hf & Hub & Hlb & Hfull).
  fold (Part003.chunkText s) in *.
  split; [exact Hc|]. split; [exact Hf|]. split; [exact Hfull|].
  set (n := length (Part003.chunkText s)) in *.
  destruct (String.eqb_spec s "") as [->|Hne].
  - reflexivity.
  - specialize (Hlb Hne).
    apply Nat.div_unique with (r := String.length s + 2999 - n * 3000); lia.
Qed.

Lemma file_codes_lookup code (v : voice) fulls (m : gmap string (list voice)) :
  default [] (fold_left
                (fun m full =>
                   let code := hd "" (firstn 1 (Js.split "-" full)) in
                   <[ code := default [] (m !! code) ++ [v] ]> m)
                fulls m !! code)
  = default [] (m !! code)
    ++ flat_map (fun full => if String.eqb (language_prefix full) code then [v] else []) fulls.
Proof.
  revert m. induction fulls as [|full r IH]; intros m; simpl.
  - now rewrite app_nil_r.
  - rewrite IH. fold (language_prefix full).
    destruct (String.eqb_spec (language_prefix full) code) as [->|Hne].
    + rewrite lookup_insert_eq. simpl. now rewrite <- List.app_assoc.
    + rewrite lookup_insert_ne by exact Hne. reflexivity.
Qed.

Lemma file_voice_lookup code v m :
  default [] (file_voice m v !! code) = default [] (m !! code) ++ copies_under code v.
Proof. unfold file_voice, copies_under. apply file_codes_lookup. Qed.

Lemma fold_file_voice_lookup code voices m :
  default [] (fold_left file_voice voices m !! code)
  = default [] (m !! code) ++ flat_map (copies_under code) voices.
Proof.
  revert m. induction voices as [|v r IH]; intros m; simpl.
  - now rewrite app_nil_r.
  - now rewrite IH, file_voice_lookup, <- List.app_assoc.
Qed.

Lemma file_codes_none code (v : voice) fulls (m : gmap string (list voice)) :
  fold_left
    (fun m full =>
       let code := hd "" (firstn 1 (Js.split "-" full)) in
       <[ code := default [] (m !! code) ++ [v] ]> m)
    fulls m !! code = None ->
  m !! code = None /\ Forall (fun full => language_prefix full <> code) fulls.
Proof.
  revert m. induction fulls as [|full r IH]; intros m; simpl.
  - intros H. split; [exact H | apply List.Forall_nil].
  - intros H. apply IH in H as [H1 H2]. fold (language_prefix full) in H1.
    destruct (decide (language_prefix full = code)) as [Heq|Hne].
    + rewrite Heq, lookup_insert_eq in H1. discriminate H1.
    + rewrite lookup_insert_ne in H1 by exact Hne. split; [exact H1|].
      apply List.Forall_cons; assumption.
Qed.

Lemma fold_file_voice_none code voices m :
  fold_left file_voice voices m !! code = None ->
  m !! code = None
  /\ Forall (fun v => Forall (fun full => language_prefix full <> code) (languageCodes v)) voices.
Proof.
  revert m. induction voices as [|v r IH]; intros m; simpl.
  - intros H. split; [exact H | apply List.Forall_nil].
  - intros H. apply IH in H as [H1 H2]. unfold file_voice in H1.
    apply file_codes_none in H1 as [H1 H3]. split; [exact H1|].
    now apply List.Forall_cons.
Qed.

Lemma copies_under_in code v x : In x (copies_under code v) -> x = v.
Proof.
  unfold copies_under. rewrite in_flat_map. intros (full & _ & H).
  destruct (String.eqb _ _); [destruct H as [H|[]]; now symmetry | destruct H].
Qed.

(** X12.  The voice cache groups the catalogue by language.  After [loadVoices]
    has filled an empty cache, the entry of a language prefix lists, in
    catalogue order, each voice once for each of its language codes with
    that prefix; a prefix without entry is the prefix of no language code
    of the catalogue; and a cache that is filled is left as it is. *)
Theorem voices_filed_by_language E w :
  (forall voices, voiceCache w = None -> list_voices E = Some voices ->
     exists cache,
       voiceCache (after (loadVoices E) w) = Some cache
       /\ (forall code,
             default [] (cache !! code) = flat_map (copies_under code) voices)
       /\ (forall code v full,
             In v voices -> In full (languageCodes v) -> language_prefix full = code ->
             exists l, cache !! code = Some l /\ In v l)
       /\ (forall code l v, cache !! code = Some l -> In v l -> In v voices))
  /\ (forall cache, voiceCache w = Some cache -> after (loadVoices E) w = w)
  /\ (voiceCache w = None -> list_voices E = None ->
      after (loadVoices E) w = w /\ exists e, outcome (loadVoices E) w = Throw e).
Proof.
  split; [|split].
  - intros voices Hc Hv. exists (fold_left file_voice voices ∅).
    split; [unfold after, loadVoices, bind, get_world; now rewrite Hc, Hv|].
    assert (Hl : forall code,
               default [] (fold_left file_voice voices ∅ !! code)
               = flat_map (copies_under code) voices).
    { intros code. rewrite fold_file_voice_lookup. now rewrite lookup_empty. }
    split; [exact Hl|]. split.
    + intros code v full Hin Hfull Hp.
      destruct (fold_left file_voice voices ∅ !! code) as [l|] eqn:Hlk.
      * exists l. split; [reflexivity|]. specialize (Hl code). rewrite Hlk in Hl. simpl in Hl.
        rewrite Hl. apply in_flat_map. exists v. split; [exact Hin|].
        unfold copies_under. apply in_flat_map. exists full. split; [exact Hfull|].
        rewrite Hp, String.eqb_refl. now left.
      * apply fold_file_voice_none in Hlk as [_ Hall].
        rewrite List.Forall_forall in Hall. specialize (Hall v Hin).
        rewrite List.Forall_forall in Hall. now destruct (Hall full Hfull).
    + intros code l v Hlk Hin. specialize (Hl code). rewrite Hlk in Hl. simpl in Hl.
      rewrite Hl in Hin. apply in_flat_map in Hin as (x & Hx & Hin).
      apply copies_under_in in Hin. now subst.
  - intros cache Hc. unfold after, loadVoices, bind, get_world. now rewrite Hc.
  - intros Hc Hv. unfold after, outcome, loadVoices, bind, get_world. rewrite Hc, Hv.
    split; [reflexivity | now eexists].
Qed.

Lemma voices_filed_by_language_witness :
  let w := Sample.world_of [] in
  exists cache,
    voiceCache (after (loadVoices Sample.vendors) w) = Some cache
    /\ default [] (cache !! "es") = [Voice "es-ES-Standard-A" ["es-ES"] "FEMALE"]
    /\ cache !! "en" = None.
Proof.
  destruct (proj1 (voices_filed_by_language Sample.vendors (Sample.world_of []))
              [Voice "es-ES-Standard-A" ["es-ES"] "FEMALE"] eq_refl eq_refl)
    as (cache & Hc & Hl & _).
  exists cache. split; [exact Hc|]. split; [now rewrite Hl|].
  injection Hc as <-. reflexivity.
Defined.

Lemma length_zero_nil {A} (l : list A) : Nat.eqb (length l) 0 = true -> l = [].
Proof. destruct l; [reflexivity | discriminate]. Qed.

Lemma find_tier (p : voice -> bool) l :
  match List.find p l with
  | Some v => In v l /\ p v = true
  | None => forall v, In v l -> p v = false
  end.
Proof.
  destruct (List.find p l) as [v|] eqn:H.
  - now apply find_some in H.
  - intros v Hv. now apply (find_none _ _ H).
Qed.

(** The three tier searches of [pickVoice] on a candidate list. *)
Lemma tier_choice (l : list voice) :
  let r := match List.find (fun v => Js.includes "Neural2" (voice_name v)) l with
           | Some v => voice_name v
           | None =>
           match List.find (fun v => Js.includes "WaveNet" (voice_name v)) l with
           | Some v => voice_name v
           | None =>
           match List.find (fun v => Js.includes "Standard" (voice_name v)) l with
           | Some v => voice_name v
           | None => DEFAULT_VOICE
           end end end in
  (r = DEFAULT_VOICE \/ exists v, In v l /\ voice_name v = r)
  /\ ((exists v, In v l /\ Js.includes "Neural2" (voice_name v) = true) ->
      Js.includes "Neural2" r = true /\ exists v, In v l /\ voice_name v = r)
  /\ ((forall v, In v l -> Js.includes "Neural2" (voice_name v) = false) ->
      (exists v, In v l /\ Js.includes "WaveNet" (voice_name v) = true) ->
      Js.includes "WaveNet" r = true /\ exists v, In v l /\ voice_name v = r)
  /\ ((forall v, In v l ->
         Js.includes "Neural2" (voice_name v) = false
         /\ Js.includes "WaveNet" (voice_name v) = false
         /\ Js.includes "Standard" (voice_name v) = false) ->
      r = DEFAULT_VOICE).
Proof.
  intros r. subst r.
  pose proof (find_tier (fun v => Js.includes "Neural2" (voice_name v)) l) as H1.
  pose proof (find_tier (fun v => Js.includes "WaveNet" (voice_name v)) l) as H2.
  pose proof (find_tier (fun v => Js.includes "Standard" (voice_name v)) l) as H3.
  destruct (List.find (fun v => Js.includes "Neural2" (voice_name v)) l) as [v1|].
  { destruct H1 as [Hin Hp]. split; [right; now exists v1|]. split; [intros _; split; [exact Hp | now exists v1]|].
    split.
    - intros Hn. rewrite (Hn v1 Hin) in Hp. discriminate Hp.
    - intros Hn. destruct (Hn v1 Hin) as [N _]. rewrite N in Hp. discriminate Hp. }
  destruct (List.find (fun v => Js.includes "WaveNet" (voice_name v)) l) as [v2|].
  { destruct H2 as [Hin Hp]. split; [right; now exists v2|]. split.
    - intros (v & Hv & Hpv). rewrite (H1 v Hv) in Hpv. discriminate Hpv.
    - split; [intros _ _; split; [exact Hp | now exists v2]|].
      intros Hn. destruct (Hn v2 Hin) as (_ & N & _). rewrite N in Hp. discriminate Hp. }
  destruct (List.find (fun v => Js.includes "Standard" (voice_name v)) l) as [v3|].
  { destruct H3 as [Hin Hp]. split; [right; now exists v3|]. split.
    - intros (v & Hv & Hpv). rewrite (H1 v Hv) in Hpv. discriminate Hpv.
    - split.
      + intros _ (v & Hv & Hpv). rewrite (H2 v Hv) in Hpv. discriminate Hpv.
      + intros Hn. destruct (Hn v3 Hin) as (_ & _ & N). rewrite N in Hp. discriminate Hp. }
  split; [now left|]. split.
  - intros (v & Hv & Hpv). rewrite (H1 v Hv) in Hpv. discriminate Hpv.
  - split; [|reflexivity].
    intros _ (v & Hv & Hpv). rewrite (H2 v Hv) in Hpv. discriminate Hpv.
Qed.

(** The candidate list of [pickVoice] when some voice is eligible: exactly
    the eligible voices. *)
Lemma candidates_eligible (all : list voice) lang gender :
  (exists v, In v all /\ eligible lang gender v = true) ->
  let list := List.filter (fun v => Js.seq (ssmlGender v) gender) all in
  let list := if Nat.eqb (length list) 0 then all else list in
  let list :=
    if Js.seq "en" lang
    then let us := List.filter (fun v => Js.startsWith "en-US" (voice_name v)) list in
         if Nat.eqb (length us) 0 then list else us
    else list in
  forall v, In v list <-> In v all /\ eligible lang gender v = true.
Proof.
  intros (v0 & Hin0 & He0). cbv zeta. unfold eligible in *.
  apply andb_prop in He0 as [Hg0 Hu0].
  assert (Hg : In v0 (List.filter (fun v => Js.seq (ssmlGender v) gender) all))
    by (apply filter_In; now split).
  destruct (Nat.eqb (length (List.filter (fun v => Js.seq (ssmlGender v) gender) all)) 0) eqn:Hl.
  { apply length_zero_nil in Hl. rewrite Hl in Hg. destruct Hg. }
  destruct (Js.seq "en" lang) eqn:Hen.
  - simpl in Hu0.
    assert (Hus : In v0 (List.filter (fun v => Js.startsWith "en-US" (voice_name v))
                           (List.filter (fun v => Js.seq (ssmlGender v) gender) all)))
      by (apply filter_In; now split).
    destruct (Nat.eqb (length (List.filter (fun v => Js.startsWith "en-US" (voice_name v))
                (List.filter (fun v => Js.seq (ssmlGender v) gender) all))) 0) eqn:Hl2.
    { apply length_zero_nil in Hl2. rewrite Hl2 in Hus. destruct Hus. }
    intros v. rewrite !filter_In, andb_true_iff. simpl. tauto.
  - intros v. rewrite filter_In, andb_true_iff. simpl. intuition.
Qed.

Lemma candidates_subset (all : list voice) lang gender :
  let list := List.filter (fun v => Js.seq (ssmlGender v) gender) all in
  let list := if Nat.eqb (length list) 0 then all else list in
  let list :=
    if Js.seq "en" lang
    then let us := List.filter (fun v => Js.startsWith "en-US" (voice_name v)) list in
         if Nat.eqb (length us) 0 then list else us
    else list in
  forall v, In v list -> In v all.
Proof.
  cbv zeta. set (g := List.filter (fun v => Js.seq (ssmlGender v) gender) all).
  set (l1 := if Nat.eqb (length g) 0 then all else g).
  assert (H1 : forall x, In x l1 -> In x all).
  { intros x. subst l1 g. destruct (Nat.eqb _ 0); [tauto|]. rewrite filter_In. tauto. }
  intros v. destruct (Js.seq "en" lang); [|apply H1].
  set (us := List.filter (fun v => Js.startsWith "en-US" (voice_name v)) l1).
  destruct (Nat.eqb (length us) 0); [apply H1|].
  subst us. rewrite filter_In. intros [H _]. now apply H1.
Qed.

(** X13.  What [pickVoice] picks.  The name is that of a voice filed under the
    language, or the default voice; a language without voices gets the
    default.  When the language has a voice of the requested gender (for
    English: an en-US one), a voice that is picked is such a voice, and it
    is a Neural2 one if there is any, else a WaveNet one if there is any. *)
Theorem picked_voice_preference E w cache lang gender :
  catalogue E (voiceCache w) = Some cache ->
  let all := default [] (cache !! interpolate lang) in
  exists r,
    outcome (pickVoice E lang gender) w = Ok r
    /\ (r = DEFAULT_VOICE \/ exists v, In v all /\ voice_name v = r)
    /\ (all = [] -> r = DEFAULT_VOICE)
    /\ ((exists v, In v all /\ eligible lang gender v = true) ->
        (r = DEFAULT_VOICE
         \/ exists v, In v all /\ eligible lang gender v = true /\ voice_name v = r)
        /\ ((exists v, In v all /\ eligible lang gender v = true
                       /\ Js.includes "Neural2" (voice_name v) = true) ->
            Js.includes "Neural2" r = true
            /\ exists v, In v all /\ eligible lang gender v = true /\ voice_name v = r)
        /\ ((forall v, In v all -> eligible lang gender v = true ->
                       Js.includes "Neural2" (voice_name v) = false) ->
            (exists v, In v all /\ eligible lang gender v = true
                       /\ Js.includes "WaveNet" (voice_name v) = true) ->
            Js.includes "WaveNet" r = true
            /\ exists v, In v all /\ eligible lang gender v = true /\ voice_name v = r)).
Proof.
  intros Hc all. exists (choose_voice cache lang gender).
  split; [rewrite pickVoice_outcome; now rewrite Hc|].
  unfold choose_voice. cbv zeta. fold all.
  match goal with |- context [List.find _ ?l] => set (cand := l) end.
  pose proof (candidates_subset all lang gender) as Hsub. cbv zeta in Hsub. fold cand in Hsub.
  destruct (tier_choice cand) as (T1 & T2 & T3 & T4). cbv zeta in T1, T2, T3, T4.
  unfold DEFAULT_VOICE in *.
  split; [|split].
  - destruct T1 as [T1|(v & Hv & Hn)]; [now left | right; exists v; split; auto].
  - intros Hnil. apply T4. intros v Hv. apply Hsub in Hv. rewrite Hnil in Hv. destruct Hv.
  - intros Hel.
    pose proof (candidates_eligible all lang gender Hel) as Hcand. cbv zeta in Hcand.
    fold cand in Hcand.
    split; [|split].
    + destruct T1 as [T1|(v & Hv & Hn)]; [now left|].
      right. exists v. apply Hcand in Hv. tauto.
    + intros (v & Hv & He & Hn).
      destruct T2 as [T2 (x & Hx & Hxn)]; [exists v; split; [apply Hcand; tauto | exact Hn]|].
      split; [exact T2|]. exists x. apply Hcand in Hx. tauto.
    + intros Hno (v & Hv & He & Hn).
      destruct T3 as [T3 (x & Hx & Hxn)].
      * intros x Hx. apply Hcand in Hx as [Hx1 Hx2]. now apply Hno.
      * exists v. split; [apply Hcand; tauto | exact Hn].
      * split; [exact T3|]. exists x. apply Hcand in Hx. tauto.
Qed.

Lemma picked_voice_preference_witness :
  let cache : gmap string (list voice) :=
    <[ "en" := [Voice "en-GB-Neural2-A" ["en-GB"] "FEMALE";
                Voice "en-US-Standard-C" ["en-US"] "FEMALE";
                Voice "en-US-Neural2-D" ["en-US"] "MALE"] ]> ∅ in
  let w := with_voiceCache (Some cache) (Sample.world_of []) in
  exists r,
    outcome (pickVoice Sample.vendors (Some "en") (Some "FEMALE")) w = Ok r
    /\ r = "en-US-Standard-C".
Proof.
  destruct (picked_voice_preference Sample.vendors
              (with_voiceCache
                 (Some (<[ "en" := [Voice "en-GB-Neural2-A" ["en-GB"] "FEMALE";
                                    Voice "en-US-Standard-C" ["en-US"] "FEMALE";
                                    Voice "en-US-Neural2-D" ["en-US"] "MALE"] ]> ∅))
                 (Sample.world_of []))
              _ (Some "en") (Some "FEMALE") eq_refl)
    as (r & Hr & _).
  exists r. split; [exact Hr|].
  vm_compute in Hr. now injection Hr as <-.
Defined.

Lemma dest_of_either detected u :
  dest_of detected u = source_lang u \/ dest_of detected u = target_lang u.
Proof. unfold dest_of. destruct (Js.seq _ _); [now left | now right]. Qed.

Section Part003Rows.

Import Part003.

Variable E : Env.

Lemma pdf_branch_row from mediaUrl mediaSize u w0 w :
  users w = users w0 -> translations w = translations w0 ->
  let w' := after (pdf_branch E from mediaUrl mediaSize u (is_free u)) w in
  translations w' = translations w0
  \/ exists i, translations w' =
       translations w0 ++
         [Translation i from "[PDF]" "[PDF]" (default "" (source_lang u)) (target_lang u)
            (Some 3) (Some "PDF")].
Proof.
  intros Hu Ht.
  assert (Hkeep : forall A (m : M A) w1,
            translations w1 = translations w0 ->
            (forall P, keeps (fun w => P (users w) (translations w)) m) ->
            translations (after m w1) = translations w0
            \/ exists i, translations (after m w1) =
                 translations w0 ++
                   [Translation i from "[PDF]" "[PDF]" (default "" (source_lang u))
                      (target_lang u) (Some 3) (Some "PDF")]).
  { intros A m w1 H1 K. left. now apply (K (fun _ b => b = translations w0)). }
  cbv zeta. unfold pdf_branch.
  destruct (_ <? _); [apply Hkeep; [exact Ht | intros P; keeps_auto; simpl; assumption]|].
  apply tables_bind; [intros P; keeps_auto|]. intros w1 Hu1 Ht1.
  split; [left; congruence|]. intros resp. cbv zeta.
  apply tables_bind; [intros P; keeps_auto; simpl; assumption|]. intros w2 Hu2 Ht2.
  split; [left; congruence|]. intros [pdfText|]; [|left; cbn; congruence].
  destruct (_ <? _); [apply Hkeep; [congruence | intros P; keeps_auto; simpl; assumption]|].
  apply tables_bind; [intros P; apply translate_all_keeps|]. intros w3 Hu3 Ht3.
  split; [left; congruence|]. intros pieces. cbv zeta.
  apply tables_bind; [intros P; keeps_auto; simpl; assumption|]. intros w4 Hu4 Ht4.
  split; [left; congruence|]. intros [newPdf|]; [|left; cbn; congruence].
  apply tables_bind; [intros P; keeps_auto; simpl; assumption|]. intros w5 Hu5 Ht5.
  split; [left; congruence|]. intros [url|]; [|left; cbn; congruence].
  right. exists (randomUUID E (uuids w5)).
  assert (Hts : translations w5 = translations w0) by congruence.
  destruct (is_free u); cbn; now rewrite Hts.
Qed.

Lemma dispatch_row_003 from text num mediaUrl mediaType mediaSize u w :
  let w' := after (dispatch E from text num mediaUrl mediaType mediaSize u) w in
  translations w' = translations w
  \/ (incomplete u = false
      /\ exists row, translations w' = translations w ++ [row]
                     /\ log_phone_number row = from
                     /\ (language_to row = source_lang u \/ language_to row = target_lang u)).
Proof.
  assert (Hkeep : forall A (m : M A),
            (forall c, keeps (fun w => translations w = c) m) ->
            translations (after m w) = translations w).
  { intros A m K. now apply (keeps_eq translations). }
  cbv zeta. unfold dispatch. cbv zeta.
  destruct (_ && _); [left; apply Hkeep; intros c; keeps_auto; simpl; assumption|].
  destruct (is_reset _); [left; apply Hkeep; intros c; keeps_auto; simpl; assumption|].
  destruct (_ && _); [left; apply Hkeep; intros c; keeps_auto; simpl; assumption|].
  unfold wizard.
  destruct (String.eqb _ _); [left; apply Hkeep; intros c; keeps_auto; simpl; assumption|].
  destruct (String.eqb _ _); [left; apply Hkeep; intros c; keeps_auto; simpl; assumption|].
  destruct (String.eqb _ _); [left; apply Hkeep; intros c; keeps_auto; simpl; assumption|].
  destruct (incomplete u) eqn:Hinc;
    [left; apply Hkeep; intros c; keeps_auto; simpl; assumption|].
  destruct (_ && _).
  - destruct (pdf_branch_row from mediaUrl mediaSize u w w eq_refl eq_refl) as [H|[i H]];
      [now left|].
    right. split; [reflexivity|]. eexists. split; [exact H|]. split; [reflexivity | now right].
  - destruct (translation_phase_with_effect E
                (fun n => (Some 1, Some (if 0 <? n then "AUDIO" else "TEXT")))
                from text num mediaUrl u (is_free u) w)
      as [[_ Ht]|(o & d & x & i & _ & _ & Ht & _)]; [now left|].
    right. split; [reflexivity|]. eexists. split; [exact Ht|]. split; [reflexivity|].
    apply dest_of_either.
Qed.

End Part003Rows.

(** X14.  Every translation goes into a language of the menu.  From any store
    the process can reach, a message adds at most one row to the log; the
    row is for the sender and its target language is one of the two
    languages on the sender's row, both menu codes: never [null], never an
    unknown code.  This holds of [part_000] and of [part_003]. *)
Theorem translations_into_menu_languages :
  (forall E from text num mediaUrl w,
      reachable w ->
      logged_into_menu from (users w) (translations w)
        (translations (after (Part000.handleIncoming E from text num mediaUrl) w)))
  /\ (forall E from text num mediaUrl mediaType mediaSize w,
        reachable_003 w ->
        logged_into_menu from (users w) (translations w)
          (translations
             (after (Part003.handleIncoming E from text num mediaUrl mediaType mediaSize) w))).
Proof.
  split.
  - intros E from text num mediaUrl w Hr. pose proof (reachable_sound w Hr) as Hok.
    unfold Part000.handleIncoming. destruct (String.eqb from ""); [now left|].
    destruct (fetch_or_create_run from w (proj1 Hok)) as (u & w0 & Hrun & Hsel & Hw0).
    unfold after. rewrite (bind_ok _ _ _ _ _ Hrun).
    fold (after (Part000.dispatch E from text num mediaUrl u) w0).
    destruct (dispatch_translations E from text num mediaUrl u w0)
      as [H|(_ & _ & Hw & Hinc & Hd)].
    { left. rewrite H. destruct Hw0 as [->|(_ & _ & ->)]; reflexivity. }
    destruct Hw0 as [->|(_ & -> & _)]; [|discriminate Hw].
    rewrite Hd.
    destruct (translation_phase_effect E from text num mediaUrl u (Part000.is_free u) w)
      as [[_ Ht]|(o & d & x & i & _ & _ & Ht & _)]; [now left|].
    right. pose proof (in_store _ _ Hok (proj1 (select_single_unique _ _ _ Hsel))) as Hs.
    destruct (row_sound_ready u Hs) as [_ Hready]. specialize (Hready Hw).
    destruct Hs as (_ & _ & _ & [(N & _)|[(N & _)|[(N & _)|(_ & (s & Hs & Hsc) & (t & Htg & Htc) & _)]]]);
      try congruence.
    destruct (dest_of_either d u) as [Hd'|Hd'].
    + eexists _, s, u. split; [exact Ht|]. cbn [log_phone_number language_to].
      split; [reflexivity|]. rewrite Hd', Hs. repeat split; auto.
    + eexists _, t, u. split; [exact Ht|]. cbn [log_phone_number language_to].
      split; [reflexivity|]. rewrite Hd', Htg. repeat split; auto.
  - intros E from text num mediaUrl mediaType mediaSize w Hr.
    pose proof (reachable_sound_003 w Hr) as Hok.
    unfold Part003.handleIncoming. destruct (String.eqb from ""); [now left|].
    rewrite after_bind. cbn [outcome after get_world fst snd].
    destruct (select_single (by_phone from) (users w)) as [u|] eqn:Hsel.
    2:{ left. apply (keeps_eq translations). intros c. keeps_auto; simpl; assumption. }
    destruct (dispatch_row_003 E from text num mediaUrl mediaType mediaSize u w)
      as [H|(Hinc & row & Ht & Hp & Hl)]; [now left|].
    right. pose proof (in_store _ _ Hok (proj1 (select_single_unique _ _ _ Hsel))) as Hs.
    destruct (row_sound_003_ready u Hs) as [Hiff _]. apply Hiff in Hinc.
    destruct Hs as (_ & _ & [(N & _)|[(N & _)|[(N & _)|(_ & (s & Hs & Hsc) & (t & Htg & Htc) & _)]]]);
      try congruence.
    destruct Hl as [Hl|Hl].
    + exists row, s, u. rewrite Hl, Hs. repeat split; auto.
    + exists row, t, u. rewrite Hl, Htg. repeat split; auto.
Qed.

Lemma update_then_users {A} p f (m : M A) w :
  (forall c, keeps (fun w => users w = c) m) ->
  users (after (db_update p f ;;; m) w) = update_where p f (users w).
Proof.
  intros K. rewrite after_bind. cbn [outcome db_update modify fst].
  now rewrite (keeps_eq users m K).
Qed.

Section Part003Journeys.

Import Part003.

Lemma handle_in_wizard_003 E from text num mediaUrl mediaType mediaSize w u :
  from <> "" ->
  select_single (by_phone from) (users w) = Some u ->
  over_quota_003 u = false ->
  is_reset (Js.toLowerCase (Js.trim text)) = false ->
  exists rest,
    handleIncoming E from text num mediaUrl mediaType mediaSize w
    = wizard E from text (Js.toLowerCase (Js.trim text)) u rest w.
Proof.
  intros Hf Hu Hq Hr. rewrite (handle_known_003 E _ _ _ _ _ _ _ _ Hf Hu).
  destruct (dispatch_wizard_003 E from text num mediaUrl mediaType mediaSize u Hq Hr)
    as [rest ->].
  now exists rest.
Qed.

Lemma first_message_003 E from text num mediaUrl mediaType mediaSize w :
  from <> "" ->
  List.NoDup (map phone_number (users w)) ->
  select_single (by_phone from) (users w) = None ->
  let w' := after (handleIncoming E from text num mediaUrl mediaType mediaSize) w in
  select_single (by_phone from) (users w') = Some (new_row_003 (users w) from)
  /\ outbox w' = outbox w ++ [OutMsg from (Body (Lit WELCOME_MSG))]
  /\ translations w' = translations w.
Proof.
  intros Hf Hn Hs w'. subst w'. unfold after, handleIncoming.
  rewrite (eqb_empty_false _ Hf). unfold bind, get_world. rewrite Hs.
  cbn [modify sendMessage Js.truthy snd fst]. unfold with_outbox, with_users.
  cbn [users outbox translations]. split; [|now split].
  pose proof (select_none_absent _ _ Hn Hs) as Hnil.
  unfold upsert_by_phone. rewrite (filter_nil_existsb _ _ Hnil).
  fold (new_row_003 (users w) from).
  unfold select_single. rewrite List.filter_app, Hnil. simpl.
  unfold by_phone. simpl. now rewrite String.eqb_refl.
Qed.

Lemma target_step_003 E from text num mediaUrl mediaType mediaSize w u c :
  from <> "" ->
  select_single (by_phone from) (users w) = Some u ->
  language_step u = "target" -> over_quota_003 u = false ->
  is_reset (Js.toLowerCase (Js.trim text)) = false ->
  pickLang text = Some c ->
  select_single (by_phone from)
    (users (after (handleIncoming E from text num mediaUrl mediaType mediaSize) w))
  = Some (target_patch_003 (code c) u).
Proof.
  intros Hf Hu Hs Hq Hr Hc.
  destruct (handle_in_wizard_003 E from text num mediaUrl mediaType mediaSize w u Hf Hu Hq Hr)
    as [rest Hrun].
  unfold after. rewrite Hrun. unfold wizard. rewrite Hs, Hc.
  cbn [String.eqb Ascii.eqb Bool.eqb].
  match goal with |- context [bind (db_update ?p ?f) ?k] =>
    fold (after (bind (db_update p f) k) w); rewrite (update_then_users p f) end.
  - now apply select_after_patch.
  - intros d. keeps_auto; simpl; assumption.
Qed.

Lemma source_step_003 E from text num mediaUrl mediaType mediaSize w u c :
  from <> "" ->
  select_single (by_phone from) (users w) = Some u ->
  language_step u = "source" -> over_quota_003 u = false ->
  is_reset (Js.toLowerCase (Js.trim text)) = false ->
  pickLang text = Some c -> target_lang u <> Some (code c) ->
  select_single (by_phone from)
    (users (after (handleIncoming E from text num mediaUrl mediaType mediaSize) w))
  = Some (source_patch_003 (code c) u).
Proof.
  intros Hf Hu Hs Hq Hr Hc Hd.
  destruct (handle_in_wizard_003 E from text num mediaUrl mediaType mediaSize w u Hf Hu Hq Hr)
    as [rest Hrun].
  unfold after. rewrite Hrun. unfold wizard. rewrite Hs, Hc.
  cbn [String.eqb Ascii.eqb Bool.eqb].
  destruct (Js.seq (code c) (target_lang u)) eqn:Hseq; [apply seq_true in Hseq; congruence|].
  match goal with |- context [bind (db_update ?p ?f) ?k] =>
    fold (after (bind (db_update p f) k) w); rewrite (update_then_users p f) end.
  - now apply select_after_patch.
  - intros d. keeps_auto; simpl; assumption.
Qed.

Lemma gender_step_003 E from text num mediaUrl mediaType mediaSize w u g :
  from <> "" ->
  select_single (by_phone from) (users w) = Some u ->
  language_step u = "gender" -> over_quota_003 u = false ->
  is_reset (Js.toLowerCase (Js.trim text)) = false ->
  pick_gender (Js.toLowerCase (Js.trim text)) = Some g ->
  select_single (by_phone from)
    (users (after (handleIncoming E from text num mediaUrl mediaType mediaSize) w))
  = Some (gender_patch g u).
Proof.
  intros Hf Hu Hs Hq Hr Hg.
  destruct (handle_in_wizard_003 E from text num mediaUrl mediaType mediaSize w u Hf Hu Hq Hr)
    as [rest Hrun].
  unfold after. rewrite Hrun. unfold wizard. rewrite Hs, Hg.
  cbn [String.eqb Ascii.eqb Bool.eqb].
  match goal with |- context [bind (db_update ?p ?f) ?k] =>
    fold (after (bind (db_update p f) k) w); rewrite (update_then_users p f) end.
  - now apply select_after_patch.
  - intros d. keeps_auto; simpl; assumption.
Qed.

End Part003Journeys.

(** X16.  The setup of [part_003], first message to last.  The first message of
    a sender the store does not know is answered with the welcome text
    and is not read as a choice.  The next three, if they pick a language,
    then a different one, then a voice, leave the sender ready with the
    first language as target, the second as source, and the voice: each
    choice is stored before its prompt is translated, so this holds
    whatever the vendors answer, also when a prompt cannot be translated
    and the handler ends with an error. *)
Theorem wizard_round_trip_003
    E0 E1 E2 E3 from t0 t1 t2 t3 n0 n1 n2 n3 m0 m1 m2 m3 y0 y1 y2 y3 z0 z1 z2 z3 w t s g :
  from <> "" ->
  List.NoDup (map phone_number (users w)) ->
  select_single (by_phone from) (users w) = None ->
  is_reset (Js.toLowerCase (Js.trim t1)) = false ->
  is_reset (Js.toLowerCase (Js.trim t2)) = false ->
  is_reset (Js.toLowerCase (Js.trim t3)) = false ->
  Part003.pickLang t1 = Some t -> Part003.pickLang t2 = Some s -> code s <> code t ->
  Part003.pick_gender (Js.toLowerCase (Js.trim t3)) = Some g ->
  let w0 := after (Part003.handleIncoming E0 from t0 n0 m0 y0 z0) w in
  let w3 := after (Part003.handleIncoming E3 from t3 n3 m3 y3 z3)
              (after (Part003.handleIncoming E2 from t2 n2 m2 y2 z2)
                 (after (Part003.handleIncoming E1 from t1 n1 m1 y1 z1) w0)) in
  select_single (by_phone from) (users w0) = Some (new_row_003 (users w) from)
  /\ outbox w0 = outbox w ++ [OutMsg from (Body (Lit Part003.WELCOME_MSG))]
  /\ exists u,
       select_single (by_phone from) (users w3) = Some u
       /\ language_step u = "ready"
       /\ target_lang u = Some (code t) /\ source_lang u = Some (code s)
       /\ voice_gender u = Some g
       /\ plan u = Some "FREE" /\ free_used u = 0
       /\ Part003.incomplete u = false.
Proof.
  intros Hf Hn Hs Hr1 Hr2 Hr3 Hc1 Hc2 Hd Hg w0 w3. subst w3.
  destruct (first_message_003 E0 from t0 n0 m0 y0 z0 w Hf Hn Hs) as (H0 & Ho & _).
  fold w0 in H0, Ho. split; [exact H0|]. split; [exact Ho|].
  set (u0 := new_row_003 (users w) from) in *.
  pose proof (target_step_003 E1 from t1 n1 m1 y1 z1 w0 u0 t Hf H0 eq_refl eq_refl Hr1 Hc1)
    as H1.
  set (w1 := after (Part003.handleIncoming E1 from t1 n1 m1 y1 z1) w0) in *.
  set (u1 := target_patch_003 (code t) u0) in *.
  assert (H2 : select_single (by_phone from)
                 (users (after (Part003.handleIncoming E2 from t2 n2 m2 y2 z2) w1))
               = Some (source_patch_003 (code s) u1)).
  { apply source_step_003; try assumption; try reflexivity.
    subst u1. simpl. congruence. }
  set (w2 := after (Part003.handleIncoming E2 from t2 n2 m2 y2 z2) w1) in *.
  set (u2 := source_patch_003 (code s) u1) in *.
  assert (H3 : select_single (by_phone from)
                 (users (after (Part003.handleIncoming E3 from t3 n3 m3 y3 z3) w2))
               = Some (gender_patch g u2)).
  { apply gender_step_003; try assumption; reflexivity. }
  exists (gender_patch g u2). split; [exact H3|].
  repeat (split; [reflexivity|]).
  unfold Part003.incomplete.
  change (source_lang (gender_patch g u2)) with (Some (code s)).
  change (target_lang (gender_patch g u2)) with (Some (code t)).
  change (voice_gender (gender_patch g u2)) with (Some g).
  rewrite (holds_code_truthy _ (pickLang_001_code _ _ Hc1)),
          (holds_code_truthy _ (pickLang_001_code _ _ Hc2)).
  destruct (pick_gender_values_003 _ _ Hg) as [-> | ->]; reflexivity.
Qed.

(** ** Letter case in [pickLang] *)

Lemma lower_char_idem c : Js.lower_char (Js.lower_char c) = Js.lower_char c.
Proof. destruct c as [[] [] [] [] [] [] [] []]; reflexivity. Qed.

Lemma lower_char_space c : Js.is_space (Js.lower_char c) = Js.is_space c.
Proof. destruct c as [[] [] [] [] [] [] [] []]; reflexivity. Qed.

Lemma lower_char_digit c : Js.is_digit c = true -> Js.lower_char c = c.
Proof. destruct c as [[] [] [] [] [] [] [] []]; try reflexivity; discriminate. Qed.

Lemma lower_char_is_digit c : Js.is_digit (Js.lower_char c) = Js.is_digit c.
Proof. destruct c as [[] [] [] [] [] [] [] []]; reflexivity. Qed.

Lemma toLowerCase_idem s : Js.toLowerCase (Js.toLowerCase s) = Js.toLowerCase s.
Proof. induction s as [|c r IH]; simpl; [reflexivity|]. now rewrite lower_char_idem, IH. Qed.

Lemma trimStart_lower s : Js.trimStart (Js.toLowerCase s) = Js.toLowerCase (Js.trimStart s).
Proof.
  induction s as [|c r IH]; simpl; [reflexivity|].
  rewrite lower_char_space. destruct (Js.is_space c); [exact IH | reflexivity].
Qed.

Lemma rev_string_lower s : forall acc,
  Js.rev_string (Js.toLowerCase s) (Js.toLowerCase acc) = Js.toLowerCase (Js.rev_string s acc).
Proof.
  induction s as [|c r IH]; intros acc; simpl; [reflexivity|].
  now rewrite <- IH.
Qed.

Lemma rev_string_lower_nil s :
  Js.rev_string (Js.toLowerCase s) "" = Js.toLowerCase (Js.rev_string s "").
Proof. apply (rev_string_lower s ""). Qed.

Lemma trim_lower s : Js.trim (Js.toLowerCase s) = Js.toLowerCase (Js.trim s).
Proof.
  unfold Js.trim, Js.trimEnd.
  now rewrite trimStart_lower, rev_string_lower_nil, trimStart_lower, rev_string_lower_nil.
Qed.

Lemma match_leading_digit_lower t :
  match_leading_digit (Js.toLowerCase t) = match_leading_digit t.
Proof.
  unfold match_leading_digit. rewrite trim_lower.
  destruct (Js.trim t) as [|c r]; simpl; [reflexivity|].
  rewrite lower_char_is_digit. destruct (Js.is_digit c) eqn:Hd; [|reflexivity].
  now rewrite (lower_char_digit c Hd).
Qed.

(** X17.  Names and codes of the menu.  Each entry of the menu is selected by its
    name and by its code, and [pickLang] does not look at the case of the
    letters: a text selects what its lower-case form selects.  Whatever is
    selected is an entry of the menu.  This holds of the [pickLang] of
    [part_000] and of that of [part_001] and [part_003]. *)
Theorem menu_names_any_case :
  (forall t, pickLang (Js.toLowerCase t) = pickLang t
             /\ Part001.pickLang (Js.toLowerCase t) = Part001.pickLang t)
  /\ (forall d e, In (d, e) MENU ->
        pickLang (name e) = Some e /\ pickLang (code e) = Some e
        /\ Part001.pickLang (name e) = Some e /\ Part001.pickLang (code e) = Some e)
  /\ (forall t e, pickLang t = Some e \/ Part001.pickLang t = Some e ->
        exists d, In (d, e) MENU).
Proof.
  split; [|split].
  - intros t. split.
    + unfold pickLang. now rewrite match_leading_digit_lower, toLowerCase_idem.
    + unfold Part001.pickLang. cbv zeta. rewrite trim_lower.
      destruct (Js.trim t) as [|c r]; [reflexivity|].
      cbn [Js.toLowerCase]. rewrite lower_char_is_digit, lower_char_idem, toLowerCase_idem.
      destruct (Js.is_digit c) eqn:Hd; [|reflexivity].
      now rewrite (lower_char_digit c Hd).
  - intros d e Hin. unfold MENU in Hin. simpl in Hin.
    destruct Hin as [H|[H|[H|[H|[H|[]]]]]]; injection H as <- <-; repeat split; reflexivity.
  - intros t e [H|H].
    + apply pickLang_in_menu in H. apply in_map_iff in H as ([d x] & Hx & Hin).
      simpl in Hx. subst x. now exists d.
    + apply pickLang_001_in_menu in H. apply in_map_iff in H as ([d x] & Hx & Hin).
      simpl in Hx. subst x. now exists d.
Qed.

Lemma menu_names_any_case_witness :
  In ("4", MenuEntry "Portuguese" "pt") MENU
  /\ pickLang "PORTUGUESE" = Some (MenuEntry "Portuguese" "pt")
  /\ pickLang "pt" = Some (MenuEntry "Portuguese" "pt").
Proof.
  assert (Hin : In ("4", MenuEntry "Portuguese" "pt") MENU) by (simpl; tauto).
  split; [exact Hin|]. split.
  - rewrite <- (proj1 (proj1 menu_names_any_case "PORTUGUESE")).
    exact (proj1 (proj1 (proj2 menu_names_any_case) _ _ Hin)).
  - exact (proj1 (proj2 (proj1 (proj2 menu_names_any_case) _ _ Hin))).
Defined.

Lemma billing_only_refl db : billing_only db db.
Proof. split; [reflexivity|]. intros i u H. exists u. now repeat split. Qed.

Lemma billing_only_map (g : user -> user) db :
  (forall u, same_but_billing u (g u)) -> billing_only db (map g db).
Proof.
  intros Hg. split; [apply length_map|]. intros i u H. exists (g u).
  split; [now rewrite nth_error_map, H | apply Hg].
Qed.

Lemma billing_only_update p f db :
  (forall u, same_but_billing u (f u)) -> billing_only db (update_where p f db).
Proof.
  intros Hf. apply billing_only_map. intros u. destruct (p u); [apply Hf | now repeat split].
Qed.

(** X18.  The billing webhook touches billing columns only.  Whatever the
    request, the webhook of [part_000] and that of [part_003] end normally
    (with the 400 or with the acknowledgement), write nothing to the log,
    send nothing and create no file; the store keeps its rows in place,
    and each row keeps its id, its phone number, its wizard step and its
    language and voice preferences. *)
Theorem webhook_touches_only_billing E body sig w :
  (let w' := after (Part000.stripe_webhook E body sig) w in
   (outcome (Part000.stripe_webhook E body sig) w = Ok (sendStatus 400)
    \/ outcome (Part000.stripe_webhook E body sig) w = Ok json_received)
   /\ translations w' = translations w /\ outbox w' = outbox w /\ files w' = files w
   /\ billing_only (users w) (users w'))
  /\ (let w' := after (Part003.stripe_webhook E body sig) w in
      (outcome (Part003.stripe_webhook E body sig) w = Ok (sendStatus 400)
       \/ outcome (Part003.stripe_webhook E body sig) w = Ok json_received)
      /\ translations w' = translations w /\ outbox w' = outbox w /\ files w' = files w
      /\ billing_only (users w) (users w')).
Proof.
  split.
  - cbv zeta. split; [|split; [|split; [|split]]].
    + unfold outcome, Part000.stripe_webhook.
      destruct (constructEvent E body sig _) as [[tier uid cust sub|sid|ty]|];
        [right | right | right | left]; try reflexivity.
      cbv [bind get_world db_update modify fst snd ret].
      now destruct (update_returns_rows E && _).
    + apply (keeps_eq translations). intros c. keeps_auto; simpl; assumption.
    + apply (keeps_eq outbox). intros c. keeps_auto; simpl; assumption.
    + apply (keeps_eq files). intros c. keeps_auto; simpl; assumption.
    + destruct (constructEvent E body sig (STRIPE_WEBHOOK_SECRET E))
        as [[tier uid cust sub|sid|ty]|] eqn:Hc.
      * rewrite (webhook_checkout_users E _ _ _ _ _ _ _ Hc). apply billing_only_map.
        intros u. destruct (by_cust cust u); [now repeat split|].
        destruct (fallback_hits E uid cust (users w) u); now repeat split.
      * rewrite (webhook_deleted_users E _ _ _ _ Hc). apply billing_only_map.
        intros u. destruct (by_sub sid u); now repeat split.
      * rewrite (webhook_other_users E); [apply billing_only_refl | congruence | congruence].
      * rewrite (webhook_other_users E); [apply billing_only_refl | congruence | congruence].
  - cbv zeta. split; [|split; [|split; [|split]]].
    + unfold outcome, Part003.stripe_webhook.
      destruct (constructEvent E body sig _) as [[tier uid cust sub|sid|ty]|];
        [right | right | right | left]; reflexivity.
    + apply (keeps_eq translations). intros c. keeps_auto; simpl; assumption.
    + apply (keeps_eq outbox). intros c. keeps_auto; simpl; assumption.
    + apply (keeps_eq files). intros c. keeps_auto; simpl; assumption.
    + unfold after, Part003.stripe_webhook.
      destruct (constructEvent E body sig (STRIPE_WEBHOOK_SECRET E))
        as [[tier uid cust sub|sid|ty]|].
      * cbn. apply billing_only_update. intros u. now repeat split.
      * cbn. apply billing_only_update. intros u. now repeat split.
      * apply billing_only_refl.
      * apply billing_only_refl.
Qed.

Section Part000Usage.

Import Part000.

Variable E : Env.

(** A wizard step leaves the usage count of the sender's row alone. *)
Lemma wizard_free_used from text u w :
  select_single (by_phone from) (users w) = Some u ->
  exists u',
    select_single (by_phone from) (users (after (wizard from text u (ret tt)) w)) = Some u'
    /\ free_used u' = free_used u.
Proof.
  intros Hu.
  assert (Hsame : exists u', select_single (by_phone from) (users w) = Some u'
                             /\ free_used u' = free_used u) by (now exists u).
  assert (Hpatch : forall f (m : M unit),
            (forall x, phone_number (f x) = phone_number x) ->
            free_used (f u) = free_used u ->
            (forall c, keeps (fun w => users w = c) m) ->
            exists u',
              select_single (by_phone from)
                (users (after (db_update (by_phone from) f ;;; m) w)) = Some u'
              /\ free_used u' = free_used u).
  { intros f m Hf Hfu K. exists (f u). rewrite after_bind. cbn [outcome db_update modify fst].
    rewrite (keeps_eq users m K). split; [now apply select_after_patch | exact Hfu]. }
  unfold wizard.
  destruct (String.eqb (language_step u) "ui").
  { destruct (pickLang text) as [c|]; [|exact Hsame].
    apply Hpatch; [reflexivity | reflexivity |]. intros d. keeps_auto; simpl; assumption. }
  destruct (String.eqb (language_step u) "target").
  { destruct (pickLang text) as [c|]; [|exact Hsame].
    destruct (Js.seq (code c) (source_lang u)); [exact Hsame|].
    apply Hpatch; [reflexivity | reflexivity |]. intros d. keeps_auto; simpl; assumption. }
  destruct (String.eqb (language_step u) "gender"); [|exact Hsame].
  destruct (pick_gender text) as [g|]; [|exact Hsame].
  apply Hpatch; [reflexivity | reflexivity |]. intros d. keeps_auto; simpl; assumption.
Qed.

End Part000Usage.

(** X19.  Usage follows the log in [part_000].  A message of a known sender adds
    at most one row to the log, and the usage count of a free sender
    grows by exactly the number of rows added; the count of a paying
    sender does not move.  So nothing is counted that was not translated
    and logged, and a reset, a wizard step or a billing reply costs
    nothing. *)
Theorem usage_counts_log_rows E from text num mediaUrl w u :
  from <> "" ->
  select_single (by_phone from) (users w) = Some u ->
  let w' := after (Part000.handleIncoming E from text num mediaUrl) w in
  exists u' new,
    select_single (by_phone from) (users w') = Some u'
    /\ translations w' = translations w ++ new
    /\ length new <= 1
    /\ free_used u' = free_used u + (if Part000.is_free u then length new else 0).
Proof.
  intros Hf Hu w'. subst w'. unfold after. rewrite (handle_known E _ _ _ _ _ _ Hf Hu).
  fold (after (Part000.dispatch E from text num mediaUrl u) w).
  assert (Hnone : forall u',
            select_single (by_phone from)
              (users (after (Part000.dispatch E from text num mediaUrl u) w)) = Some u' ->
            free_used u' = free_used u ->
            translations (after (Part000.dispatch E from text num mediaUrl u) w)
              = translations w ->
            exists u' new,
              select_single (by_phone from)
                (users (after (Part000.dispatch E from text num mediaUrl u) w)) = Some u'
              /\ translations (after (Part000.dispatch E from text num mediaUrl u) w)
                 = translations w ++ new
              /\ length new <= 1
              /\ free_used u' = free_used u + (if Part000.is_free u then length new else 0)).
  { intros u' Hs Hfu Ht. exists u', []. rewrite app_nil_r. simpl.
    split; [exact Hs|]. split; [exact Ht|]. split; [lia|]. destruct (Part000.is_free u); lia. }
  destruct (dispatch_translations E from text num mediaUrl u w) as [Ht|(_ & _ & Hw & _ & Hd)].
  - destruct (dispatch_cases E from text num mediaUrl u)
      as [(_ & _ & Hd)|[(_ & Hd)|[(_ & _ & _ & Hd)|[(_ & _ & _ & Hd)
         |[(_ & _ & _ & _ & Hd)|(_ & _ & Hw & _ & Hd)]]]]].
    + destruct (quick_reply_users E from text u w) as [Hq|[c Hq]].
      * apply (Hnone u); [rewrite Hd, Hq; exact Hu | reflexivity | exact Ht].
      * apply (Hnone (set_stripe_cust_id (Some c) u));
          [rewrite Hd, Hq; now apply select_after_customer | reflexivity | exact Ht].
    + apply (Hnone (Part000.reset_patch u)); [|reflexivity | exact Ht].
      rewrite Hd. unfold after. rewrite reset_run. cbn [snd]. unfold with_outbox, with_users.
      cbn [users]. now apply select_after_patch.
    + apply (Hnone u); [rewrite Hd; exact Hu | reflexivity | exact Ht].
    + destruct (wizard_free_used from text u w Hu) as (u' & Hs & Hfu).
      apply (Hnone u'); [rewrite Hd; exact Hs | exact Hfu | exact Ht].
    + apply (Hnone u); [rewrite Hd; exact Hu | reflexivity | exact Ht].
    + rewrite Hd in *.
      destruct (translation_phase_effect E from text num mediaUrl u (Part000.is_free u) w)
        as [[Hus _]|(o & d & x & i & _ & _ & Ht' & _)].
      * apply (Hnone u); [rewrite Hus; exact Hu | reflexivity | exact Ht].
      * rewrite Ht' in Ht. exfalso. apply (f_equal (@length _)) in Ht.
        rewrite length_app in Ht. simpl in Ht. lia.
  - rewrite Hd.
    destruct (translation_phase_effect E from text num mediaUrl u (Part000.is_free u) w)
      as [[Hus Ht]|(o & d & x & i & _ & _ & Ht & Hus)].
    + exists u, []. rewrite app_nil_r, Hus, Ht. simpl.
      split; [exact Hu|]. split; [reflexivity|]. split; [lia|].
      destruct (Part000.is_free u); lia.
    + exists (if Part000.is_free u then set_free_used (free_used u + 1) u else u).
      eexists [_]. rewrite Ht, Hus. split; [|split; [reflexivity|split; [simpl; lia|]]].
      * destruct (Part000.is_free u); [now apply select_after_patch | exact Hu].
      * destruct (Part000.is_free u); simpl; lia.
Qed.

Lemma wizard_round_trip_003_witness :
  let say := fun text w =>
    after (Part003.handleIncoming Sample.vendors_no_chat "+1555" text 0 None "" 0) w in
  let w3 := say "male" (say "English" (say "2" (say "hi" (Sample.world_of [])))) in
  outcome (Part003.handleIncoming Sample.vendors_no_chat "+1555" "2" 0 None "" 0)
    (say "hi" (Sample.world_of [])) = Throw (Error "chat")
  /\ exists u,
       select_single (by_phone "+1555") (users w3) = Some u
       /\ language_step u = "ready"
       /\ target_lang u = Some "es" /\ source_lang u = Some "en"
       /\ voice_gender u = Some "MALE".
Proof.
  split; [reflexivity|].
  assert (Hf : "+1555" <> "") by discriminate.
  assert (Hd : code (MenuEntry "English" "en") <> code (MenuEntry "Spanish" "es"))
    by discriminate.
  destruct (wizard_round_trip_003 Sample.vendors_no_chat Sample.vendors_no_chat Sample.vendors_no_chat
              Sample.vendors_no_chat "+1555" "hi" "2" "English" "male" 0 0 0 0 None None None None
              "" "" "" "" 0 0 0 0 (Sample.world_of [])
              (MenuEntry "Spanish" "es") (MenuEntry "English" "en") "MALE"
              Hf (List.NoDup_nil _) eq_refl eq_refl eq_refl eq_refl eq_refl eq_refl Hd eq_refl)
    as (_ & _ & u & Hsel & Hstep & Ht & Hs & Hg & _).
  exists u. split; [exact Hsel|]. split; [exact Hstep|]. split; [exact Ht|].
  split; [exact Hs | exact Hg].
Defined.

Lemma usage_counts_log_rows_witness :
  let w := Sample.world_of [Sample.ready 2] in
  let w' := after (Part000.handleIncoming Sample.vendors "+1555" "Hola" 0 None) w in
  length (translations w') = 1
  /\ exists u' new,
       select_single (by_phone "+1555") (users w') = Some u'
       /\ translations w' = translations w ++ new
       /\ length new <= 1
       /\ free_used u' = 2 + length new.
Proof.
  split; [reflexivity|].
  assert (Hf : "+1555" <> "") by discriminate.
  exact (usage_counts_log_rows Sample.vendors "+1555" "Hola" 0 None
           (Sample.world_of [Sample.ready 2]) (Sample.ready 2) Hf eq_refl).
Defined.

Lemma translations_into_menu_languages_witness :
  let w3 := after (Part000.handleIncoming Sample.vendors "+1555" "2" 0 None)
              (after (Part000.handleIncoming Sample.vendors "+1555" "es" 0 None)
                 (after (Part000.handleIncoming Sample.vendors "+1555" "3" 0 None)
                    (Sample.world_of []))) in
  let w4 := after (Part000.handleIncoming Sample.vendors "+1555" "Hola" 0 None) w3 in
  reachable w3
  /\ map language_to (translations w4) = [Some "fr"]
  /\ logged_into_menu "+1555" (users w3) (translations w3) (translations w4).
Proof.
  assert (R : reachable
                (after (Part000.handleIncoming Sample.vendors "+1555" "2" 0 None)
                   (after (Part000.handleIncoming Sample.vendors "+1555" "es" 0 None)
                      (after (Part000.handleIncoming Sample.vendors "+1555" "3" 0 None)
                         (Sample.world_of []))))).
  { repeat (eapply reach_step; [|apply step_message]). now apply reach_start. }
  split; [exact R|]. split; [vm_compute; reflexivity|].
  exact (proj1 translations_into_menu_languages Sample.vendors "+1555" "Hola" 0 None _ R).
Defined.

(** ** The media branch *)

Lemma app_cancel_r (a b x : string) :
  String.length a = String.length b -> a +:+ x = b +:+ x -> a = b.
Proof.
  revert b. induction a as [|c a IH]; intros [|d b] Hl H; try discriminate; [reflexivity|].
  change (String c (a +:+ x) = String d (b +:+ x)) in H. injection H as -> H.
  f_equal. apply IH; [simpl in Hl; lia | exact H].
Qed.

Lemma startsWith_split p s : Js.startsWith p s = true -> s = p +:+ Js.drop (String.length p) s.
Proof.
  revert s. induction p as [|a p IH]; intros s H; [destruct s; reflexivity|].
  destruct s as [|b s]; [discriminate|]. simpl in H.
  destruct (Ascii.eqb_spec a b) as [->|]; [|discriminate].
  change (String b s = String b (p +:+ Js.drop (String.length p) s)). f_equal. now apply IH.
Qed.

Lemma includes_tail p s :
  Js.includes p s = true -> Js.startsWith p s = false ->
  exists c r, s = String c r /\ Js.includes p r = true.
Proof.
  destruct s as [|c r]; simpl; intros H Hs; rewrite Hs in H; [discriminate|].
  now exists c, r.
Qed.

(** Replacing an occurrence by a different text of the same length changes
    the string. *)
Lemma replace_changes pat rep s :
  String.length pat = String.length rep -> pat <> rep ->
  Js.includes pat s = true -> Js.replace pat rep s <> s.
Proof.
  intros Hl Hne. induction s as [|c r IH]; intros Hin.
  - simpl in *. rewrite orb_false_r in Hin. rewrite Hin.
    destruct pat; [|discriminate Hin]. destruct rep; [congruence | discriminate Hl].
  - destruct (Js.startsWith pat (String c r)) eqn:Hs.
    + unfold Js.replace. fold Js.replace. rewrite Hs. intros Heq.
      rewrite (startsWith_split _ _ Hs) in Heq at 2.
      apply app_cancel_r in Heq; [congruence | lia].
    + destruct (includes_tail _ _ Hin Hs) as (c' & r' & [= <- <-] & Hr).
      unfold Js.replace. fold Js.replace. rewrite Hs. intros [= Heq]. now apply IH.
Qed.

Lemma startsWith_refl_app p x : Js.startsWith p (p +:+ x) = true.
Proof.
  induction p as [|a p IH]; [reflexivity|].
  change (Js.startsWith (String a p) (String a (p +:+ x)) = true). simpl.
  now rewrite Ascii.eqb_refl.
Qed.

Lemma includes_suffix a p : Js.includes p (a +:+ p) = true.
Proof.
  induction a as [|c a IH].
  - change ("" +:+ p) with p. destruct p as [|d p]; [reflexivity|].
    unfold Js.includes. fold Js.includes.
    replace (String d p) with (String d p +:+ "") at 2.
    + now rewrite startsWith_refl_app.
    + clear. induction (String d p) as [|x s IH]; [reflexivity|].
      change (String x (s +:+ "") = String x s). now rewrite IH.
  - change (String c a +:+ p) with (String c (a +:+ p)).
    unfold Js.includes. fold Js.includes. rewrite IH. apply orb_true_r.
Qed.

Lemma ext_of_cases ctype :
  ext_of ctype = ".ogg" \/ ext_of ctype = ".mp3" \/ ext_of ctype = ".m4a" \/ ext_of ctype = ".dat".
Proof.
  unfold ext_of. destruct (Js.includes "ogg" ctype); [tauto|].
  destruct (Js.includes "mpeg" ctype); [tauto|].
  destruct (Js.includes "mp4" ctype || Js.includes "m4a" ctype); tauto.
Qed.

(** The WAV path is never the path of the download. *)
Lemma wav_differs u ctype :
  Js.replace (ext_of ctype) ".wav" ("/tmp/" +:+ u +:+ ext_of ctype)
  <> "/tmp/" +:+ u +:+ ext_of ctype.
Proof.
  assert (H : "/tmp/" +:+ u +:+ ext_of ctype = ("/tmp/" +:+ u) +:+ ext_of ctype).
  { now rewrite string_app_assoc. }
  rewrite H. apply replace_changes.
  - destruct (ext_of_cases ctype) as [->|[->|[->| ->]]]; reflexivity.
  - destruct (ext_of_cases ctype) as [->|[->|[->| ->]]]; discriminate.
  - apply includes_suffix.
Qed.

Section Transcript.

Variable E : Env.

Lemma whisper_run wav w :
  whisper E wav w =
    (match
       match transcriptions_create E "whisper-large-v3" wav with
       | Some r => Some r
       | None => transcriptions_create E "whisper-1" wav
       end
     with
     | Some r => Ok (fst r, Js.slice0 2 (default "" (snd r)))
     | None => Throw (Error "whisper-1")
     end, w).
Proof.
  unfold whisper, try_catch, bind, await.
  destruct (transcriptions_create E "whisper-large-v3" wav) as [r|]; [reflexivity|].
  cbn. now destruct (transcriptions_create E "whisper-1" wav).
Qed.

(** Once the download and the transcoding have succeeded, the media branch
    ends as transcription and detection end: the cleanup finds both files. *)
Lemma transcribe_media_heard url w ctype bytes :
  fetch_media E url = Some (ctype, bytes) ->
  let raw := "/tmp/" +:+ randomUUID E (uuids w) +:+ ext_of ctype in
  let wav := Js.replace (ext_of ctype) ".wav" raw in
  ffmpeg_ok E raw = true ->
  outcome (transcribe_media E url) w = heard E wav.
Proof.
  intros Hfetch raw wav Hff.
  assert (Hd : wav <> raw) by apply wav_differs.
  unfold transcribe_media. rewrite outcome_bind. unfold outcome at 1, after at 1, await.
  rewrite Hfetch. cbn [ret fst snd].
  rewrite outcome_bind. cbn [outcome after uuid fst snd]. fold raw. fold wav.
  rewrite outcome_bind. cbn [outcome after writeFileSync modify fst snd].
  rewrite outcome_bind. unfold toWav at 1 2. rewrite Hff.
  cbn [outcome after bind modify ret fst snd].
  set (w3 := with_files _ (with_files _ (with_uuids _ w))).
  assert (Hf3 : files w3 = files w ∪ {[raw]} ∪ {[wav]}) by reflexivity.
  assert (Hbody : forall w0,
            bind (whisper E wav)
              (fun r => if negb (String.eqb (snd r) "") then ret (fst r, snd r)
                        else bind (detectLang E (fst r))
                               (fun d => ret (fst r, Js.slice0 2 d))) w0
            = (heard E wav, w0)).
  { intros w0. unfold bind. rewrite whisper_run. unfold heard.
    destruct (match transcriptions_create E "whisper-large-v3" wav with
              | Some r => Some r
              | None => transcriptions_create E "whisper-1" wav
              end) as [r|]; [|reflexivity].
    cbn [fst snd]. cbv zeta.
    destruct (String.eqb (Js.slice0 2 (default "" (snd r))) ""); cbn [negb]; [|reflexivity].
    unfold detectLang, await. now destruct (detect E (fst r)). }
  assert (Hclean : exists w4, bind (unlinkSync raw) (fun _ => unlinkSync wav) w3 = (Ok tt, w4)).
  { unfold bind, unlinkSync.
    destruct (decide (raw ∈ files w3)) as [_|N].
    2:{ exfalso. apply N. rewrite Hf3, !elem_of_union, elem_of_singleton. now left; right. }
    cbn [fst snd files with_files].
    destruct (decide (wav ∈ files w3 ∖ {[raw]})) as [_|N]; [now eexists|].
    exfalso. apply N. rewrite elem_of_difference, Hf3, !elem_of_union, !elem_of_singleton.
    split; [now right | exact Hd]. }
  destruct Hclean as [w4 Hclean].
  unfold outcome, try_finally. rewrite Hbody, Hclean. reflexivity.
Qed.

End Transcript.

(** X20.  The cleanup never masks the result.  When the download and the
    transcoding of a voice note succeed, the media branch ends exactly as
    transcription and detection end: with the transcript of the large
    model, or of the older model when the large one fails, and the first
    two letters of the language the transcription reports, or of the
    detected language when it reports none; or with the error of the
    older model or of the detection.  The two [unlinkSync] of the
    [finally] block find their files (the WAV path differs from the path of
    the download) and do not throw.  A failed download ends the branch
    before any file is written. *)
Theorem cleanup_never_masks_result E url w :
  (forall ctype bytes,
      fetch_media E url = Some (ctype, bytes) ->
      let raw := "/tmp/" +:+ randomUUID E (uuids w) +:+ ext_of ctype in
      let wav := Js.replace (ext_of ctype) ".wav" raw in
      ffmpeg_ok E raw = true ->
      wav <> raw /\ outcome (transcribe_media E url) w = heard E wav)
  /\ (fetch_media E url = None ->
      outcome (transcribe_media E url) w = Throw (Error "fetch")
      /\ after (transcribe_media E url) w = w).
Proof.
  split.
  - intros ctype bytes Hfetch raw wav Hff.
    split; [apply wav_differs | now apply (transcribe_media_heard E url w ctype bytes)].
  - intros Hfetch. unfold outcome, after, transcribe_media, bind, await. now rewrite Hfetch.
Qed.

Lemma cleanup_never_masks_result_witness :
  let w := Sample.world_of [Sample.ready 0] in
  fetch_media Sample.vendors "https://media/1" = Some ("audio/ogg", "bytes")
  /\ "/tmp/id0.wav" <> "/tmp/id0.ogg"
  /\ outcome (transcribe_media Sample.vendors "https://media/1") w = Ok ("hola", "es").
Proof.
  split; [reflexivity|].
  exact (proj1 (cleanup_never_masks_result Sample.vendors "https://media/1"
                  (Sample.world_of [Sample.ready 0]))
           "audio/ogg" "bytes" eq_refl eq_refl).
Defined.

(** * The translation pipeline, end to end *)

Section Media.

Variable E : Env.

(** The media branch draws one identifier, for the name of the download. *)
Lemma transcribe_media_drawn url w r :
  outcome (transcribe_media E url) w = Ok r ->
  uuids (after (transcribe_media E url) w) = S (uuids w).
Proof.
  unfold transcribe_media. rewrite outcome_bind, after_bind.
  unfold outcome at 1 3, after at 1 2, await.
  destruct (fetch_media E url) as [resp|]; [|discriminate]. cbn [ret fst snd].
  intros _. cbv beta zeta. unfold bind at 1, uuid at 1. cbn [after ret snd].
  match goal with |- uuids (snd (?m ?w1)) = _ =>
    change (uuids (after m w1) = uuids w1);
    apply (keeps_eq uuids m); intros c; keeps_auto; simpl; assumption
  end.
Qed.

Lemma tts_keeps_uuids text lang gender w :
  uuids (after (tts E text lang gender) w) = uuids w.
Proof. apply (keeps_eq uuids). intros c. keeps_auto; simpl; assumption. Qed.

(** Whether the upload goes through, and the link it gives, depend on the
    storage service and on the identifier drawn for the file's name. *)
Lemma uploadAudio_outcome mp3 w :
  match outcome (uploadAudio E mp3) w with
  | Ok pub => upload_accepted E (audio_name E (uuids w)) = true
              /\ pub = audio_link E (uuids w)
  | Throw _ => upload_accepted E (audio_name E (uuids w)) = false
  end.
Proof.
  unfold outcome, uploadAudio, bind, uuid, upload_accepted, audio_link. cbn [fst snd].
  fold (audio_name E (uuids w)).
  destruct (storage_upload E "tts-voices" 0 (audio_name E (uuids w))) as [m|];
    [|cbn; now split].
  destruct (Js.includes "bucket not found" (Js.fold_case m)); [|reflexivity].
  unfold ensureBucket. destruct (createBucket E "tts-voices") as [c|].
  - destruct (String.eqb c "PGRST116"); [|reflexivity]. cbn.
    destruct (storage_upload E "tts-voices" 1 _); cbn; [reflexivity | now split].
  - cbn. destruct (storage_upload E "tts-voices" 1 _); cbn; [reflexivity | now split].
Qed.

(** The reply to a message with media: transcript, translation and, when
    synthesis succeeds and the storage service takes the file, the link. *)
Lemma reply_media_outbox from original translated num dest gender w :
  num <> 0 ->
  outbox (after (reply E from original translated num dest gender) w) =
    outbox w ++
      [OutMsg from (Body (Lit (HEARD +:+ original))); OutMsg from (Body (Lit translated))] ++
      match outcome (tts E translated dest gender) w with
      | Ok _ => if upload_accepted E (audio_name E (uuids w))
                then [OutMsg from (MediaUrl (audio_link E (uuids w)))]
                else []
      | Throw _ => []
      end.
Proof.
  intros Hn. unfold reply. apply Nat.eqb_neq in Hn. rewrite Hn.
  rewrite !after_bind. cbn [outcome sendMessage modify fst].
  set (w2 := after _ (after _ w)).
  assert (H2 : outbox w2 = outbox w ++ [OutMsg from (Body (Lit (HEARD +:+ original)));
                                        OutMsg from (Body (Lit translated))])
    by (subst w2; cbn; now rewrite <- app_assoc).
  assert (Hc : voiceCache w2 = voiceCache w) by reflexivity.
  assert (Hi : uuids w2 = uuids w) by reflexivity.
  clearbody w2. rewrite audio_part_outbox, H2, (tts_outcome_cache _ _ _ _ w2 w Hc).
  rewrite <- app_assoc. f_equal. f_equal.
  destruct (outcome (tts E translated dest gender) w) as [mp3|e]; [|reflexivity].
  pose proof (uploadAudio_outcome mp3 (after (tts E translated dest gender) w2)) as Hup.
  rewrite tts_keeps_uuids, Hi in Hup.
  destruct (outcome (uploadAudio E mp3) _) as [pub|e].
  - destruct Hup as [-> ->]. reflexivity.
  - now rewrite Hup.
Qed.

(** A message that is acquired and translated: the usage count of a free
    sender and the log row are written, and the reply block runs. *)
Lemma translation_phase_run from text num mediaUrl u isFree w original detected x :
  outcome (acquire E text num mediaUrl) w = Ok (original, detected) ->
  original <> "" ->
  completions_create E (interpolate (dest_of detected u)) original = Some x ->
  let w0 := after (acquire E text num mediaUrl) w in
  translation_phase E from text num mediaUrl u isFree w =
    reply E from original (Js.trim x) num (dest_of detected u) (voice_gender u)
      (with_translations
         (fun t => t ++ [Translation (randomUUID E (uuids w0)) from original (Js.trim x)
                           detected (dest_of detected u) None None])
         (with_uuids (S (uuids w0))
            (if isFree
             then with_users (update_where (by_phone from) (set_free_used (free_used u + 1))) w0
             else w0))).
Proof.
  intros Ha Ho Hx w0. unfold translation_phase, translation_phase_with.
  unfold bind at 1. rewrite (run_eta (acquire E text num mediaUrl) w), Ha. fold w0.
  cbn [fst snd]. apply String.eqb_neq in Ho. rewrite Ho.
  unfold bind at 1. rewrite translate_run, Hx.
  destruct isFree; reflexivity.
Qed.

End Media.

Lemma flip_rule_dest_of detected u dest :
  flip_rule detected u dest <-> dest = dest_of detected u.
Proof.
  destruct (dest_of_flip detected u) as [H1 H2]. unfold flip_rule. split.
  - intros [F1 F2]. destruct (decide (target_lang u = Some detected)) as [e|n].
    + now rewrite (F1 e), (H1 e).
    + now rewrite (F2 n), (H2 n).
  - intros ->. now split.
Qed.

Section EndToEnd.

Variable E : Env.

Lemma acquire_plain text num mediaUrl w d :
  no_media num mediaUrl = true -> text <> "" -> detect E text = Some d ->
  acquire E text num mediaUrl w = (Ok (text, Js.slice0 2 d), w).
Proof.
  intros Hm Ht Hd. apply negb_true_iff in Hm. apply String.eqb_neq in Ht.
  unfold acquire, bind, detectLang. rewrite Hm, Ht. cbn. now rewrite Hd.
Qed.

Lemma translation_phase_translated from text num mediaUrl u isFree w original detected x :
  outcome (acquire E text num mediaUrl) w = Ok (original, detected) ->
  original <> "" ->
  completions_create E (interpolate (dest_of detected u)) original = Some x ->
  translated_into from original (Js.trim x) detected (dest_of detected u)
    (randomUUID E (uuids (after (acquire E text num mediaUrl) w))) num
    w (after (translation_phase E from text num mediaUrl u isFree) w).
Proof.
  intros Ha Ho Hx. unfold after at 2.
  rewrite (translation_phase_run E from text num mediaUrl u isFree w _ _ _ Ha Ho Hx).
  set (w0 := after (acquire E text num mediaUrl) w).
  pose proof (acquire_keeps E (fun _ b o _ => b = translations w /\ o = outbox w)
                text num mediaUrl w (conj eq_refl eq_refl)) as [Kt Ko].
  fold w0 in Kt, Ko.
  set (wr := with_translations _ _).
  assert (Ht : translations wr =
               translations w ++ [Translation (randomUUID E (uuids w0)) from original
                                    (Js.trim x) detected (dest_of detected u) None None]).
  { subst wr. destruct isFree; cbn; now rewrite Kt. }
  assert (Hob : outbox wr = outbox w) by (subst wr; destruct isFree; cbn; exact Ko).
  clearbody wr.
  match goal with |- translated_into _ _ _ _ _ _ _ _ (snd (?m wr)) =>
    change (snd (m wr)) with (after m wr) end.
  split.
  - rewrite <- Ht.
    apply (reply_keeps E (fun _ b => b = translations wr) from original (Js.trim x) num
             (dest_of detected u) (voice_gender u) wr eq_refl).
  - destruct (Nat.eqb num 0) eqn:Hn.
    + exists []. unfold reply. rewrite Hn. cbn. now rewrite Hob.
    + apply Nat.eqb_neq in Hn. rewrite (reply_media_outbox E _ _ _ _ _ _ wr Hn), Hob.
      eexists. reflexivity.
Qed.

(** What routes a sender to the translation phase in [part_001]. *)
Lemma ready_to_translate_001 from text num mediaUrl w u :
  from <> "" ->
  select_single (by_phone from) (users w) = Some u ->
  language_step u = "ready" ->
  Part000.incomplete u = false -> over_quota u = false -> is_reset text = false ->
  Part001.handleIncoming E from text num mediaUrl w
    = translation_phase E from text num mediaUrl u (Part000.is_free u) w.
Proof.
  intros Hf Hu Hs Hi Hq Hr. rewrite (handle_known_001 E _ _ _ _ _ _ Hf Hu).
  assert (Hw : in_wizard_001 u = false) by (unfold in_wizard_001; now rewrite Hs).
  change (Part001.is_free u && (5 <=? free_used u) = false) in Hq.
  change (Part001.incomplete u = false) in Hi.
  destruct (dispatch_cases_001 E from text num mediaUrl u)
    as [(Hw' & _)|[(_ & _ & Hq' & _)|[(_ & Hr' & _)|[(_ & _ & Hq' & _)
       |[(_ & _ & _ & Hi' & _)|(_ & _ & _ & _ & ->)]]]]]; try congruence.
  reflexivity.
Qed.

End EndToEnd.

(** C1.  The destination-flip rule.  The destination the handler computes
    is the one the rule names: the sender's source language when the
    detected language is the sender's target language, and the target
    language otherwise.  Every log row the handler of either variant
    writes for a known sender names that destination for the detected
    language it records.  And for a READY sender under the quota whose
    message is no reset, the handler of either variant does translate: a
    text for which the detection service answers is logged with the first
    two letters of that answer as its language, a voice note with the
    language the transcription reports (the detected one when it reports
    none); the destination that is logged, and that the translation model
    was asked for, is the one the rule names for that language, and the
    translation is sent back.  With target "es" and source "en", detected
    "es" goes to "en" and detected "fr" goes to "es". *)
Theorem destination_flip_rule E from text num mediaUrl w u :
  from <> "" ->
  select_single (by_phone from) (users w) = Some u ->
  (forall detected, flip_rule detected u (dest_of detected u))
  /\ (forall handleIncoming,
        In handleIncoming [Part000.handleIncoming; Part001.handleIncoming] ->
        let w' := after (handleIncoming E from text num mediaUrl) w in
        logged_by_flip E u (translations w) (translations w')
        /\ (language_step u = "ready" -> Part000.incomplete u = false ->
            over_quota u = false -> is_reset text = false ->
            (forall d dest x,
                no_media num mediaUrl = true -> text <> "" ->
                detect E text = Some d ->
                flip_rule (Js.slice0 2 d) u dest ->
                completions_create E (interpolate dest) text = Some x ->
                translated_into from text (Js.trim x) (Js.slice0 2 d) dest
                  (randomUUID E (uuids w)) num w w')
            /\ (forall url ctype bytes original detected dest x,
                  0 < num -> mediaUrl = Some url -> url <> "" ->
                  fetch_media E url = Some (ctype, bytes) ->
                  let raw := "/tmp/" +:+ randomUUID E (uuids w) +:+ ext_of ctype in
                  let wav := Js.replace (ext_of ctype) ".wav" raw in
                  ffmpeg_ok E raw = true ->
                  heard E wav = Ok (original, detected) -> original <> "" ->
                  flip_rule detected u dest ->
                  completions_create E (interpolate dest) original = Some x ->
                  translated_into from original (Js.trim x) detected dest
                    (randomUUID E (S (uuids w))) num w w')))
  /\ (source_lang u = Some "en" -> target_lang u = Some "es" ->
      flip_rule "es" u (Some "en") /\ flip_rule "fr" u (Some "es")).
Proof.
  intros Hf Hu. split; [intros d; now apply flip_rule_dest_of|]. split.
  - intros handle Hin w'.
    assert (Hlog : logged_by_flip E u (translations w) (translations w')).
    { subst w'. destruct Hin as [<-|[<-|[]]]; unfold after.
      - rewrite (handle_known E _ _ _ _ _ _ Hf Hu).
        destruct (dispatch_translations E from text num mediaUrl u w)
          as [H|(_ & _ & _ & _ & H)]; [now left|].
        fold (after (Part000.dispatch E from text num mediaUrl u) w). rewrite H.
        apply translation_phase_row.
      - rewrite (handle_known_001 E _ _ _ _ _ _ Hf Hu).
        destruct (dispatch_translations_001 E from text num mediaUrl u w)
          as [H|(_ & _ & _ & _ & H)]; [now left|].
        fold (after (Part001.dispatch E from text num mediaUrl u) w). rewrite H.
        apply translation_phase_row. }
    split; [exact Hlog|]. intros Hs Hi Hq Hr.
    assert (Hrun : handle E from text num mediaUrl w
                   = translation_phase E from text num mediaUrl u (Part000.is_free u) w).
    { destruct Hin as [<-|[<-|[]]];
        [now apply ready_to_translate | now apply ready_to_translate_001]. }
    assert (Hw' : w' = after (translation_phase E from text num mediaUrl u (Part000.is_free u)) w)
      by (subst w'; unfold after; now rewrite Hrun).
    rewrite Hw'. split.
    + intros d dest x Hm Ht Hd Hflip Hx. apply flip_rule_dest_of in Hflip. subst dest.
      pose proof (acquire_plain E text num mediaUrl w d Hm Ht Hd) as Ha.
      assert (Ho : outcome (acquire E text num mediaUrl) w = Ok (text, Js.slice0 2 d))
        by (unfold outcome; now rewrite Ha).
      assert (Hw0 : after (acquire E text num mediaUrl) w = w)
        by (unfold after; now rewrite Ha).
      pose proof (translation_phase_translated E from text num mediaUrl u (Part000.is_free u)
                    w text (Js.slice0 2 d) x Ho Ht Hx) as T.
      now rewrite Hw0 in T.
    + intros url ctype bytes original detected dest x Hn -> Hurl Hfetch raw wav Hff Hh Ho
        Hflip Hx.
      apply flip_rule_dest_of in Hflip. subst dest.
      assert (Ha : outcome (acquire E text num (Some url)) w = Ok (original, detected)).
      { unfold outcome. rewrite (acquire_media E _ _ _ _ Hn Hurl).
        fold (outcome (transcribe_media E url) w).
        now rewrite (transcribe_media_heard E url w ctype bytes Hfetch Hff). }
      pose proof (translation_phase_translated E from text num (Some url) u (Part000.is_free u)
                    w original detected x Ha Ho Hx) as T.
      assert (Hid : uuids (after (acquire E text num (Some url)) w) = S (uuids w)).
      { unfold after, outcome in *. rewrite (acquire_media E _ _ _ _ Hn Hurl) in *.
        now apply (transcribe_media_drawn E url w (original, detected)). }
      now rewrite Hid in T.
  - intros Hs Ht. split; apply flip_rule_dest_of; unfold dest_of; now rewrite Hs, Ht.
Qed.

Lemma destination_flip_rule_witness :
  let u := Sample.ready 0 in
  let w := Sample.world_of [u] in
  let logged (handleIncoming : Env -> string -> string -> nat -> option string -> M unit)
        E text num media :=
    translations (after (handleIncoming E "+1555" text num media) w) in
  source_lang u = Some "en" /\ target_lang u = Some "es"
  /\ flip_rule "es" u (Some "en") /\ flip_rule "fr" u (Some "es")
  /\ logged Part000.handleIncoming Sample.vendors "Hola" 0 None
     = [Translation "id0" "+1555" "Hola" "[en] Hola" "es" (Some "en") None None]
  /\ logged Part001.handleIncoming Sample.vendors "Hola" 0 None
     = [Translation "id0" "+1555" "Hola" "[en] Hola" "es" (Some "en") None None]
  /\ logged Part000.handleIncoming Sample.vendors_french "Bonjour" 0 None
     = [Translation "id0" "+1555" "Bonjour" "[es] Bonjour" "fr" (Some "es") None None]
  /\ logged Part001.handleIncoming Sample.vendors_french "Bonjour" 0 None
     = [Translation "id0" "+1555" "Bonjour" "[es] Bonjour" "fr" (Some "es") None None]
  /\ logged Part000.handleIncoming Sample.vendors "" 1 (Some "https://media/1")
     = [Translation "id1" "+1555" "hola" "[en] hola" "es" (Some "en") None None]
  /\ logged Part001.handleIncoming Sample.vendors_french "" 1 (Some "https://media/1")
     = [Translation "id1" "+1555" "bonjour" "[es] bonjour" "fr" (Some "es") None None].
Proof.
  cbv zeta.
  assert (Hf : "+1555" <> "") by discriminate.
  pose proof (fun E text num media =>
                destination_flip_rule E "+1555" text num media
                  (Sample.world_of [Sample.ready 0]) (Sample.ready 0) Hf eq_refl) as T.
  destruct (proj2 (proj2 (T Sample.vendors "Hola" 0 None)) eq_refl eq_refl) as [Fes Ffr].
  assert (Hurl : "https://media/1" <> "") by discriminate.
  split; [reflexivity|]. split; [reflexivity|]. split; [exact Fes|]. split; [exact Ffr|].
  split; [|split; [|split; [|split; [|split]]]].
  - refine (proj1 (proj1 (proj2 (proj1 (proj2 (T Sample.vendors "Hola" 0 None))
                                   Part000.handleIncoming (or_introl eq_refl))
                            eq_refl eq_refl eq_refl eq_refl)
                     "es" (Some "en") "[en] Hola" eq_refl _ eq_refl Fes eq_refl)).
    discriminate.
  - refine (proj1 (proj1 (proj2 (proj1 (proj2 (T Sample.vendors "Hola" 0 None))
                                   Part001.handleIncoming (or_intror (or_introl eq_refl)))
                            eq_refl eq_refl eq_refl eq_refl)
                     "es" (Some "en") "[en] Hola" eq_refl _ eq_refl Fes eq_refl)).
    discriminate.
  - refine (proj1 (proj1 (proj2 (proj1 (proj2 (T Sample.vendors_french "Bonjour" 0 None))
                                   Part000.handleIncoming (or_introl eq_refl))
                            eq_refl eq_refl eq_refl eq_refl)
                     "fr" (Some "es") "[es] Bonjour" eq_refl _ eq_refl Ffr eq_refl)).
    discriminate.
  - refine (proj1 (proj1 (proj2 (proj1 (proj2 (T Sample.vendors_french "Bonjour" 0 None))
                                   Part001.handleIncoming (or_intror (or_introl eq_refl)))
                            eq_refl eq_refl eq_refl eq_refl)
                     "fr" (Some "es") "[es] Bonjour" eq_refl _ eq_refl Ffr eq_refl)).
    discriminate.
  - assert (Hn : 0 < 1) by lia.
    refine (proj1 (proj2 (proj2 (proj1 (proj2 (T Sample.vendors "" 1 (Some "https://media/1")))
                                   Part000.handleIncoming (or_introl eq_refl))
                            eq_refl eq_refl eq_refl eq_refl)
                     "https://media/1" "audio/ogg" "bytes" "hola" "es" (Some "en") "[en] hola"
                     Hn eq_refl Hurl eq_refl eq_refl eq_refl _ Fes eq_refl)).
    discriminate.
  - assert (Hn : 0 < 1) by lia.
    refine (proj1 (proj2 (proj2 (proj1 (proj2 (T Sample.vendors_french "" 1
                                                 (Some "https://media/1")))
                                   Part001.handleIncoming (or_intror (or_introl eq_refl)))
                            eq_refl eq_refl eq_refl eq_refl)
                     "https://media/1" "audio/ogg" "bytes" "bonjour" "fr" (Some "es")
                     "[es] bonjour"
                     Hn eq_refl Hurl eq_refl eq_refl eq_refl _ Ffr eq_refl)).
    discriminate.
Defined.

(** C8.  The replies of the pipeline.  A ready sender whose message the
    routing passes to the translation phase sends a voice note that is
    transcribed and translated.  When synthesis succeeds and the storage
    service takes the file (at once, or at the retry after a missing bucket
    was created), exactly three messages go out, in this order: the
    transcript behind the emphasis marker, the translation, and the public
    link of the uploaded file.  When synthesis fails (in particular when no
    fallback tier returns audio), or the upload is refused, exactly the
    first two go out.  A text message without media that is translated
    gets exactly one message, the translation. *)
Theorem voice_note_replies E from text num url w u original detected x :
  from <> "" ->
  select_single (by_phone from) (users w) = Some u ->
  language_step u = "ready" ->
  Part000.incomplete u = false -> over_quota u = false -> is_reset text = false ->
  0 < num -> url <> "" ->
  outcome (transcribe_media E url) w = Ok (original, detected) ->
  original <> "" ->
  completions_create E (interpolate (dest_of detected u)) original = Some x ->
  let w' := after (Part000.handleIncoming E from text num (Some url)) w in
  let dest := dest_of detected u in
  let the_transcript := OutMsg from (Body (Lit (HEARD +:+ original))) in
  let the_translation := OutMsg from (Body (Lit (Js.trim x))) in
  let the_audio := OutMsg from (MediaUrl (audio_link E (S (S (uuids w))))) in
  let stored := upload_accepted E (audio_name E (S (S (uuids w)))) in
  (forall mp3,
      outcome (tts E (Js.trim x) dest (voice_gender u)) w = Ok mp3 ->
      (stored = true -> outbox w' = outbox w ++ [the_transcript; the_translation; the_audio])
      /\ (stored = false -> outbox w' = outbox w ++ [the_transcript; the_translation]))
  /\ (forall e,
        outcome (tts E (Js.trim x) dest (voice_gender u)) w = Throw e ->
        outbox w' = outbox w ++ [the_transcript; the_translation])
  /\ ((forall lc name r, synthesize E (Js.trim x) lc name = Some r -> Js.truthy r = false) ->
      outbox w' = outbox w ++ [the_transcript; the_translation])
  /\ (forall text' mediaUrl' d x',
        text' <> "" -> is_reset text' = false ->
        detect E text' = Some d ->
        completions_create E (interpolate (dest_of (Js.slice0 2 d) u)) text' = Some x' ->
        outbox (after (Part000.handleIncoming E from text' 0 mediaUrl') w)
          = outbox w ++ [OutMsg from (Body (Lit (Js.trim x')))]).
Proof.
  intros Hf Hu Hs Hi Hq Hr Hn Hurl Ha Ho Hx w' dest the_transcript the_translation the_audio stored.
  assert (Hout :
    outbox w' =
      outbox w ++ [the_transcript; the_translation] ++
        match outcome (tts E (Js.trim x) dest (voice_gender u)) w with
        | Ok _ => if stored then [the_audio] else []
        | Throw _ => []
        end).
  { subst w'. unfold after at 1.
    rewrite (ready_to_translate E _ _ _ _ _ _ Hf Hu Hs Hi Hq Hr).
    assert (Ha' : outcome (acquire E text num (Some url)) w = Ok (original, detected))
      by (unfold outcome; rewrite (acquire_media E _ _ _ _ Hn Hurl); exact Ha).
    rewrite (translation_phase_run E from text num (Some url) u (Part000.is_free u) w
               original detected x Ha' Ho Hx).
    set (w0 := after (acquire E text num (Some url)) w).
    assert (Hw0 : outbox w0 = outbox w /\ voiceCache w0 = voiceCache w)
      by apply (acquire_keeps E (fun _ _ o c => o = outbox w /\ c = voiceCache w)
                  text num (Some url) w (conj eq_refl eq_refl)).
    assert (Hid : uuids w0 = S (uuids w)).
    { subst w0. unfold after, outcome in *. rewrite (acquire_media E _ _ _ _ Hn Hurl) in *.
      now apply (transcribe_media_drawn E url w (original, detected)). }
    destruct Hw0 as [Hob Hvc].
    set (wr := with_translations _ _).
    assert (Hr1 : outbox wr = outbox w)
      by (subst wr; destruct (Part000.is_free u); cbn; exact Hob).
    assert (Hr2 : voiceCache wr = voiceCache w)
      by (subst wr; destruct (Part000.is_free u); cbn; exact Hvc).
    assert (Hr3 : uuids wr = S (S (uuids w)))
      by (subst wr; destruct (Part000.is_free u); cbn; now rewrite Hid).
    clearbody wr.
    match goal with |- outbox (snd (?m wr)) = _ => change (snd (m wr)) with (after m wr) end.
    assert (Hnum : num <> 0) by lia.
    rewrite (reply_media_outbox E _ _ _ _ _ _ wr Hnum), Hr1, Hr3.
    now rewrite (tts_outcome_cache E _ _ _ wr w Hr2). }
  assert (H2 : forall e,
             outcome (tts E (Js.trim x) dest (voice_gender u)) w = Throw e ->
             outbox w' = outbox w ++ [the_transcript; the_translation]).
  { intros e He. rewrite Hout, He. reflexivity. }
  split; [|split; [exact H2|split]].
  - intros mp3 Ht. rewrite Hout, Ht. split; intros ->; reflexivity.
  - intros Hno.
    destruct (tts_all_tiers_fail E (Js.trim x) dest (voice_gender u) w Hno) as [e He].
    now apply (H2 e).
  - intros text' mediaUrl' d x' Ht Hr' Hd Hx'. unfold after.
    rewrite (ready_to_translate E _ _ _ _ _ _ Hf Hu Hs Hi Hq Hr').
    fold (after (translation_phase E from text' 0 mediaUrl' u (Part000.is_free u)) w).
    destruct (translation_phase_reply E from text' 0 mediaUrl' u (Part000.is_free u) w
                text' (Js.slice0 2 d) x' (acquire_text E _ _ _ _ Ht Hd) Ht Hx')
      as (wr & Hro & _ & ->).
    unfold reply. cbn. now rewrite Hro.
Qed.

Lemma voice_note_replies_witness :
  let w := Sample.world_of [Sample.ready 0] in
  let voice E := outbox (after (Part000.handleIncoming E "+1555" "" 1
                                  (Some "https://media/1")) w) in
  let the_transcript := OutMsg "+1555" (Body (Lit (HEARD +:+ "hola"))) in
  let the_translation := OutMsg "+1555" (Body (Lit "[en] hola")) in
  let the_audio :=
    OutMsg "+1555"
      (MediaUrl "https://db.example/storage/v1/object/public/tts-voices/tts_id2.mp3") in
  voice Sample.vendors = [the_transcript; the_translation; the_audio]
  /\ voice Sample.vendors_no_bucket = [the_transcript; the_translation; the_audio]
  /\ voice Sample.vendors_no_storage = [the_transcript; the_translation]
  /\ voice Sample.vendors_no_tts = [the_transcript; the_translation]
  /\ outbox (after (Part000.handleIncoming Sample.vendors "+1555" "Hola" 0 None) w) =
       [OutMsg "+1555" (Body (Lit "[en] Hola"))].
Proof.
  cbv zeta.
  assert (Hf : "+1555" <> "") by discriminate.
  assert (Hu : "https://media/1" <> "") by discriminate.
  assert (Ho : "hola" <> "") by discriminate.
  assert (Hn : 0 < 1) by lia.
  pose proof (fun E Ha Hx =>
                voice_note_replies E "+1555" "" 1 "https://media/1"
                  (Sample.world_of [Sample.ready 0]) (Sample.ready 0) "hola" "es" "[en] hola"
                  Hf eq_refl eq_refl eq_refl eq_refl eq_refl Hn Hu Ha Ho Hx) as T.
  split; [|split; [|split; [|split]]].
  - exact (proj1 (proj1 (T Sample.vendors eq_refl eq_refl) "mp3" eq_refl) eq_refl).
  - exact (proj1 (proj1 (T Sample.vendors_no_bucket eq_refl eq_refl) "mp3" eq_refl) eq_refl).
  - exact (proj2 (proj1 (T Sample.vendors_no_storage eq_refl eq_refl) "mp3" eq_refl) eq_refl).
  - refine (proj1 (proj2 (proj2 (T Sample.vendors_no_tts eq_refl eq_refl))) _).
    intros lc name r [= <-]. reflexivity.
  - assert (Ht : "Hola" <> "") by discriminate.
    exact (proj2 (proj2 (proj2 (T Sample.vendors eq_refl eq_refl)))
             "Hola" None "es" "[en] Hola" Ht eq_refl eq_refl eq_refl).
Defined.

(** ** Failures before the translation is at hand *)

Section Part000Failures.

Variable E : Env.

(** A message that cannot be acquired, or cannot be translated, ends the
    translation phase before it writes or sends anything. *)
Lemma translation_phase_fails from text num mediaUrl u isFree w :
  (forall e, outcome (acquire E text num mediaUrl) w = Throw e ->
     fails_clean (translation_phase E from text num mediaUrl u isFree) w e)
  /\ (forall original detected,
        outcome (acquire E text num mediaUrl) w = Ok (original, detected) ->
        original <> "" ->
        completions_create E (interpolate (dest_of detected u)) original = None ->
        fails_clean (translation_phase E from text num mediaUrl u isFree) w (Error "chat")).
Proof.
  pose proof (acquire_keeps E (fun a b c _ => a = users w /\ b = translations w /\ c = outbox w)
                text num mediaUrl w (conj eq_refl (conj eq_refl eq_refl))) as Hpre.
  cbv beta in Hpre.
  unfold fails_clean, translation_phase, translation_phase_with. split.
  - intros e Ha. rewrite outcome_bind, after_bind, Ha. now split.
  - intros original detected Ha Ho Hx. rewrite outcome_bind, after_bind, Ha.
    cbn [fst snd]. apply String.eqb_neq in Ho. rewrite Ho.
    rewrite outcome_bind, after_bind, after_translate, outcome_translate, Hx. now split.
Qed.

Lemma transcribe_media_failures url w :
  (fetch_media E url = None -> outcome (transcribe_media E url) w = Throw (Error "fetch"))
  /\ (forall ctype bytes,
        fetch_media E url = Some (ctype, bytes) ->
        ffmpeg_ok E ("/tmp/" +:+ randomUUID E (uuids w) +:+ ext_of ctype) = false ->
        outcome (transcribe_media E url) w = Throw (Error "ffmpeg")).
Proof.
  split.
  - intros H. unfold outcome, transcribe_media, bind, await. now rewrite H.
  - intros ctype bytes H Hff. unfold outcome, transcribe_media, bind, await, uuid, toWav.
    rewrite H. cbn [ret fst snd writeFileSync modify]. now rewrite Hff.
Qed.

End Part000Failures.

(** X15.  A message that cannot be read or translated leaves no trace.
    For a ready sender of [part_000] under the quota whose message is no
    reset: when the language detection of a text fails, when the download,
    the transcoding, both transcription models or the detection fail for a
    voice note, or when the translation model fails, the handler ends with
    that error having changed no user row, written no log row and sent no
    message (also no apology): the usage count is raised and the row is
    logged only after the translation is at hand. *)
Theorem failed_message_leaves_no_trace E from text num mediaUrl w u :
  from <> "" ->
  select_single (by_phone from) (users w) = Some u ->
  language_step u = "ready" ->
  Part000.incomplete u = false -> over_quota u = false -> is_reset text = false ->
  let run := Part000.handleIncoming E from text num mediaUrl in
  (no_media num mediaUrl = true -> text <> "" -> detect E text = None ->
   fails_clean run w (Error "detect"))
  /\ (forall url,
        0 < num -> mediaUrl = Some url -> url <> "" ->
        (fetch_media E url = None -> fails_clean run w (Error "fetch"))
        /\ (forall ctype bytes,
              fetch_media E url = Some (ctype, bytes) ->
              let raw := "/tmp/" +:+ randomUUID E (uuids w) +:+ ext_of ctype in
              let wav := Js.replace (ext_of ctype) ".wav" raw in
              (ffmpeg_ok E raw = false -> fails_clean run w (Error "ffmpeg"))
              /\ (forall e, ffmpeg_ok E raw = true -> heard E wav = Throw e ->
                    fails_clean run w e)))
  /\ (forall original detected,
        outcome (acquire E text num mediaUrl) w = Ok (original, detected) ->
        original <> "" ->
        completions_create E (interpolate (dest_of detected u)) original = None ->
        fails_clean run w (Error "chat")).
Proof.
  intros Hf Hu Hs Hi Hq Hr run.
  assert (Hrun : forall e, 
            fails_clean (translation_phase E from text num mediaUrl u (Part000.is_free u)) w e ->
            fails_clean run w e).
  { intros e. unfold fails_clean, outcome, after. subst run.
    now rewrite (ready_to_translate E _ _ _ _ _ _ Hf Hu Hs Hi Hq Hr). }
  destruct (translation_phase_fails E from text num mediaUrl u (Part000.is_free u) w)
    as [Hacq Hchat].
  split; [|split].
  - intros Hm Ht Hd. apply Hrun, Hacq.
    apply negb_true_iff in Hm. apply String.eqb_neq in Ht.
    unfold outcome, acquire, bind, detectLang. rewrite Hm, Ht. cbn. now rewrite Hd.
  - intros url Hn -> Hurl.
    destruct (transcribe_media_failures E url w) as [Hfetch Hffmpeg].
    assert (Hmedia : outcome (acquire E text num (Some url)) w
                     = outcome (transcribe_media E url) w)
      by (unfold outcome; now rewrite (acquire_media E _ _ _ _ Hn Hurl)).
    split.
    + intros H. apply Hrun, Hacq. rewrite Hmedia. now apply Hfetch.
    + intros ctype bytes H raw wav. split.
      * intros Hff. apply Hrun, Hacq. rewrite Hmedia. now apply (Hffmpeg ctype bytes).
      * intros e Hff Hh. apply Hrun, Hacq. rewrite Hmedia.
        now rewrite (transcribe_media_heard E url w ctype bytes H Hff).
  - intros original detected Ha Ho Hx. apply Hrun. now apply (Hchat original detected).
Qed.

Lemma failed_message_leaves_no_trace_witness :
  let w := Sample.world_of [Sample.ready 0] in
  let voice E := Part000.handleIncoming E "+1555" "" 1 (Some "https://media/1") in
  let text E := Part000.handleIncoming E "+1555" "Hola" 0 None in
  fails_clean (voice Sample.vendors_no_ffmpeg) w (Error "ffmpeg")
  /\ fails_clean (voice Sample.vendors_no_chat) w (Error "chat")
  /\ fails_clean (text Sample.vendors_no_chat) w (Error "chat")
  /\ outcome (text Sample.vendors) w = Ok tt.
Proof.
  cbv zeta.
  assert (Hf : "+1555" <> "") by discriminate.
  assert (Hurl : "https://media/1" <> "") by discriminate.
  assert (Hn : 0 < 1) by lia.
  pose proof (fun E text num media Hr =>
                failed_message_leaves_no_trace E "+1555" text num media
                  (Sample.world_of [Sample.ready 0]) (Sample.ready 0)
                  Hf eq_refl eq_refl eq_refl eq_refl Hr) as T.
  split; [|split; [|split]].
  - exact (proj1 (proj2 (proj1 (proj2 (T Sample.vendors_no_ffmpeg "" 1 (Some "https://media/1") eq_refl))
                           "https://media/1" Hn eq_refl Hurl)
                    "audio/ogg" "bytes" eq_refl) eq_refl).
  - refine (proj2 (proj2 (T Sample.vendors_no_chat "" 1 (Some "https://media/1") eq_refl))
              "hola" "es" eq_refl _ eq_refl). discriminate.
  - refine (proj2 (proj2 (T Sample.vendors_no_chat "Hola" 0 None eq_refl))
              "Hola" "es" eq_refl _ eq_refl). discriminate.
  - reflexivity.
Defined.
